(** * Health-checkup ingestion pipeline: a shallow embedding of the stages

    The Python sources under [scripts/kenshin_list_pydir] are embedded stage
    by stage.  Database tables are finite maps or row lists, SQL statements
    are functions over them, the file system and the ZIP library are data
    handed to the functions, and every Python exception path that the code
    catches is an explicit constructor.

    Text is modelled by [string], a sequence of characters with codes
    below 256.  The character-class functions below are Python's [str]
    methods on text of code points below 128 ([PyStr.ascii_only]); what
    Python does with white space, digits and letter case beyond that range
    is not modelled, and statements that depend on it are made for ASCII
    text. *)

From Stdlib Require Import ZArith Lia Ascii String List Bool.
From stdpp Require Import base option list strings gmap fin_maps sorting.

Set Warnings "-register-all,-abstract-large-number,-clear-no-such-hyp,-level-tolerance".
Local Open Scope Z_scope.

(** ** Python string primitives *)

Module PyStr.

Definition code (c : ascii) : N := N_of_ascii c.

Definition in_range (lo hi : N) (c : ascii) : bool :=
  ((lo <=? code c) && (code c <=? hi))%N.


(** [str.isspace] on one character below 128: TAB..CR, FS..US and the
    blank. *)
Definition isspace (c : ascii) : bool :=
  in_range 9 13 c || in_range 28 32 c.

(** The decimal digits below 128. *)
Definition isdigit (c : ascii) : bool := in_range 48 57 c.

Fixpoint lstrip (s : string) : string :=
  match s with
  | EmptyString => EmptyString
  | String c s' => if isspace c then lstrip s' else s
  end.

Definition rstrip (s : string) : string := String.rev (lstrip (String.rev s)).

(** [s.strip()] for [ascii_only] text. *)
Definition strip (s : string) : string := rstrip (lstrip s).

Definition upper_char (c : ascii) : ascii :=
  if in_range 97 122 c then ascii_of_N (code c - 32) else c.

Definition lower_char (c : ascii) : ascii :=
  if in_range 65 90 c then ascii_of_N (code c + 32) else c.

Fixpoint map_chars (f : ascii -> ascii) (s : string) : string :=
  match s with
  | EmptyString => EmptyString
  | String c s' => String (f c) (map_chars f s')
  end.

(** [s.upper()] and [s.lower()] for [ascii_only] text. *)
Definition upper : string -> string := map_chars upper_char.
Definition lower : string -> string := map_chars lower_char.

(** [x or ""] for a nullable text column. *)
Definition or_empty (o : option string) : string := default EmptyString o.

(** Truthiness of a nullable text: [None] and [""] are false. *)
Definition truthy (o : option string) : bool :=
  match o with
  | Some (String _ _) => true
  | _ => false
  end.

Definition nonempty (s : string) : bool :=
  match s with
  | EmptyString => false
  | String _ _ => true
  end.

(** [sub in s] *)
Fixpoint contains (sub s : string) : bool :=
  String.prefix sub s ||
  match s with
  | EmptyString => false
  | String _ s' => contains sub s'
  end.

(** [s.split(sep)] for a one-character separator. *)
Fixpoint split_go (sep : ascii) (cur : string) (s : string) : list string :=
  match s with
  | EmptyString => [String.rev cur]
  | String c s' =>
      if Ascii.eqb c sep then String.rev cur :: split_go sep EmptyString s'
      else split_go sep (String c cur) s'
  end.

Definition split (sep : ascii) (s : string) : list string :=
  split_go sep EmptyString s.

(** *** [float(v)]: which [ascii_only] texts convert

    CPython first validates and removes digit-group underscores
    ([_Py_string_to_number_with_underscores]), then accepts either a decimal
    literal or a signed [inf], [infinity] or [nan] in any letter case. *)

Fixpoint drop_underscores (prev : ascii) (s : list ascii) : option (list ascii) :=
  match s with
  | [] => if Ascii.eqb prev "_" then None else Some []
  | c :: s' =>
      if Ascii.eqb c "_" then
        if isdigit prev then drop_underscores c s' else None
      else if Ascii.eqb prev "_" && negb (isdigit c) then None
      else cons c <$> drop_underscores c s'
  end.

Definition skip_sign (s : list ascii) : list ascii :=
  match s with
  | c :: s' => if Ascii.eqb c "+" || Ascii.eqb c "-" then s' else s
  | [] => []
  end.

Fixpoint span_digits (s : list ascii) : nat * list ascii :=
  match s with
  | c :: s' =>
      if isdigit c then let '(n, r) := span_digits s' in (S n, r) else (O, s)
  | [] => (O, [])
  end.

Definition exponent_ok (s : list ascii) : bool :=
  match s with
  | [] => true
  | e :: r =>
      if Ascii.eqb e "e" || Ascii.eqb e "E" then
        let '(n, r') := span_digits (skip_sign r) in
        negb (Nat.eqb n 0) && bool_decide (r' = [])
      else false
  end.

Definition decimal_literal (s : list ascii) : bool :=
  let '(n1, r1) := span_digits s in
  let '(n2, r2) :=
    match r1 with
    | c :: r => if Ascii.eqb c "." then span_digits r else (O, r1)
    | [] => (O, r1)
    end in
  negb (Nat.eqb (n1 + n2) 0) && exponent_ok r2.

Definition inf_or_nan (s : list ascii) : bool :=
  let t := lower (string_of_list_ascii s) in
  String.eqb t "inf" || String.eqb t "infinity" || String.eqb t "nan".

(** For [ascii_only] text: [true] exactly when [float(s)] returns instead
    of raising [ValueError].  (For other text [float] first maps Unicode
    white space and decimal digits to their ASCII counterparts.) *)
Definition float_ok (s : string) : bool :=
  match drop_underscores "000" (list_ascii_of_string (strip s)) with
  | None => false
  | Some l =>
      let body := skip_sign l in
      decimal_literal body || inf_or_nan body
  end.


End PyStr.

(** ** SQL helpers: [ORDER BY] on integer keys *)

Module Sql.

(** Lexicographic order on key lists; a shorter key that is a prefix sorts
    first.  [ORDER BY a ASC, b ASC, c ASC] sorts rows by [[a; b; c]], a
    [DESC] column enters negated. *)
Fixpoint key_le (k1 k2 : list Z) : Prop :=
  match k1, k2 with
  | [], _ => True
  | _ :: _, [] => False
  | a :: k1', b :: k2' => a < b \/ (a = b /\ key_le k1' k2')
  end.

#[global] Instance key_le_dec : RelDecision key_le.
Proof.
  intros k1. induction k1 as [|a k1 IH]; intros [|b k2]; simpl;
    try apply _.
Defined.

Definition row_le {A} (key : A -> list Z) : relation A :=
  fun r1 r2 => key_le (key r1) (key r2).

#[global] Instance row_le_dec {A} (key : A -> list Z) : RelDecision (row_le key).
Proof. intros r1 r2. unfold row_le. apply _. Defined.

(** [SELECT ... ORDER BY key]: the order among rows with equal keys is the
    server's choice; here it is the one of the merge sort. *)
Definition order_by {A} (key : A -> list Z) (rows : list A) : list A :=
  merge_sort (row_le key) rows.

(** [LIMIT n] *)
Definition limit {A} (n : Z) (rows : list A) : list A := take (Z.to_nat n) rows.

End Sql.

(** ** Stage I: Normalize-Values ([scripts/normalize_item_values.py]) *)

Module Normalize.
Import PyStr.

Inductive normalize_status := RAW | OK | ERROR.

#[global] Instance normalize_status_eq_dec : EqDecision normalize_status.
Proof. solve_decision. Defined.

(** A row of [medi_exam_result_item_values]. *)
Record item_value := {
  item_value_id : Z;
  ledger_id : Z;
  namecode : option string;
  raw_value : option string;
  value : option string;
  status : normalize_status;
  normalized_at : option string;
  normalize_error : option string
}.

(** A row of [exam_item_master], the three columns [get_master] reads. *)
Record item_master := {
  m_namecode : string;
  xml_value_type : option string;
  result_code_oid : option string
}.

(** A row of [norm_variants]. *)
Record norm_variant := {
  variant_id : Z;
  v_result_code_oid : string;
  raw_value_utf8 : string;
  normalized_code : string;
  is_active : Z;
  is_canonical : Z;
  priority : Z
}.

(** [WHERE normalize_status='RAW' AND (value IS NULL OR value = '')] *)
Definition is_target (r : item_value) : bool :=
  bool_decide (status r = RAW) && negb (truthy (value r)).

Definition select_targets (table : list item_value) (lim : Z) : list item_value :=
  let lim := if lim <=? 0 then 1000000 else lim in
  Sql.limit lim (Sql.order_by (fun r => [item_value_id r]) (filter (fun r => is_target r = true) table)).

Definition get_master (masters : list item_master) (nc : string) : option item_master :=
  head (filter (fun m => m_namecode m = nc) masters).

Definition variant_matches (oid raw : string) (v : norm_variant) : Prop :=
  v_result_code_oid v = oid /\ raw_value_utf8 v = raw /\ is_active v = 1.

#[global] Instance variant_matches_dec oid raw v : Decision (variant_matches oid raw v).
Proof. unfold variant_matches. apply _. Defined.

(** [ORDER BY is_canonical DESC, priority ASC, variant_id ASC] *)
Definition variant_key (v : norm_variant) : list Z :=
  [- is_canonical v; priority v; variant_id v].

Definition lookup_code_like (variants : list norm_variant) (oid raw : string)
  : option norm_variant :=
  head (Sql.order_by variant_key (filter (variant_matches oid raw) variants)).

(** The two writers, [update_ok] and [update_error], as the action taken. *)
Inductive action :=
  | UpdateOk (v : string)
  | UpdateError (msg : string).

Definition normalize_code_like (variants : list norm_variant)
    (xml_value_type : string) (result_code_oid : string) (raw_value_str : string)
  : action :=
  if bool_decide (result_code_oid = "") then
    UpdateError (xml_value_type +:+ " but result_code_oid is NULL/empty in exam_item_master")
  else
    match lookup_code_like variants result_code_oid raw_value_str with
    | None =>
        UpdateError (xml_value_type +:+ " no match in norm_variants: result_code_oid='"
                     +:+ result_code_oid +:+ "', raw_value='" +:+ raw_value_str +:+ "'")
    | Some hit => UpdateOk (normalized_code hit)
    end.

(** The dispatch of [main] once the master row is in hand. *)
Definition dispatch (variants : list norm_variant) (master : item_master)
    (raw_value : option string) : action :=
  let raw_value_str := or_empty raw_value in
  let xml_value_type := upper (strip (or_empty (xml_value_type master))) in
  let result_code_oid := strip (or_empty (result_code_oid master)) in
  if bool_decide (xml_value_type = "ST") || bool_decide (xml_value_type = "") then
    match raw_value with
    | None => UpdateError "ST raw_value is NULL"
    | Some _ => UpdateOk raw_value_str
    end
  else if bool_decide (xml_value_type = "PQ") then
    let v := strip raw_value_str in
    if bool_decide (v = "") then UpdateError "PQ raw_value becomes empty after trim"
    else if float_ok v then UpdateOk v
    else UpdateError ("PQ not numeric: raw_value='" +:+ raw_value_str +:+ "'")
  else if bool_decide (xml_value_type = "CD") then
    normalize_code_like variants "CD" result_code_oid raw_value_str
  else if bool_decide (xml_value_type = "CO") then
    normalize_code_like variants "CO" result_code_oid raw_value_str
  else UpdateError ("unsupported xml_value_type='" +:+ xml_value_type +:+ "'").

(** The body of the loop of [main] for one target row. *)
Definition normalize_row (masters : list item_master) (variants : list norm_variant)
    (t : item_value) : action :=
  let nc := or_empty (namecode t) in
  if negb (nonempty nc) then UpdateError "namecode is empty"
  else
    match get_master masters nc with
    | None => UpdateError ("exam_item_master not found: namecode=" +:+ nc)
    | Some master => dispatch variants master (raw_value t)
    end.

Definition apply_action (now : string) (a : action) (r : item_value) : item_value :=
  match a with
  | UpdateOk v =>
      {| item_value_id := item_value_id r; ledger_id := ledger_id r;
         namecode := namecode r; raw_value := raw_value r;
         value := Some v; status := OK;
         normalized_at := Some now; normalize_error := None |}
  | UpdateError msg =>
      {| item_value_id := item_value_id r; ledger_id := ledger_id r;
         namecode := namecode r; raw_value := raw_value r;
         value := value r; status := ERROR;
         normalized_at := Some now; normalize_error := Some msg |}
  end.

(** [UPDATE ... WHERE item_value_id = id] *)
Definition update_row (now : string) (id : Z) (a : action) (table : list item_value)
  : list item_value :=
  (fun r => if bool_decide (item_value_id r = id) then apply_action now a r else r) <$> table.

Definition is_ok (a : action) : bool :=
  match a with UpdateOk _ => true | UpdateError _ => false end.

(** [main]: the table after the run and the process exit code. *)
Definition main (now : string) (lim : Z) (masters : list item_master)
    (variants : list norm_variant) (table : list item_value) : list item_value * Z :=
  let targets := select_targets table lim in
  let actions := (fun t => (item_value_id t, normalize_row masters variants t)) <$> targets in
  let table' := foldl (fun tb '(id, a) => update_row now id a tb) table actions in
  let err := length (filter (fun '(_, a) => is_ok a = false) actions) in
  (table', if bool_decide (err = 0%nat) then 0 else 2).

(** *** The dispatch table as the specification words it

    The master's [xml_value_type] is compared as stored, the numeric test
    is "a real number with no separators", a code lookup needs a non-empty
    [result_code_oid] as stored.  Error texts are not part of the table. *)
Inductive verdict :=
  | Stored (v : string)
  | Failed.

Definition verdict_of (a : action) : verdict :=
  match a with UpdateOk v => Stored v | UpdateError _ => Failed end.





End Normalize.

(** ** Candidate lists: trim, drop empties, keep first occurrences

    [get_password_candidates] and [extract_zip_to_temp] run the same loop
    over their inputs: [pw2 = (pw or "").strip()], skip when empty, skip
    when already in [seen], else remember and append. *)

Module Candidates.
Import PyStr.

Definition step (acc : gset string * list string) (pw : option string)
  : gset string * list string :=
  let '(seen, out) := acc in
  let pw2 := strip (or_empty pw) in
  if negb (nonempty pw2) then acc
  else if bool_decide (pw2 ∈ seen) then acc
  else ({[pw2]} ∪ seen, out ++ [pw2]).

Definition trim_dedup (pws : list (option string)) : list string :=
  (foldl step (∅, []) pws).2.

(** The candidate a raw entry stands for. *)
Definition norm (pw : option string) : string := strip (or_empty pw).

(** The loop as a recursion on its input, [seen] carried along. *)
Fixpoint keep_first (seen : gset string) (pws : list (option string)) : list string :=
  match pws with
  | [] => []
  | pw :: rest =>
      if negb (nonempty (norm pw)) || bool_decide (norm pw ∈ seen)
      then keep_first seen rest
      else norm pw :: keep_first ({[norm pw]} ∪ seen) rest
  end.

End Candidates.

(** ** Component K: the password resolver ([kenshin_lib/medi/zip_passwords.py]) *)

Module Passwords.
Import PyStr.

(** A row of [medi_zip_passwords]. *)
Record zip_password := {
  zip_password_id : Z;
  scope_type : string;
  p_zip_sha256 : option string;
  p_zip_name : option string;
  p_facility_code : option string;
  p_facility_folder_name : option string;
  password_text : option string;
  priority : Z;
  is_active : Z
}.

(** The [WHERE] clause. *)
Definition matches (facility_code facility_folder_name zip_name zip_sha256 : string)
    (r : zip_password) : Prop :=
  is_active r = 1 /\
  ((scope_type r = "ZIP_SHA256" /\ p_zip_sha256 r = Some zip_sha256) \/
   (scope_type r = "ZIP_NAME" /\ p_zip_name r = Some zip_name) \/
   (scope_type r = "FACILITY" /\
      (p_facility_code r = Some facility_code \/
       p_facility_folder_name r = Some facility_folder_name))).

#[global] Instance matches_dec fc ffn zn zs r : Decision (matches fc ffn zn zs r).
Proof. unfold matches. apply _. Defined.

(** The [CASE scope_type ... END] of the [ORDER BY]. *)
Definition scope_rank (s : string) : Z :=
  if bool_decide (s = "ZIP_SHA256") then 10
  else if bool_decide (s = "ZIP_NAME") then 20
  else if bool_decide (s = "FACILITY") then 30
  else 99.

Definition order_key (r : zip_password) : list Z :=
  [scope_rank (scope_type r); priority r; zip_password_id r].

Definition select_rows (table : list zip_password)
    (facility_code facility_folder_name zip_name zip_sha256 : string) : list zip_password :=
  Sql.order_by order_key
    (filter (matches facility_code facility_folder_name zip_name zip_sha256) table).

Definition get_password_candidates (table : list zip_password)
    (facility_code facility_folder_name zip_name zip_sha256 : string) : list string :=
  Candidates.trim_dedup
    (password_text <$> select_rows table facility_code facility_folder_name zip_name zip_sha256).

(** The resolver as the specification words it: the matching active
    texts themselves, empty ones left out, first occurrences kept. *)
Definition stated_candidates (table : list zip_password)
    (facility_code facility_folder_name zip_name zip_sha256 : string) : list string :=
  let texts := (fun r => or_empty (password_text r)) <$>
                 select_rows table facility_code facility_folder_name zip_name zip_sha256 in
  foldl (fun out t => if bool_decide (t = "") || bool_decide (t ∈ out) then out else out ++ [t])
        [] texts.

End Passwords.

(** ** ZIP extraction with password candidates ([kenshin_lib/medi/zip_extract.py]) *)

Module ZipExtract.
Import PyStr.

(** What one [zf.extractall(temp_dir, pwd=...)] does: it returns, or it
    raises; the text is [str(e)]. *)
Inductive attempt :=
  | Extracted
  | RaiseRuntimeError (msg : string)
  | RaiseFileNotFoundError (msg : string)
  | RaiseBadZipFile (msg : string)
  | RaiseOther (msg : string).

(** A file of an extracted directory, by what the import reads of it:
    the hash of its content, or the text of the exception when
    [sha256_file] raises; its size and modification time, or the text of
    the exception when [stat] raises; and the text of the exception when
    [ET.parse] raises.  [extractall] writes the file anew in every run and
    does not restore the time kept in the archive, so the modification
    time is that of the extraction: it is given by the clock of the run. *)
Record file_info := {
  content_sha256 : string;
  hash_error : option string;
  st_size : Z;
  st_mtime : Z -> string;
  stat_error : option string;
  parse_error : option string
}.

Inductive node :=
  | File (name : string) (info : file_info)
  | Dir (name : string) (children : list node).

(** An opened archive: whether some member carries the encryption flag,
    what an extraction attempt with a given password does, and the
    directory a successful extraction leaves. *)
Record zip_archive := {
  encrypted : bool;
  extractall : option string -> attempt;
  content : list node
}.

(** [zipfile.ZipFile(zip_path, "r")] *)
Inductive opened :=
  | Opened (zf : zip_archive)
  | OpenBadZipFile (msg : string)
  | OpenFileNotFoundError (msg : string)
  | OpenOther (msg : string).

Record ZipExtractResult := {
  ok : bool;
  error_code : option string;
  message : option string;
  used_password_text : option string
}.

Definition result_ok (used : option string) : ZipExtractResult :=
  {| ok := true; error_code := None; message := None; used_password_text := used |}.

Definition result_error (code msg : string) : ZipExtractResult :=
  {| ok := false; error_code := Some code; message := Some msg;
     used_password_text := None |}.

(** [s[:n]] *)
Definition clip (n : nat) (s : string) : string := String.substring 0 n s.

(** The candidates the loop tries, the no-password attempt last. *)
Definition candidates (pwd_candidates : list string) : list (option string) :=
  (Some <$> Candidates.trim_dedup (Some <$> pwd_candidates)) ++ [None].

(** The [for pw_text in candidates] loop with its two remembered values. *)
Fixpoint try_candidates (zf : zip_archive) (cands : list (option string))
    (last_err : option string) (last_runtime_msg : string) : ZipExtractResult :=
  match cands with
  | [] =>
      let msg :=
        match last_err with
        | Some e => clip 2000 e
        | None =>
            if nonempty last_runtime_msg then clip 2000 last_runtime_msg
            else "encrypted zip: password required"
        end in
      result_error "ZIP_PASSWORD" msg
  | pw_text :: rest =>
      match extractall zf pw_text with
      | Extracted => result_ok pw_text
      | RaiseRuntimeError msg =>
          let m := lower msg in
          if contains "bad password" m then try_candidates zf rest (Some msg) msg
          else if contains "password required" m || contains "encrypted" m
          then try_candidates zf rest (Some msg) msg
          else try_candidates zf rest (Some msg) msg
      | RaiseFileNotFoundError msg => result_error "ZIP_LONG_PATH" (clip 2000 msg)
      | RaiseBadZipFile msg => try_candidates zf rest (Some msg) last_runtime_msg
      | RaiseOther msg => try_candidates zf rest (Some msg) last_runtime_msg
      end
  end.

Definition extract_zip_to_temp (z : opened) (pwd_candidates : list string)
  : ZipExtractResult :=
  match z with
  | Opened zf =>
      if negb (encrypted zf) then
        match extractall zf None with
        | Extracted => result_ok None
        | RaiseBadZipFile msg => result_error "ZIP_UNEXPECTED" ("File is not a zip file: " +:+ msg)
        | RaiseFileNotFoundError msg => result_error "ZIP_LONG_PATH" (clip 2000 msg)
        | RaiseRuntimeError msg | RaiseOther msg => result_error "ZIP_UNEXPECTED" (clip 2000 msg)
        end
      else try_candidates zf (candidates pwd_candidates) None ""
  | OpenBadZipFile msg => result_error "ZIP_UNEXPECTED" ("File is not a zip file: " +:+ msg)
  | OpenFileNotFoundError msg => result_error "ZIP_LONG_PATH" (clip 2000 msg)
  | OpenOther msg => result_error "ZIP_UNEXPECTED" (clip 2000 msg)
  end.

(** An attempt after which the loop goes on to the next candidate. *)
Definition moves_on (a : attempt) : Prop :=
  match a with
  | RaiseRuntimeError _ | RaiseBadZipFile _ | RaiseOther _ => True
  | Extracted | RaiseFileNotFoundError _ => False
  end.

#[global] Instance moves_on_dec a : Decision (moves_on a).
Proof. destruct a; simpl; apply _. Defined.

(** [str(e)] of the exception an attempt raised. *)
Definition error_text (a : attempt) : string :=
  match a with
  | Extracted => ""
  | RaiseRuntimeError msg | RaiseFileNotFoundError msg
  | RaiseBadZipFile msg | RaiseOther msg => msg
  end.

End ZipExtract.

(** ** Stage F: ZIP-Import ([scripts/medi_zip_import.py], [kenshin_lib/medi/db_medi.py]) *)

Module ZipImport.
Import PyStr ZipExtract.

(** *** The extracted directory *)

(** A path below the scratch directory, as its components. *)
Definition path := list string.

(** [str(p)] relative to the scratch directory, components joined by the
    POSIX separator. *)
Definition path_str (p : path) : string := String.concat "/" p.

(** [root.rglob("*")]: every entry below a directory, with its path. *)
Fixpoint walk_node (prefix : path) (n : node) {struct n} : list (path * node) :=
  match n with
  | File name _ => [(prefix ++ [name], n)]
  | Dir name children =>
      (prefix ++ [name], n) :: flat_map (walk_node (prefix ++ [name])) children
  end.

Definition walk (prefix : path) (ns : list node) : list (path * node) :=
  flat_map (walk_node prefix) ns.

Definition is_file (e : path * node) : bool :=
  match e.2 with File _ _ => true | Dir _ _ => false end.

Definition endswith (suffix s : string) : bool :=
  String.prefix (String.rev suffix) (String.rev s).

(** The pattern ["*.xml"] against a file name, letter case respected. *)
Definition glob_xml (name : string) : bool := endswith ".xml" name.

Definition is_xml_file (e : path * node) : bool :=
  match e.2 with File name _ => glob_xml name | Dir _ _ => false end.

Definition is_data_dir (e : path * node) : bool :=
  match e.2 with Dir name _ => bool_decide (name = "DATA") | File _ _ => false end.

(** [xs.sort(key=lambda x: str(x))] *)
Definition by_str : relation (path * node) :=
  fun a b => String.leb (path_str a.1) (path_str b.1) = true.

(** [data_dirs.sort(key=lambda x: (len(x.parts), str(x)))] *)
Definition by_depth_str : relation (path * node) :=
  fun a b => (length a.1 < length b.1)%nat \/
             (length a.1 = length b.1 /\ String.leb (path_str a.1) (path_str b.1) = true).

#[global] Instance by_str_dec : RelDecision by_str.
Proof. intros a b. unfold by_str. apply _. Defined.

#[global] Instance by_depth_str_dec : RelDecision by_depth_str.
Proof. intros a b. unfold by_depth_str. apply _. Defined.

Definition zip_has_any_file (root : list node) : bool :=
  existsb is_file (walk [] root).

Definition find_data_dirs (root : list node) : list (path * node) :=
  merge_sort by_depth_str (filter (fun e => is_data_dir e = true) (walk [] root)).

Definition list_xml_files_anywhere (root : list node) : list (path * node) :=
  merge_sort by_str (filter (fun e => is_xml_file e = true) (walk [] root)).

(** [d.rglob("*.xml")] for one directory entry. *)
Definition xml_below (d : path * node) : list (path * node) :=
  match d.2 with
  | Dir _ children => filter (fun e => is_xml_file e = true) (walk d.1 children)
  | File _ _ => []
  end.

Definition list_xml_files_under_data_dirs (data_dirs : list (path * node))
  : list (path * node) :=
  merge_sort by_str (flat_map xml_below data_dirs).

(** *** Structure classification (step 2 of the per-ZIP body) *)

(** The entries of [messages]; the texts are fixed sentences, kept here
    by what they report. *)
Inductive note :=
  | NoteExtractFailed (code : string)
  | NoteDetail (text : string)
  | NoteEmptyContent
  | NoteMultiDataCount (count : nat)
  | NoteMultiDataSample (sample : list string)
  | NoteNoDataDir
  | NoteDataDirHasNoXml
  | NoteNoXmlInZip.

Record structure := {
  s_status : string;
  s_error_code : option string;
  s_messages : list note;
  s_data_dir_count : option Z;
  s_data_xml_count : option Z
}.

(** The XML files the stage takes from an extracted directory. *)
Definition collect_xml (root : list node) : list (path * node) :=
  let data_dirs := find_data_dirs root in
  if bool_decide (1 <= length data_dirs)%nat
  then list_xml_files_under_data_dirs data_dirs
  else list_xml_files_anywhere root.

Definition classify (root : list node) : structure :=
  if negb (zip_has_any_file root) then
    {| s_status := "ERROR"; s_error_code := Some "ZIP_EMPTY_CONTENT";
       s_messages := [NoteEmptyContent];
       s_data_dir_count := Some 0; s_data_xml_count := Some 0 |}
  else
    let data_dirs := find_data_dirs root in
    let data_dir_count := length data_dirs in
    let '(xml_files, error_code, messages) :=
      if bool_decide (1 <= data_dir_count)%nat then
        let xml_files := list_xml_files_under_data_dirs data_dirs in
        if bool_decide (2 <= data_dir_count)%nat then
          (xml_files, Some "STRUCT_MULTI_DATA_DIR",
           [NoteMultiDataCount data_dir_count;
            NoteMultiDataSample ((fun d => path_str d.1) <$> take 5 data_dirs)])
        else (xml_files, None, [])
      else
        (list_xml_files_anywhere root, Some "STRUCT_NO_DATA_DIR", [NoteNoDataDir]) in
    let data_xml_count := length xml_files in
    if bool_decide (0 < data_xml_count)%nat then
      {| s_status := "OK"; s_error_code := error_code; s_messages := messages;
         s_data_dir_count := Some (Z.of_nat data_dir_count);
         s_data_xml_count := Some (Z.of_nat data_xml_count) |}
    else if bool_decide (data_dir_count = 1%nat) then
      {| s_status := "ERROR"; s_error_code := Some "STRUCT_ZERO_XML";
         s_messages := messages ++ [NoteDataDirHasNoXml];
         s_data_dir_count := Some (Z.of_nat data_dir_count);
         s_data_xml_count := Some (Z.of_nat data_xml_count) |}
    else
      {| s_status := "ERROR";
         s_error_code := Some (default "STRUCT_ZERO_XML" error_code);
         s_messages := messages ++ [NoteNoXmlInZip];
         s_data_dir_count := Some (Z.of_nat data_dir_count);
         s_data_xml_count := Some (Z.of_nat data_xml_count) |}.

(** Step 1 and step 2 together: what the receipt will say. *)
Definition structure_of (ext_res : ZipExtractResult) (root : list node) : structure * option string :=
  if negb (ok ext_res) then
    let error_code := if truthy (error_code ext_res)
                      then or_empty (error_code ext_res) else "ZIP_UNEXPECTED" in
    let msg := clip 2000 (or_empty (message ext_res)) in
    let error_message := if nonempty msg then Some msg else None in
    ({| s_status := "ERROR"; s_error_code := Some error_code;
        s_messages := NoteExtractFailed error_code ::
                      match error_message with Some m => [NoteDetail m] | None => [] end;
        s_data_dir_count := None; s_data_xml_count := None |}, error_message)
  else (classify root, None).

(** The fall-through the specification words for a ZIP that extracted: an
    empty extraction is [ZIP_EMPTY_CONTENT], a positive XML count is [OK],
    and every other case is [ERROR] with [STRUCT_ZERO_XML]. *)
Definition stated_error_code (root : list node) : option string :=
  if negb (zip_has_any_file root) then Some "ZIP_EMPTY_CONTENT"
  else if bool_decide (0 < length (collect_xml root))%nat then
    (if bool_decide (2 <= length (find_data_dirs root))%nat then Some "STRUCT_MULTI_DATA_DIR"
     else if bool_decide (length (find_data_dirs root) = 0%nat) then Some "STRUCT_NO_DATA_DIR"
     else None)
  else Some "STRUCT_ZERO_XML".

End ZipImport.

(** *** The receipt tables and their writers ([kenshin_lib/medi/db_medi.py]) *)

Module DbMedi.
Import PyStr.

(** What the deployment fixes: the hash function and which optional
    columns the database has ([db_has_column]). *)
Record env := {
  sha256_text : string -> string;
  zip_receipts_has_error_message : bool;
  zip_receipt_runs_has_message : bool;
  xml_receipts_has_inner_sha : bool;
  xml_receipt_runs_has_receipt_id : bool
}.

(** A clock reading ([CURRENT_TIMESTAMP(6)], [now_str()]). *)
Definition timestamp := Z.

Record import_run := {
  started_at : timestamp;
  finished_at : option timestamp;
  input_root : string;
  run_note : option string
}.

Record zip_receipt := {
  zip_receipt_id : Z;
  zr_run_id : Z;
  zr_first_seen_run_id : Z;
  zr_first_seen_at : timestamp;
  zr_last_seen_run_id : Z;
  zr_last_seen_at : timestamp;
  facility_folder_name : string;
  facility_code : string;
  facility_name : string;
  zip_name : string;
  zip_path : string;
  zip_sha256 : string;
  structure_status : string;
  zr_error_code : option string;
  zr_error_message : option string;
  structure_message : list ZipImport.note;
  data_dir_count : option Z;
  data_xml_count : option Z
}.

Record zip_receipt_run := {
  zrr_run_id : Z;
  zrr_zip_receipt_id : Z;
  zrr_zip_sha256 : string;
  zrr_action : string;
  zrr_message : option string;
  zrr_seen_at : timestamp
}.

Record xml_receipt := {
  xml_receipt_id : Z;
  xr_zip_sha256 : string;
  zip_inner_path : string;
  zip_inner_path_sha256 : option string;
  xml_sha256 : string;
  file_size : option Z;
  file_mtime : option string;
  status : string;
  xr_error_code : option string;
  xr_error_message : option string;
  xr_facility_code : option string;
  xr_facility_name : option string;
  xr_first_seen_run_id : Z;
  xr_first_seen_at : timestamp;
  xr_last_seen_run_id : Z;
  xr_last_seen_at : timestamp;
  document_id : option string;
  extracted_run_id : option Z;
  items_extract_status : option string;
  items_extracted_run_id : option Z
}.

Record xml_receipt_run := {
  xrr_run_id : Z;
  xrr_xml_sha256 : string;
  xrr_xml_receipt_id : option Z;
  xrr_action : string;
  xrr_message : option string;
  xrr_created_at : timestamp
}.

(** The tables stage F reads and writes.

    Modelled from the spec: the DDL is not among the sources.  The unique
    keys are the ones section 6 of the specification lists and the
    [ON DUPLICATE KEY UPDATE] clauses leave untouched: [zip_sha256] for
    [zip_receipts], [xml_sha256] for [xml_receipts], and the pair
    [(run_id, sha256)] for the two [*_receipt_runs] tables.  Primary keys
    are [AUTO_INCREMENT] counters. *)
Record db := {
  next_run_id : Z;
  import_runs : gmap Z import_run;
  next_zip_receipt_id : Z;
  zip_receipts : gmap string zip_receipt;
  zip_receipt_runs : gmap (Z * string) zip_receipt_run;
  next_xml_receipt_id : Z;
  xml_receipts : gmap string xml_receipt;
  xml_receipt_runs : gmap (Z * string) xml_receipt_run;
  zip_passwords : list Passwords.zip_password
}.

Definition set_import_runs (next : Z) (t : gmap Z import_run) (d : db) : db :=
  {| next_run_id := next; import_runs := t;
     next_zip_receipt_id := next_zip_receipt_id d; zip_receipts := zip_receipts d;
     zip_receipt_runs := zip_receipt_runs d;
     next_xml_receipt_id := next_xml_receipt_id d; xml_receipts := xml_receipts d;
     xml_receipt_runs := xml_receipt_runs d; zip_passwords := zip_passwords d |}.

Definition set_zip_receipts (next : Z) (t : gmap string zip_receipt) (d : db) : db :=
  {| next_run_id := next_run_id d; import_runs := import_runs d;
     next_zip_receipt_id := next; zip_receipts := t;
     zip_receipt_runs := zip_receipt_runs d;
     next_xml_receipt_id := next_xml_receipt_id d; xml_receipts := xml_receipts d;
     xml_receipt_runs := xml_receipt_runs d; zip_passwords := zip_passwords d |}.

Definition set_zip_receipt_runs (t : gmap (Z * string) zip_receipt_run) (d : db) : db :=
  {| next_run_id := next_run_id d; import_runs := import_runs d;
     next_zip_receipt_id := next_zip_receipt_id d; zip_receipts := zip_receipts d;
     zip_receipt_runs := t;
     next_xml_receipt_id := next_xml_receipt_id d; xml_receipts := xml_receipts d;
     xml_receipt_runs := xml_receipt_runs d; zip_passwords := zip_passwords d |}.

Definition set_xml_receipts (next : Z) (t : gmap string xml_receipt) (d : db) : db :=
  {| next_run_id := next_run_id d; import_runs := import_runs d;
     next_zip_receipt_id := next_zip_receipt_id d; zip_receipts := zip_receipts d;
     zip_receipt_runs := zip_receipt_runs d;
     next_xml_receipt_id := next; xml_receipts := t;
     xml_receipt_runs := xml_receipt_runs d; zip_passwords := zip_passwords d |}.

Definition set_xml_receipt_runs (t : gmap (Z * string) xml_receipt_run) (d : db) : db :=
  {| next_run_id := next_run_id d; import_runs := import_runs d;
     next_zip_receipt_id := next_zip_receipt_id d; zip_receipts := zip_receipts d;
     zip_receipt_runs := zip_receipt_runs d;
     next_xml_receipt_id := next_xml_receipt_id d; xml_receipts := xml_receipts d;
     xml_receipt_runs := t; zip_passwords := zip_passwords d |}.

(** [t[:limit] if len(t) > limit else t] *)
Definition _clip_text (s : option string) (limit : nat) : option string :=
  ZipExtract.clip limit <$> s.

Definition replace_char (a b : ascii) : string -> string :=
  map_chars (fun c => if Ascii.eqb c a then b else c).

Fixpoint lstrip_char (a : ascii) (s : string) : string :=
  match s with
  | String c s' => if Ascii.eqb c a then lstrip_char a s' else s
  | EmptyString => EmptyString
  end.

(** [(p or "").replace("\\", "/").lstrip("/")] *)
Definition _norm_inner_path (p : string) : string :=
  lstrip_char "/" (replace_char "\" "/" p).

Definition _ensure_inner_sha (E : env) (inner_path : string) (inner_sha : option string)
  : string :=
  let inner := _norm_inner_path inner_path in
  let v := strip (or_empty inner_sha) in
  if nonempty v then v else sha256_text E inner.

(** [INSERT INTO medi_import_runs]: the new [run_id]. *)
Definition db_insert_run (now : timestamp) (root : string) (note : option string) (d : db)
  : db * Z :=
  let id := next_run_id d in
  (set_import_runs (id + 1)
     (<[id := {| started_at := now; finished_at := None;
                 input_root := root; run_note := note |}]> (import_runs d)) d, id).

Definition db_finish_run (now : timestamp) (run_id : Z) (note : option string) (d : db) : db :=
  set_import_runs (next_run_id d)
    (alter (fun r => {| started_at := started_at r; finished_at := Some now;
                        input_root := input_root r; run_note := note |})
           run_id (import_runs d)) d.

Definition db_get_zip_receipt_id_by_sha (d : db) (sha : string) : option Z :=
  zip_receipt_id <$> zip_receipts d !! sha.

(** [INSERT INTO medi_zip_receipts ... ON DUPLICATE KEY UPDATE ...
    zip_receipt_id=LAST_INSERT_ID(zip_receipt_id)]: the row's id, new or
    old.  A column the database lacks stays [None]. *)
Definition db_upsert_zip_receipt (E : env) (now : timestamp) (run_id : Z)
    (folder fcode fname zname zpath zsha : string)
    (st : string) (ecode : option string) (smsg : list ZipImport.note)
    (ddc dxc : option Z) (emsg : option string) (d : db) : db * Z :=
  let emsg := if zip_receipts_has_error_message E then _clip_text emsg 8000 else None in
  match zip_receipts d !! zsha with
  | None =>
      let id := next_zip_receipt_id d in
      let row :=
        {| zip_receipt_id := id; zr_run_id := run_id;
           zr_first_seen_run_id := run_id; zr_first_seen_at := now;
           zr_last_seen_run_id := run_id; zr_last_seen_at := now;
           facility_folder_name := folder; facility_code := fcode;
           facility_name := fname; zip_name := zname; zip_path := zpath;
           zip_sha256 := zsha; structure_status := st;
           zr_error_code := ecode; zr_error_message := emsg;
           structure_message := smsg;
           data_dir_count := ddc; data_xml_count := dxc |} in
      (set_zip_receipts (id + 1) (<[zsha := row]> (zip_receipts d)) d, id)
  | Some old =>
      let row :=
        {| zip_receipt_id := zip_receipt_id old; zr_run_id := run_id;
           zr_first_seen_run_id := zr_first_seen_run_id old;
           zr_first_seen_at := zr_first_seen_at old;
           zr_last_seen_run_id := run_id; zr_last_seen_at := now;
           facility_folder_name := folder; facility_code := fcode;
           facility_name := fname; zip_name := zname; zip_path := zpath;
           zip_sha256 := zip_sha256 old; structure_status := st;
           zr_error_code := ecode; zr_error_message := emsg;
           structure_message := smsg;
           data_dir_count := ddc; data_xml_count := dxc |} in
      (set_zip_receipts (next_zip_receipt_id d) (<[zsha := row]> (zip_receipts d)) d,
       zip_receipt_id old)
  end.

(** [INSERT INTO medi_zip_receipt_runs ... ON DUPLICATE KEY UPDATE]: both
    branches end in the same row for the key [(run_id, zip_sha256)]. *)
Definition db_insert_zip_receipt_run (E : env) (now : timestamp) (run_id receipt_id : Z)
    (zsha action : string) (message : option string) (d : db) : db :=
  let row :=
    {| zrr_run_id := run_id; zrr_zip_receipt_id := receipt_id;
       zrr_zip_sha256 := zsha; zrr_action := action;
       zrr_message :=
         if zip_receipt_runs_has_message E then _clip_text message 4000 else None;
       zrr_seen_at := now |} in
  set_zip_receipt_runs (<[(run_id, zsha) := row]> (zip_receipt_runs d)) d.

Definition db_get_xml_receipt_id_by_sha (d : db) (sha : string) : option Z :=
  xml_receipt_id <$> xml_receipts d !! sha.

(** The values one [db_upsert_xml_receipt] call binds. *)
Record xml_request := {
  q_zip_sha256 : string;
  q_zip_inner_path : string;
  q_xml_sha256 : string;
  q_file_size : option Z;
  q_file_mtime : option string;
  q_status : string;
  q_error_code : option string;
  q_error_message : option string;
  q_facility_code : option string;
  q_facility_name : option string;
  q_zip_inner_path_sha256 : option string
}.

(** [INSERT INTO medi_xml_receipts ... ON DUPLICATE KEY UPDATE ...] on the
    table and its counter: the update list names neither [zip_sha256] nor
    [zip_inner_path], and ends in [xml_receipt_id=LAST_INSERT_ID(...)]. *)
Definition upsert_xml_row (E : env) (now : timestamp) (run_id : Z) (q : xml_request)
    (t : gmap string xml_receipt * Z) : gmap string xml_receipt * Z * Z :=
  let zip_inner_path_norm := _norm_inner_path (q_zip_inner_path q) in
  let inner_sha_safe :=
    if xml_receipts_has_inner_sha E
    then Some (_ensure_inner_sha E zip_inner_path_norm (q_zip_inner_path_sha256 q))
    else None in
  match t.1 !! q_xml_sha256 q with
  | None =>
      let id := t.2 in
      let row :=
        {| xml_receipt_id := id; xr_zip_sha256 := q_zip_sha256 q;
           zip_inner_path := zip_inner_path_norm;
           zip_inner_path_sha256 := inner_sha_safe;
           xml_sha256 := q_xml_sha256 q;
           file_size := q_file_size q; file_mtime := q_file_mtime q;
           status := q_status q; xr_error_code := q_error_code q;
           xr_error_message := _clip_text (q_error_message q) 8000;
           xr_facility_code := q_facility_code q; xr_facility_name := q_facility_name q;
           xr_first_seen_run_id := run_id; xr_first_seen_at := now;
           xr_last_seen_run_id := run_id; xr_last_seen_at := now;
           document_id := None; extracted_run_id := None;
           items_extract_status := None; items_extracted_run_id := None |} in
      (<[q_xml_sha256 q := row]> t.1, id + 1, id)
  | Some old =>
      let row :=
        {| xml_receipt_id := xml_receipt_id old; xr_zip_sha256 := xr_zip_sha256 old;
           zip_inner_path := zip_inner_path old;
           zip_inner_path_sha256 := inner_sha_safe;
           xml_sha256 := xml_sha256 old;
           file_size := q_file_size q; file_mtime := q_file_mtime q;
           status := q_status q; xr_error_code := q_error_code q;
           xr_error_message := _clip_text (q_error_message q) 8000;
           xr_facility_code := q_facility_code q; xr_facility_name := q_facility_name q;
           xr_first_seen_run_id := xr_first_seen_run_id old;
           xr_first_seen_at := xr_first_seen_at old;
           xr_last_seen_run_id := run_id; xr_last_seen_at := now;
           document_id := document_id old; extracted_run_id := extracted_run_id old;
           items_extract_status := items_extract_status old;
           items_extracted_run_id := items_extracted_run_id old |} in
      (<[q_xml_sha256 q := row]> t.1, t.2, xml_receipt_id old)
  end.

Definition db_upsert_xml_receipt (E : env) (now : timestamp) (run_id : Z)
    (q : xml_request) (d : db) : db * Z :=
  let '(t, next, id) :=
    upsert_xml_row E now run_id q (xml_receipts d, next_xml_receipt_id d) in
  (set_xml_receipts next t d, id).

Definition db_insert_xml_receipt_run (E : env) (now : timestamp) (run_id : Z)
    (xsha action : string) (message : option string) (d : db) : db :=
  let receipt_id :=
    if xml_receipt_runs_has_receipt_id E
    then db_get_xml_receipt_id_by_sha d xsha else None in
  let row :=
    {| xrr_run_id := run_id; xrr_xml_sha256 := xsha;
       xrr_xml_receipt_id := receipt_id; xrr_action := action;
       xrr_message := _clip_text message 4000; xrr_created_at := now |} in
  set_xml_receipt_runs (<[(run_id, xsha) := row]> (xml_receipt_runs d)) d.

End DbMedi.

(** *** The stage itself ([zip_import_phase] and [main] in mode [ZIP_IMPORT]) *)

Module ZipImportPhase.
Import PyStr ZipExtract ZipImport DbMedi.

(** A [*.zip] file of a facility folder: its name, its resolved path, its
    content hash ([None] when hashing the file raised) and what opening it
    gives. *)
Record zip_file := {
  zf_name : string;
  zf_abs : string;
  zf_sha256 : option string;
  zf_open : opened
}.

(** A facility folder below the input root with its ZIP files in sorted
    order ([iter_zip_files]). *)
Record facility_dir := {
  fd_name : string;
  fd_zips : list zip_file
}.

(** [s.split("_", 1)] when ["_" in s] *)
Fixpoint split_once (sep : ascii) (s : string) : option (string * string) :=
  match s with
  | EmptyString => None
  | String c s' =>
      if Ascii.eqb c sep then Some (EmptyString, s')
      else (fun '(a, b) => (String c a, b)) <$> split_once sep s'
  end.

Definition parse_facility_folder_name (folder_name : string) : string * string :=
  match split_once "_" folder_name with
  | Some (code, name) => (strip code, strip name)
  | None => (strip folder_name, "")
  end.

(** The exception the [try] block of [process_xmls_in_zip] ends with for
    a file, if any: the one of [sha256_file], else the one of [stat].  The
    statements on the database are taken to succeed. *)
Definition read_error (info : file_info) : option string :=
  match hash_error info with
  | Some e => Some e
  | None => stat_error info
  end.

(** [xml_sha] as the handler finds it: the hash when [sha256_file]
    returned, [""] otherwise. *)
Definition hashed_so_far (info : file_info) : string :=
  match hash_error info with
  | Some _ => ""
  | None => content_sha256 info
  end.

(** ["0" * 64] *)
Definition zero_sha : string :=
  "0000000000000000000000000000000000000000000000000000000000000000".

(** What [process_xmls_in_zip] hands to [db_upsert_xml_receipt] for one
    file.  Without an exception: the inner path, the two hashes, the
    file's [stat], and [PENDING] or the parse error.  In the handler of an
    exception: no size and no time, [ERROR] with [XML_IMPORT], under the
    hash if there is one and under sixty-four zeros otherwise. *)
Definition request_of (E : env) (now : timestamp) (zsha fcode fname : string)
    (do_wellformed_check : bool) (p : path) (info : file_info) : xml_request :=
  let inner := replace_char "\" "/" (path_str p) in
  match read_error info with
  | Some e =>
      let xml_sha := hashed_so_far info in
      {| q_zip_sha256 := zsha; q_zip_inner_path := inner;
         q_xml_sha256 := if nonempty xml_sha then xml_sha else zero_sha;
         q_file_size := None; q_file_mtime := None;
         q_status := "ERROR"; q_error_code := Some "XML_IMPORT";
         q_error_message := Some ("unexpected error: " +:+ e);
         q_facility_code := Some fcode; q_facility_name := Some fname;
         q_zip_inner_path_sha256 := Some (sha256_text E inner) |}
  | None =>
      let '(st, ecode, emsg) :=
        match (if do_wellformed_check then parse_error info else None) with
        | Some e => ("ERROR", Some "XML_PARSE", Some (clip 1000 e))
        | None => ("PENDING", None, None)
        end in
      {| q_zip_sha256 := zsha; q_zip_inner_path := inner;
         q_xml_sha256 := content_sha256 info;
         q_file_size := Some (st_size info); q_file_mtime := Some (st_mtime info now);
         q_status := st; q_error_code := ecode; q_error_message := emsg;
         q_facility_code := Some fcode; q_facility_name := Some fname;
         q_zip_inner_path_sha256 := Some (sha256_text E inner) |}
  end.

(** The body of the loop of [process_xmls_in_zip] for one file: one upsert
    of the receipt and one row of [medi_xml_receipt_runs], from the [try]
    block or from its handler. *)
Definition process_xml (E : env) (now : timestamp) (run_id : Z) (zsha : string)
    (fcode fname : string) (do_wellformed_check : bool)
    (d : db) (xf : path * node) : db :=
  match xf.2 with
  | Dir _ _ => d
  | File _ info =>
      let q := request_of E now zsha fcode fname do_wellformed_check xf.1 info in
      let d1 := (db_upsert_xml_receipt E now run_id q d).1 in
      match read_error info with
      | Some e =>
          db_insert_xml_receipt_run E now run_id (q_xml_sha256 q) "SEEN"
            (Some ("XML_IMPORT:" +:+ e)) d1
      | None =>
          let existed_id := db_get_xml_receipt_id_by_sha d (q_xml_sha256 q) in
          let action := if existed_id is None then "NEW" else "SEEN" in
          let msg :=
            if bool_decide (q_status q = "ERROR") then
              Some (if truthy (q_error_code q)
                    then or_empty (q_error_code q) +:+ ":" +:+ or_empty (q_error_message q)
                    else if truthy (q_error_message q) then or_empty (q_error_message q)
                    else "error")
            else None in
          db_insert_xml_receipt_run E now run_id (q_xml_sha256 q) action msg d1
      end
  end.

Definition process_xmls_in_zip (E : env) (now : timestamp) (run_id : Z) (zsha : string)
    (root : list node) (fcode fname : string) (do_wellformed_check : bool) (d : db) : db :=
  foldl (process_xml E now run_id zsha fcode fname do_wellformed_check) d (collect_xml root).

(** The directory the extraction leaves in the scratch area. *)
Definition extracted_root (z : opened) : list node :=
  match z with Opened zf => content zf | _ => [] end.

(** The body of the per-ZIP loop of [zip_import_phase], for a file whose
    hash could be computed. *)
Definition import_zip (E : env) (now : timestamp) (run_id : Z)
    (xml_enabled xml_wellformed : bool) (folder : string)
    (z : zip_file) (zsha : string) (d : db) : db :=
  let '(fcode, fname) := parse_facility_folder_name folder in
  let existed_id := db_get_zip_receipt_id_by_sha d zsha in
  let action := if existed_id is None then "NEW" else "SEEN" in
  let pwd_candidates :=
    Passwords.get_password_candidates (zip_passwords d) fcode folder (zf_name z) zsha in
  let ext_res := extract_zip_to_temp (zf_open z) pwd_candidates in
  let root := extracted_root (zf_open z) in
  let '(s, error_message) := structure_of ext_res root in
  let '(d1, receipt_id) :=
    db_upsert_zip_receipt E now run_id folder fcode fname (zf_name z) (zf_abs z) zsha
      (s_status s) (s_error_code s) (s_messages s)
      (s_data_dir_count s) (s_data_xml_count s) error_message d in
  let d2 := db_insert_zip_receipt_run E now run_id receipt_id zsha action None d1 in
  if xml_enabled && bool_decide (s_status s = "OK")
  then process_xmls_in_zip E now run_id zsha root fcode fname xml_wellformed d2
  else d2.

Definition import_zip_file (E : env) (now : timestamp) (run_id : Z)
    (xml_enabled xml_wellformed : bool) (folder : string) (d : db) (z : zip_file) : db :=
  match zf_sha256 z with
  | None => d
  | Some zsha => import_zip E now run_id xml_enabled xml_wellformed folder z zsha d
  end.

Definition import_facility (E : env) (now : timestamp) (run_id : Z)
    (xml_enabled xml_wellformed : bool) (d : db) (f : facility_dir) : db :=
  foldl (import_zip_file E now run_id xml_enabled xml_wellformed (fd_name f)) d (fd_zips f).

Definition zip_import_phase (E : env) (now : timestamp) (run_id : Z)
    (xml_enabled xml_wellformed : bool) (facility_dirs : list facility_dir) (d : db) : db :=
  foldl (import_facility E now run_id xml_enabled xml_wellformed) d facility_dirs.

(** [main] with [MEDI_IMPORT_MODE=ZIP_IMPORT]: open a run, import, close
    the run.  Counters, log lines and the summary text of the note are
    left out. *)
Definition main_zip_import (E : env) (now : timestamp) (input_root : string)
    (note_prefix : option string) (xml_enabled xml_wellformed : bool)
    (facility_dirs : list facility_dir) (d : db) : db * Z :=
  let '(d1, run_id) := db_insert_run now input_root note_prefix d in
  let d2 := zip_import_phase E now run_id xml_enabled xml_wellformed facility_dirs d1 in
  (db_finish_run now run_id note_prefix d2, run_id).

End ZipImportPhase.

(** *** Reading a run of stage F off its input *)

Module ZipImportSpec.
Import PyStr ZipExtract ZipImport DbMedi ZipImportPhase.

(** The ZIP files of an input root in processing order, each with its
    facility folder. *)
Definition flatten (facility_dirs : list facility_dir) : list (string * zip_file) :=
  flat_map (fun f => (fun z => (fd_name f, z)) <$> fd_zips f) facility_dirs.

(** The receipt fields a ZIP file leads to, given the password table. *)
Definition structure_of_zip (passwords : list Passwords.zip_password) (folder : string)
    (z : zip_file) (zsha : string) : structure * option string :=
  let '(fcode, fname) := parse_facility_folder_name folder in
  let pwd := Passwords.get_password_candidates passwords fcode folder (zf_name z) zsha in
  structure_of (extract_zip_to_temp (zf_open z) pwd) (extracted_root (zf_open z)).

Definition requests_of_files (E : env) (now : timestamp) (zsha fcode fname : string)
    (wf : bool) (files : list (path * node)) : list xml_request :=
  omap (fun xf => match xf.2 with
                  | File _ info => Some (request_of E now zsha fcode fname wf xf.1 info)
                  | Dir _ _ => None
                  end) files.

(** The XML upserts one ZIP file causes in a run with clock [now]. *)
Definition requests_of_zip (E : env) (now : timestamp)
    (passwords : list Passwords.zip_password)
    (xml_enabled xml_wellformed : bool) (fz : string * zip_file) : list xml_request :=
  match zf_sha256 fz.2 with
  | None => []
  | Some zsha =>
      let s := (structure_of_zip passwords fz.1 fz.2 zsha).1 in
      if xml_enabled && bool_decide (s_status s = "OK") then
        requests_of_files E now zsha (parse_facility_folder_name fz.1).1
          (parse_facility_folder_name fz.1).2 xml_wellformed
          (collect_xml (extracted_root (zf_open fz.2)))
      else []
  end.

(** The per-ZIP step of the phase on a pair of folder name and file. *)
Definition import_step (E : env) (now : timestamp) (run_id : Z) (xe xw : bool)
    (d : db) (fz : string * zip_file) : db :=
  import_zip_file E now run_id xe xw fz.1 d fz.2.

(** One upsert on the XML receipt table and its counter. *)
Definition apply_request (E : env) (now : timestamp) (run_id : Z)
    (t : gmap string xml_receipt * Z) (q : xml_request) : gmap string xml_receipt * Z :=
  (upsert_xml_row E now run_id q t).1.

Definition xml_state (d : db) : gmap string xml_receipt * Z :=
  (xml_receipts d, next_xml_receipt_id d).


(** The columns of an XML receipt an upsert of an existing row keeps, and
    the ones it overwrites from its request. *)
Definition kept (r : xml_receipt) :=
  (xml_receipt_id r, xr_zip_sha256 r, zip_inner_path r, xml_sha256 r,
   xr_first_seen_run_id r, xr_first_seen_at r,
   document_id r, extracted_run_id r, items_extract_status r, items_extracted_run_id r).

Definition overwritten (r : xml_receipt) :=
  (zip_inner_path_sha256 r, file_size r, file_mtime r, status r,
   xr_error_code r, xr_error_message r, xr_facility_code r, xr_facility_name r).

Definition written_by (E : env) (q : xml_request) :=
  (if xml_receipts_has_inner_sha E
   then Some (_ensure_inner_sha E (_norm_inner_path (q_zip_inner_path q))
                (q_zip_inner_path_sha256 q))
   else None,
   q_file_size q, q_file_mtime q, q_status q, q_error_code q,
   _clip_text (q_error_message q) 8000, q_facility_code q, q_facility_name q).






(** The XML inventory leaves the ZIP tables, the run table and the
    password table alone. *)
Definition same_zip_side (d d' : db) : Prop :=
  zip_receipts d' = zip_receipts d /\ zip_receipt_runs d' = zip_receipt_runs d /\
  next_zip_receipt_id d' = next_zip_receipt_id d /\
  zip_passwords d' = zip_passwords d /\
  next_run_id d' = next_run_id d /\ import_runs d' = import_runs d.

(** What one upsert of a ZIP receipt and its run row leave in the two
    ZIP tables. *)
Definition zip_row_after (E : env) (now : timestamp) (run_id : Z) (folder : string) (z : zip_file) (zsha : string) (d : db)
  : zip_receipt :=
  let '(fcode, fname) := parse_facility_folder_name folder in
  let '(s, emsg) := structure_of_zip (zip_passwords d) folder z zsha in
  let emsg := if zip_receipts_has_error_message E then _clip_text emsg 8000 else None in
  {| zip_receipt_id := default (next_zip_receipt_id d)
                         (zip_receipt_id <$> zip_receipts d !! zsha);
     zr_run_id := run_id;
     zr_first_seen_run_id := default run_id
                               (zr_first_seen_run_id <$> zip_receipts d !! zsha);
     zr_first_seen_at := default now (zr_first_seen_at <$> zip_receipts d !! zsha);
     zr_last_seen_run_id := run_id; zr_last_seen_at := now;
     facility_folder_name := folder; facility_code := fcode; facility_name := fname;
     zip_name := zf_name z; zip_path := zf_abs z;
     zip_sha256 := default zsha (zip_sha256 <$> zip_receipts d !! zsha);
     structure_status := s_status s; zr_error_code := s_error_code s;
     zr_error_message := emsg; structure_message := s_messages s;
     data_dir_count := s_data_dir_count s; data_xml_count := s_data_xml_count s |}.

Definition zip_run_after (now : timestamp) (run_id : Z) (zsha : string) (d : db) : zip_receipt_run :=
  {| zrr_run_id := run_id;
     zrr_zip_receipt_id := default (next_zip_receipt_id d)
                             (zip_receipt_id <$> zip_receipts d !! zsha);
     zrr_zip_sha256 := zsha;
     zrr_action := if zip_receipts d !! zsha is None then "NEW" else "SEEN";
     zrr_message := None; zrr_seen_at := now |}.

End ZipImportSpec.

(** ** XML documents as [lxml] presents them *)

Module Xml.
Import PyStr.

(** An element: namespace URI and local name of its tag, its attributes
    (names in Clark notation), its text, its children, and the text that
    follows it inside its parent. *)
Inductive element :=
  | Element (ns : string) (name : string) (attrib : list (string * string))
            (text : option string) (children : list element) (tail : option string).

Definition ns (e : element) : string := let 'Element n _ _ _ _ _ := e in n.
Definition name (e : element) : string := let 'Element _ n _ _ _ _ := e in n.
Definition attrib (e : element) := let 'Element _ _ a _ _ _ := e in a.
Definition text (e : element) : option string := let 'Element _ _ _ t _ _ := e in t.
Definition children (e : element) : list element := let 'Element _ _ _ _ c _ := e in c.
Definition tail (e : element) : option string := let 'Element _ _ _ _ _ t := e in t.

Definition NS_HL7 : string := "urn:hl7-org:v3".
Definition NS_XSI : string := "http://www.w3.org/2001/XMLSchema-instance".

(** [node.get(key)] *)
Fixpoint get (a : list (string * string)) (key : string) : option string :=
  match a with
  | [] => None
  | (k, v) :: rest => if bool_decide (k = key) then Some v else get rest key
  end.

Definition has_tag (n : string) (e : element) : bool :=
  bool_decide (ns e = NS_HL7) && bool_decide (name e = n).

(** [e.xpath("./hl7:n")] *)
Definition child_elements (n : string) (e : element) : list element :=
  filter (fun c => has_tag n c = true) (children e).

(** Every element of a document in document order. *)
Fixpoint descendants_or_self (e : element) : list element :=
  match e with
  | Element _ _ _ _ cs _ => e :: flat_map descendants_or_self cs
  end.

(** [tree.xpath("//hl7:n")] *)
Definition xpath_anywhere (n : string) (root : element) : list element :=
  filter (fun e => has_tag n e = true) (descendants_or_self root).

(** [tree.xpath("/hl7:a/hl7:b")] *)
Definition xpath_root_child (a b : string) (root : element) : list element :=
  if has_tag a root then child_elements b root else [].

(** ["".join(node.itertext())] *)
Fixpoint itertext (e : element) : string :=
  match e with
  | Element _ _ _ t cs _ =>
      or_empty t +:+
      String.concat "" ((fun c => itertext c +:+ or_empty (tail c)) <$> cs)
  end.

End Xml.

(** ** Stage G: the CDA index step and the steps after it
       ([kenshin_lib/medi/xml_extract.py]) *)

Module XmlExtract.
Import PyStr Xml.

(** [_extract_document_id]: the document id and the step result. *)
Definition _extract_document_id (tree : element) : option string * string :=
  match xpath_root_child "ClinicalDocument" "id" tree with
  | [] => (None, "ERROR")
  | id_node :: _ =>
      let root := get (attrib id_node) "root" in
      let ext := get (attrib id_node) "extension" in
      let nf := get (attrib id_node) "nullFlavor" in
      if truthy root then
        (Some (if truthy ext then or_empty root +:+ "|" +:+ or_empty ext else or_empty root),
         "OK")
      else if truthy nf then (None, "SKIP")
      else (None, "SKIP")
  end.

(** A row for [medi_xml_process_logs]. *)
Record process_log := {
  step : string;
  result : string;
  log_message : option string
}.

(** The arguments of [db_update_xml_index_fields]. *)
Record index_update := {
  u_status : string;
  u_error_code : option string;
  u_error_message : option string;
  u_document_id : option string;
  u_extracted_run_id : option Z;
  u_extracted_at_now : bool
}.

(** [_shorten(s, max_len)] *)
Definition _shorten (s : string) (max_len : nat) : string :=
  let s2 := strip (map_chars (fun c => if Ascii.eqb c "013" || Ascii.eqb c "010"
                                       then " "%char else c) s) in
  if bool_decide (String.length s2 <= max_len)%nat then s2
  else String.substring 0 (max_len - 3) s2 +:+ "...".

(** What the surroundings of the later steps deliver: the XSD check, the
    warning text of the header extraction, and whether the ledger upsert
    raised. *)
Inductive xsd_outcome :=
  | XsdRootMissing
  | XsdChecked (xsd_ok : bool) (used_xsd : string) (xsd_msg : string).

Record later_steps := {
  xsd : xsd_outcome;
  header_warnings : option string;
  ledger_error : option string
}.

Definition log (s r : string) (m : option string) : process_log :=
  {| step := s; result := r; log_message := m |}.

(** Step 2 of [xml_extract_phase]: the document id kept and the log row. *)
Definition cda_index_step (tree : element) : option string * process_log :=
  let '(doc_id, cda_result) := _extract_document_id tree in
  if bool_decide (cda_result = "OK") then (doc_id, log "CDA_INDEX" "OK" None)
  else if bool_decide (cda_result = "SKIP") then
    (None, log "CDA_INDEX" "SKIP" (Some "id root missing or nullFlavor (allowed)"))
  else (None, log "CDA_INDEX" "ERROR" (Some "unexpected CDA index error")).

Definition xsd_step (o : xsd_outcome) : option Z * option string * process_log :=
  match o with
  | XsdRootMissing =>
      (None, None, log "XSD_VALIDATE" "SKIP" (Some "xsd_root not set or not exists"))
  | XsdChecked xsd_ok used_xsd xsd_msg =>
      if String.prefix "xsd file not found" (lower (strip xsd_msg)) then
        let note := _shorten ("used=" +:+ used_xsd +:+ " " +:+ xsd_msg) 1500 in
        (None, Some note, log "XSD_VALIDATE" "SKIP" (Some note))
      else if xsd_ok then
        let note := if nonempty used_xsd then Some ("used=" +:+ used_xsd) else None in
        (Some 1, note, log "XSD_VALIDATE" "OK" note)
      else
        let note := _shorten ("used=" +:+ used_xsd +:+ " " +:+ xsd_msg) 1500 in
        (Some 0, Some note, log "XSD_VALIDATE" "ERROR" (Some note))
  end.

(** The body of [xml_extract_phase] for one receipt from the CDA index
    step on: the log rows in order and the final update of the receipt. *)
Definition extract_parsed (run_id : Z) (tree : element) (later : later_steps)
  : list process_log * index_update :=
  let '(doc_id, cda_log) := cda_index_step tree in
  let '(xsd_valid, xsd_note, xsd_log) := xsd_step (xsd later) in
  let items_log :=
    log "EXTRACT_ITEMS" "OK"
        (match header_warnings later with
         | Some (String c w) => Some (_shorten (String c w) 1000)
         | _ => None
         end) in
  match ledger_error later with
  | None =>
      ([cda_log; xsd_log; items_log; log "LEDGER" "OK" None],
       {| u_status := "OK"; u_error_code := None; u_error_message := None;
          u_document_id := doc_id; u_extracted_run_id := Some run_id;
          u_extracted_at_now := true |})
  | Some e =>
      let msg := _shorten e 1200 in
      ([cda_log; xsd_log; items_log; log "LEDGER" "ERROR" (Some msg)],
       {| u_status := "ERROR"; u_error_code := Some "LEDGER_UPSERT";
          u_error_message := Some msg; u_document_id := doc_id;
          u_extracted_run_id := None; u_extracted_at_now := false |})
  end.

(** The id element the step reads, if the document has one. *)
Definition id_element (tree : element) : option element :=
  head (xpath_root_child "ClinicalDocument" "id" tree).

(** The policy as the specification words it: [@root] present gives [OK],
    else [@nullFlavor] present gives [SKIP], else (or without the element)
    [ERROR]. *)
Definition stated_cda_result (tree : element) : string :=
  match id_element tree with
  | None => "ERROR"
  | Some id_node =>
      if bool_decide (is_Some (get (attrib id_node) "root")) then "OK"
      else if bool_decide (is_Some (get (attrib id_node) "nullFlavor")) then "SKIP"
      else "ERROR"
  end.

End XmlExtract.

(** ** Stage H: Item-Extract ([scripts/medi_xml_item_extract.py]) *)

Module ItemExtract.
Import PyStr Xml.

(** The two hints [exam_item_master] gives per namecode. *)
Record master_hint := {
  xml_value_type : option string;
  value_method : option string
}.

(** An entry of the list [_collect_observations_as_raw_items] returns. *)
Record raw_item := {
  namecode : string;
  occurrence_no : nat;
  value_raw : option string;
  value_type : option string;
  unit : option string;
  code_system : option string;
  code_value : option string;
  code_display : option string
}.

Definition _strip_or_none (s : option string) : option string :=
  match s with
  | None => None
  | Some s => let s2 := strip s in if bool_decide (s2 = "") then None else Some s2
  end.

(** [a or b] on nullable texts. *)
Definition or_else (a b : option string) : option string :=
  if truthy a then a else b.

Definition _xsi_type (node : element) : option string :=
  _strip_or_none (get (attrib node) ("{" +:+ NS_XSI +:+ "}type")).

Definition _infer_value_type_from_node (vnode : element) : option string :=
  match _xsi_type vnode with
  | Some xt => Some xt
  | None =>
      if bool_decide (is_Some (get (attrib vnode) "value")) then Some "ST"
      else if nonempty (strip (or_empty (text vnode))) then Some "ST"
      else None
  end.

Definition text_or_none (node : element) : option string :=
  let t := strip (or_empty (text node)) in
  if bool_decide (t = "") then None else Some t.

(** [node.get(attr)] for an attribute name that comes from the item
    master: lxml raises [ValueError] for a name it cannot read as an
    attribute name (the empty name for one, "Empty tag name").  Which names
    the library refuses is its own matter, told here by [refused]; the
    names written out in the source are taken by it. *)
Definition get_checked (refused : string -> bool) (node : element) (attr : string)
  : option (option string) :=
  if refused attr then None else Some (get (attrib node) attr).

(** [_extract_by_value_method]; [None] stands for the [ValueError] of
    [node.get(attr)] in the [@attr] branch, the only call of the function
    that can raise. *)
Definition _extract_by_value_method (refused : string -> bool) (node : element)
    (value_method : string) : option (option string) :=
  let vm := strip value_method in
  match vm with
  | EmptyString =>
      Some match _strip_or_none (get (attrib node) "value") with
           | Some v => Some v
           | None => text_or_none node
           end
  | String c attr =>
      if Ascii.eqb c "@" then _strip_or_none <$> get_checked refused node attr
      else if bool_decide (vm = "text()") || bool_decide (vm = "text") then
        Some (text_or_none node)
      else if bool_decide (vm = "string()") || bool_decide (vm = "string") then
        let t := strip (itertext node) in
        Some (if bool_decide (t = "") then None else Some t)
      else Some (text_or_none node)
  end.

Definition _infer_value_type_from_master (xml_value_type : string) : option string :=
  let t := upper (strip xml_value_type) in
  if bool_decide (t ∈ ["PQ"; "CD"; "CO"; "ST"]) then Some t else None.

(** The six values [_value_from_value_node] returns. *)
Record node_values := {
  nv_value_raw : option string;
  nv_value_type : option string;
  nv_unit : option string;
  nv_code_system : option string;
  nv_code_value : option string;
  nv_code_display : option string
}.

(** [_value_from_value_node]; [None] when [_extract_by_value_method]
    raises. *)
Definition _value_from_value_node (refused : string -> bool) (vnode : option element)
    (value_method : string) (prefer_master_type : option string) : option node_values :=
  match vnode with
  | None =>
      Some {| nv_value_raw := None; nv_value_type := None; nv_unit := None;
              nv_code_system := None; nv_code_value := None; nv_code_display := None |}
  | Some vnode =>
      value_raw ← _extract_by_value_method refused vnode value_method;
      Some {| nv_value_raw := value_raw;
              nv_value_type := or_else prefer_master_type (_infer_value_type_from_node vnode);
              nv_unit := _strip_or_none (get (attrib vnode) "unit");
              nv_code_system := _strip_or_none (get (attrib vnode) "codeSystem");
              nv_code_value := _strip_or_none (get (attrib vnode) "code");
              nv_code_display := _strip_or_none (get (attrib vnode) "displayName") |}
  end.

(** The node the value of an observation is read from: its first [value]
    child, else its first [text] child. *)
Definition value_node (obs : element) : option element :=
  match head (child_elements "value" obs) with
  | Some v => Some v
  | None => head (child_elements "text" obs)
  end.

(** The body of the loop over the observation nodes: the counters [occ]
    and the list [out] before and after one node.  The body runs under
    [try ... except Exception: continue]: when reading the value raises,
    the node is passed over, and as the counter is advanced after the
    value is read, it stays as it was. *)
Definition collect_step (refused : string -> bool)
    (item_master_map : gmap string master_hint)
    (acc : gmap string nat * list raw_item) (obs : element)
  : gmap string nat * list raw_item :=
  let '(occ, out) := acc in
  match head (child_elements "code" obs) with
  | None => acc
  | Some code_node =>
      match _strip_or_none (get (attrib code_node) "code") with
      | None => acc
      | Some nc =>
          let vnode := value_node obs in
          let master := item_master_map !! nc in
          let prefer_type :=
            _infer_value_type_from_master (or_empty (master ≫= xml_value_type)) in
          let vm := strip (or_empty (master ≫= value_method)) in
          match _value_from_value_node refused vnode vm prefer_type with
          | None => acc
          | Some v =>
              let n := S (default O (occ !! nc)) in
              (<[nc := n]> occ,
               out ++ [ {| namecode := nc; occurrence_no := n;
                           value_raw := nv_value_raw v; value_type := nv_value_type v;
                           unit := nv_unit v;
                           code_system := or_else (nv_code_system v)
                                            (_strip_or_none (get (attrib code_node) "codeSystem"));
                           code_value := or_else (nv_code_value v)
                                           (_strip_or_none (get (attrib code_node) "code"));
                           code_display := or_else (nv_code_display v)
                                             (_strip_or_none (get (attrib code_node) "displayName"))
                        |} ])
          end
      end
  end.

Definition _collect_observations_as_raw_items (refused : string -> bool) (tree : element)
    (item_master_map : gmap string master_hint) : list raw_item :=
  (foldl (collect_step refused item_master_map) (∅, [])
         (xpath_anywhere "observation" tree)).2.

(** *** Writing the rows: [medi_xml_item_values] *)

Record xml_item_value := {
  iv_xml_sha256 : string;
  iv_zip_sha256 : string;
  iv_zip_inner_path : string;
  iv_zip_inner_path_sha256 : string;
  iv_namecode : string;
  iv_occurrence_no : nat;
  iv_item : raw_item;
  iv_extracted_run_id : Z
}.

(** [db_upsert_xml_item_value]; the table is keyed by
    [UNIQUE(xml_sha256, namecode, occurrence_no)]. *)
Definition db_upsert_xml_item_value (run_id : Z) (xml_sha zip_sha inner inner_sha : string)
    (table : gmap (string * string * nat) xml_item_value) (row : raw_item)
  : gmap (string * string * nat) xml_item_value :=
  <[(xml_sha, namecode row, occurrence_no row) :=
      {| iv_xml_sha256 := xml_sha; iv_zip_sha256 := zip_sha;
         iv_zip_inner_path := inner; iv_zip_inner_path_sha256 := inner_sha;
         iv_namecode := namecode row; iv_occurrence_no := occurrence_no row;
         iv_item := row; iv_extracted_run_id := run_id |}]> table.

(** The rows the write loop of [main] gets to.  [cur.execute] of an
    upsert may raise ([raises] gives the text of the exception for a row);
    the loop then ends, and the rows upserted before stay, as the handler
    of [main] does not roll back. *)
Fixpoint written_before (raises : raw_item -> option string) (rows : list raw_item)
  : list raw_item * option string :=
  match rows with
  | [] => ([], None)
  | row :: rest =>
      match raises row with
      | Some e => ([], Some e)
      | None => let '(w, e) := written_before raises rest in (row :: w, e)
      end
  end.


(** The namecode an observation node carries: the trimmed [@code] of its
    first [code] child, if that is not empty. *)
Definition namecode_of (obs : element) : option string :=
  head (child_elements "code" obs) ≫= fun c => _strip_or_none (get (attrib c) "code").

(** The namecode under which an observation is collected: the one it
    carries, unless reading its value raises. *)
Definition collected_as (refused : string -> bool)
    (item_master_map : gmap string master_hint) (obs : element) : option string :=
  nc ← namecode_of obs;
  let master := item_master_map !! nc in
  _ ← _value_from_value_node refused (value_node obs)
        (strip (or_empty (master ≫= value_method)))
        (_infer_value_type_from_master (or_empty (master ≫= xml_value_type)));
  Some nc.

(** The occurrence numbers a list of rows carries for one namecode. *)
Definition occurrences (nc : string) (rows : list raw_item) : list nat :=
  occurrence_no <$> filter (fun r => namecode r = nc) rows.

(** The loop invariant of the counters: what [occ] and [out] hold after
    the observation nodes [seen]. *)
Definition counted (refused : string -> bool) (item_master_map : gmap string master_hint)
    (occ : gmap string nat) (out : list raw_item) (seen : list element) : Prop :=
  forall nc,
    occurrences nc out = seq 1 (default O (occ !! nc)) /\
    default O (occ !! nc) =
      length (filter (fun o => collected_as refused item_master_map o = Some nc) seen).

(** *** Selecting the receipts to work on *)

(** The columns of [medi_xml_receipts] the selection reads. *)
Record receipt := {
  xml_receipt_id : Z;
  xml_sha256 : string;
  status : string;
  items_extract_status : option string;
  updated_at : Z
}.

(** [WHERE status=%s AND (items_extract_status IS NULL OR items_extract_status <> 'OK')] *)
Definition eligible (target_status : string) (r : receipt) : Prop :=
  status r = target_status /\ items_extract_status r <> Some "OK".

#[global] Instance eligible_dec t r : Decision (eligible t r).
Proof. unfold eligible. apply _. Defined.

Definition db_select_target_xmls_for_item_extract (table : list receipt) (lim : Z)
    (target_status : string) : list receipt :=
  Sql.limit lim (Sql.order_by (fun r => [updated_at r]) (filter (eligible target_status) table)).

Definition select_targets_safe (table : list receipt) (lim : Z) : list receipt :=
  let lim := if lim <=? 0 then 1000000 else lim in
  db_select_target_xmls_for_item_extract table lim "OK".

(** The receipts the specification says every later run takes up again. *)
Definition left_unfinished (r : receipt) : Prop :=
  status r = "OK" /\
  (items_extract_status r = Some "ERROR" \/ items_extract_status r = Some "SKIP").

End ItemExtract.

(** ** Stage A: Shared-Scan ([scripts/medi_shared_files_scan.py],
       [kenshin_lib/medi/db_shared_files.py]) *)

Module SharedScan.
Import PyStr.

(** [a or b] on environment values: [None] and [""] are false. *)
Definition env_or (a b : option string) : option string :=
  if truthy a then a else b.

(** [parse_allow_exts], given [MEDI_SHARED_SCAN_EXTS] and [MEDI_SHARED_EXTS]. *)
Definition parse_allow_exts (scan_exts shared_exts : option string) : gset string :=
  let exts := strip (or_empty (env_or (env_or scan_exts shared_exts)
                                      (Some "zip,pdf,xlsx,xls,xml"))) in
  list_to_set ((fun e => lower (strip e)) <$>
               filter (fun e => nonempty (strip e) = true) (split "," exts)).

(** The patterns [iter_targets] hands to [rglob], in order. *)
Definition iter_targets_patterns (allow_exts : gset string) : list string :=
  match merge_sort String.le (elements allow_exts) with
  | [] => ["*.zip"]
  | exts => (fun ext => "*." +:+ ext) <$> exts
  end.

(** A row of [medi_shared_files]; the last three columns belong to the
    probe stage and are not named by the scan's statement.  The record
    holds the columns the statements read or set by value.  The table also
    has [updated_at], which the [UPDATE] statements of the later stages set
    to the server's clock and which no statement reads: it is not among
    the fields, so an equation between two rows here says nothing
    about it. *)
Record shared_file := {
  shared_file_id : Z;
  path_hash : string;
  path : string;
  src_folder_raw : option string;
  dst_folder_norm : option string;
  facility_hint : option string;
  file_name : string;
  ext : string;
  file_size : Z;
  mtime : option string;
  sha256 : option string;
  auto_judgement : string;
  manual_judgement : option string;
  stage_status : string;
  note : option string;
  first_seen_at : string;
  last_seen_at : string;
  zip_has_xml : option Z;
  zip_xml_count : option Z;
  zip_xml_checked_at : option string
}.

(** The dataclass [SharedFileRow]. *)
Record SharedFileRow := {
  r_path : string;
  r_src_folder_raw : option string;
  r_dst_folder_norm : option string;
  r_facility_hint : option string;
  r_file_name : string;
  r_ext : string;
  r_file_size : Z;
  r_mtime : option string;
  r_sha256 : option string;
  r_auto_judgement : string;
  r_manual_judgement : option string;
  r_stage_status : string;
  r_note : option string;
  r_first_seen_at : string;
  r_last_seen_at : string
}.

(** [COALESCE(a, b)] *)
Definition coalesce {A} (a b : option A) : option A :=
  match a with Some _ => a | None => b end.

(** [db_upsert_shared_file]: [INSERT ... ON DUPLICATE KEY UPDATE] keyed by
    [path_hash = sha1_text(row.path)], on the table and its id counter;
    the third component is [cur.lastrowid]. *)
Definition db_upsert_shared_file (sha1_text : string -> string)
    (t : gmap string shared_file * Z) (row : SharedFileRow)
  : gmap string shared_file * Z * Z :=
  let h := sha1_text (r_path row) in
  match t.1 !! h with
  | None =>
      let id := t.2 in
      (<[h := {| shared_file_id := id; path_hash := h; path := r_path row;
                 src_folder_raw := r_src_folder_raw row;
                 dst_folder_norm := r_dst_folder_norm row;
                 facility_hint := r_facility_hint row;
                 file_name := r_file_name row; ext := r_ext row;
                 file_size := r_file_size row; mtime := r_mtime row;
                 sha256 := r_sha256 row;
                 auto_judgement := r_auto_judgement row;
                 manual_judgement := r_manual_judgement row;
                 stage_status := r_stage_status row;
                 note := ZipExtract.clip 1024 <$> r_note row;
                 first_seen_at := r_first_seen_at row;
                 last_seen_at := r_last_seen_at row;
                 zip_has_xml := None; zip_xml_count := None;
                 zip_xml_checked_at := None |}]> t.1, id + 1, id)
  | Some old =>
      (<[h := {| shared_file_id := shared_file_id old; path_hash := path_hash old;
                 path := r_path row;
                 src_folder_raw := r_src_folder_raw row;
                 dst_folder_norm := r_dst_folder_norm row;
                 facility_hint := r_facility_hint row;
                 file_name := r_file_name row; ext := r_ext row;
                 file_size := r_file_size row; mtime := r_mtime row;
                 sha256 := coalesce (r_sha256 row) (sha256 old);
                 auto_judgement := r_auto_judgement row;
                 manual_judgement := coalesce (manual_judgement old) (r_manual_judgement row);
                 stage_status := r_stage_status row;
                 note := ZipExtract.clip 1024 <$> r_note row;
                 first_seen_at := first_seen_at old;
                 last_seen_at := r_last_seen_at row;
                 zip_has_xml := zip_has_xml old; zip_xml_count := zip_xml_count old;
                 zip_xml_checked_at := zip_xml_checked_at old |}]> t.1,
       t.2, shared_file_id old)
  end.

(** A file the directory walk yields: its path as text, its components
    below the scan root, the names of its ancestor directories (nearest
    first, the file system root left out), its suffix, and its size and
    modification time when [stat] succeeds. *)
Record found_file := {
  f_path : string;
  f_rel_parts : list string;
  f_ancestors : list string;
  f_suffix : string;
  f_stat : option (Z * string)
}.

(** [p.suffix.lower().lstrip(".")] *)
Definition norm_ext (suffix : string) : string := DbMedi.lstrip_char "." (lower suffix).

Definition pick_facility_hint (ancestors : list string) (depth : Z) : string :=
  let parts := filter (fun x => nonempty x = true) (take (Z.to_nat (Z.max 0 depth)) ancestors) in
  String.concat "/" (reverse parts).

(** The row [main] builds for a file. *)
Definition scan_row (ts : string) (hint_depth : Z) (f : found_file) : SharedFileRow :=
  {| r_path := f_path f;
     r_src_folder_raw :=
       if bool_decide (2 <= length (f_rel_parts f))%nat then head (f_rel_parts f) else None;
     r_dst_folder_norm := None;
     r_facility_hint := Some (pick_facility_hint (f_ancestors f) hint_depth);
     r_file_name := default "" (last (f_rel_parts f));
     r_ext := norm_ext (f_suffix f);
     r_file_size := default 0 (fst <$> f_stat f);
     r_mtime := snd <$> f_stat f;
     r_sha256 := None;
     r_auto_judgement := "UNKNOWN";
     r_manual_judgement := None;
     r_stage_status := "NEW";
     r_note := None;
     r_first_seen_at := ts;
     r_last_seen_at := ts |}.

(** The body of the loop of [main] for a file that is counted: the final
    extension filter, then the upsert. *)
Definition scan_file (sha1_text : string -> string) (allow_exts : gset string)
    (ts : string) (hint_depth : Z)
    (t : gmap string shared_file * Z) (f : found_file) : gmap string shared_file * Z :=
  if bool_decide (allow_exts <> ∅) && bool_decide (norm_ext (f_suffix f) ∉ allow_exts) then t
  else (db_upsert_shared_file sha1_text t (scan_row ts hint_depth f)).1.

(** The loop of [main]: files are counted, and the loop stops once the
    count passes a positive [scan_limit]. *)
Definition scan (sha1_text : string -> string) (allow_exts : gset string)
    (ts : string) (hint_depth scan_limit : Z)
    (files : list found_file) (t : gmap string shared_file * Z)
  : gmap string shared_file * Z :=
  let counted := if bool_decide (scan_limit = 0) then files
                 else take (Z.to_nat scan_limit) files in
  foldl (scan_file sha1_text allow_exts ts hint_depth) t counted.

End SharedScan.

(** ** Example data *)

Module Examples.

Section normalize.
Import Normalize.
Definition c1_row : item_value :=
  {| item_value_id := 7; ledger_id := 1; namecode := Some "9A755";
     raw_value := Some " 5.6 "; value := None; status := RAW;
     normalized_at := None; normalize_error := None |}.

Definition c1_master : item_master :=
  {| m_namecode := "9A755"; xml_value_type := Some "PQ"; result_code_oid := None |}.

End normalize.

Section passwords.
Import Passwords.
Definition c6_row : zip_password :=
  {| zip_password_id := 1; scope_type := "ZIP_SHA256";
     p_zip_sha256 := Some "abc123"; p_zip_name := None;
     p_facility_code := None; p_facility_folder_name := None;
     password_text := Some " P2 "; priority := 1; is_active := 1 |}.

End passwords.

Section extract.
Import ZipExtract ZipImport.
(** An archive encrypted with [P2]: every other attempt is a bad password. *)
Definition c5_archive : zip_archive :=
  {| encrypted := true;
     extractall := fun pw =>
       if bool_decide (pw = Some "P2") then Extracted
       else RaiseRuntimeError "Bad password for file";
     content := [] |}.

Definition c4_info : file_info :=
  {| content_sha256 := "00"; hash_error := None; st_size := 12;
     st_mtime := fun _ => "2026-01-21 09:00:00.000000"; stat_error := None;
     parse_error := None |}.

(** An archive with one file that is no XML and no [DATA] directory. *)
Definition c4_no_xml : list node := [Dir "doc" [File "readme.txt" c4_info]].

(** An archive with two empty-of-XML [DATA] directories. *)
Definition c4_two_data : list node :=
  [Dir "a" [Dir "DATA" [File "memo.txt" c4_info]]; Dir "b" [Dir "DATA" []]].

End extract.

Section cda.
Import Xml.
(** A clinical document whose id element has neither attribute. *)
Definition c3_bare_id : element :=
  Element NS_HL7 "ClinicalDocument" [] None
    [Element NS_HL7 "id" [] None [] None;
     Element NS_HL7 "title" [] (Some "report") [] None] None.

End cda.

Section items.
Import Xml ItemExtract.
(** A document with three observations coded [9A755], of which only the
    second has a [value] child. *)
Definition c7_document : element :=
  Element NS_HL7 "ClinicalDocument" [] None
    [Element NS_HL7 "observation" [] None
       [Element NS_HL7 "code" [("code", "9A755")] None [] None] None;
     Element NS_HL7 "observation" [] None
       [Element NS_HL7 "code" [("code", "9A755")] None [] None;
        Element NS_HL7 "value" [("value", "5.6")] None [] None] None;
     Element NS_HL7 "observation" [] None
       [Element NS_HL7 "code" [("code", "9A755")] None [] None] None] None.

(** An item master whose value method for [9A755] names no attribute. *)
Definition c7_master : gmap string master_hint :=
  {[ "9A755" := {| xml_value_type := Some "PQ"; value_method := Some "@" |} ]}.

(** lxml refuses the empty attribute name. *)
Definition c7_refused (name : string) : bool := bool_decide (name = "").

Definition c10_first : receipt :=
  {| xml_receipt_id := 1; xml_sha256 := "aa"; status := "OK";
     items_extract_status := Some "ERROR"; updated_at := 10 |}.

Definition c10_second : receipt :=
  {| xml_receipt_id := 2; xml_sha256 := "bb"; status := "OK";
     items_extract_status := Some "SKIP"; updated_at := 20 |}.

End items.

Section scan.
Import SharedScan.
Definition c9_file : found_file :=
  {| f_path := "/share/A_clinic/2025/Z1.zip";
     f_rel_parts := ["A_clinic"; "2025"; "Z1.zip"];
     f_ancestors := ["2025"; "A_clinic"; "share"];
     f_suffix := ".zip"; f_stat := Some (2048, "2026-01-20 10:00:00.000000") |}.

Definition c9_old : shared_file :=
  {| shared_file_id := 5; path_hash := "h1"; path := "/share/A_clinic/2025/Z1.zip";
     src_folder_raw := Some "A_clinic"; dst_folder_norm := None;
     facility_hint := Some "A_clinic/2025"; file_name := "Z1.zip"; ext := "zip";
     file_size := 2048; mtime := Some "2026-01-20 10:00:00.000000";
     sha256 := Some "abc123"; auto_judgement := "KENSHIN";
     manual_judgement := Some "KENSHIN"; stage_status := "INPUT_COPIED";
     note := None; first_seen_at := "2026-01-21 08:00:00.000000";
     last_seen_at := "2026-01-21 08:00:00.000000";
     zip_has_xml := Some 1; zip_xml_count := Some 3;
     zip_xml_checked_at := Some "2026-01-21 08:30:00.000000" |}.

End scan.

Section import.
Import ZipExtract DbMedi ZipImportPhase.

(** A deployment with every optional column, and a stand-in for the hash. *)
Definition c2_env : env :=
  {| sha256_text := fun s => "sha256:" +:+ s;
     zip_receipts_has_error_message := true;
     zip_receipt_runs_has_message := true;
     xml_receipts_has_inner_sha := true;
     xml_receipt_runs_has_receipt_id := true |}.

(** When a run with a given clock extracts a file: at ten on the day of
    the first import for the clock 100, a day later for any other. *)
Definition c2_extracted_at (now : Z) : string :=
  if bool_decide (now = 100) then "2026-01-20 10:00:00.000000"
  else "2026-01-21 10:00:00.000000".

(** [Z1.zip]: not encrypted, holding [DATA/X1.xml]. *)
Definition c2_zip : zip_file :=
  {| zf_name := "Z1.zip"; zf_abs := "/in/0001_Clinic/Z1.zip";
     zf_sha256 := Some "z1";
     zf_open := Opened
       {| encrypted := false; extractall := fun _ => Extracted;
          content := [Dir "DATA" [File "X1.xml"
            {| content_sha256 := "x1"; hash_error := None; st_size := 900;
               st_mtime := c2_extracted_at; stat_error := None;
               parse_error := None |}]] |} |}.

Definition c2_input : list facility_dir :=
  [ {| fd_name := "0001_Clinic"; fd_zips := [c2_zip] |} ].

Definition c2_empty : db :=
  {| next_run_id := 1; import_runs := ∅;
     next_zip_receipt_id := 1; zip_receipts := ∅; zip_receipt_runs := ∅;
     next_xml_receipt_id := 1; xml_receipts := ∅; xml_receipt_runs := ∅;
     zip_passwords := [] |}.

(** The first and the second import of [c2_input]. *)
Definition c2_run1 : db * Z :=
  main_zip_import c2_env 100 "/in" None true false c2_input c2_empty.


End import.

End Examples.

(** ** More Python text primitives *)

Module PyText.
Import PyStr.

(** The characters of a text. *)
Definition chars (s : string) : list ascii := list_ascii_of_string s.

(** [s.lstrip()] and [s.rstrip()] on the characters of a text. *)
Fixpoint lstrip_chars (l : list ascii) : list ascii :=
  match l with
  | [] => []
  | c :: l' => if isspace c then lstrip_chars l' else l
  end.

Definition rstrip_chars (l : list ascii) : list ascii :=
  reverse (lstrip_chars (reverse l)).

(** A text [strip] leaves alone: it neither starts nor ends with a
    whitespace character. *)
Definition trimmed (s : string) : Prop :=
  (forall c l, chars s = c :: l -> isspace c = false) /\
  (forall c l, chars s = l ++ [c] -> isspace c = false).

(** [s.find(c)] for a one-character needle: the first index, or [-1]. *)
Fixpoint find (c : ascii) (s : string) : Z :=
  match s with
  | EmptyString => -1
  | String x s' =>
      if Ascii.eqb x c then 0
      else let r := find c s' in if r <? 0 then -1 else r + 1
  end.

(** [s.rfind(c)]: the last index, or [-1]. *)
Fixpoint rfind (c : ascii) (s : string) : Z :=
  match s with
  | EmptyString => -1
  | String x s' =>
      let r := rfind c s' in
      if 0 <=? r then r + 1 else if Ascii.eqb x c then 0 else -1
  end.

(** [s[a:b]]: a negative bound counts from the end, and both bounds are
    clamped to the text. *)
Definition slice (a b : Z) (s : string) : string :=
  let n := Z.of_nat (String.length s) in
  let bound i := if i <? 0 then Z.max 0 (i + n) else Z.min i n in
  String.substring (Z.to_nat (bound a)) (Z.to_nat (bound b - bound a)) s.




End PyText.

(** ** The column guards of the database layer ([kenshin_lib/medi/db_medi.py]) *)

Module DbMediGuard.
Import PyStr PyText.

(** The state of the scanner in [_parse_enum_values]: the values closed so
    far, the value being read, and the two flags. *)
Record scanner := {
  vals : list string;
  buf : string;
  in_q : bool;
  esc : bool
}.

(** The body of [for ch in body]. *)
Definition scan_char (st : scanner) (ch : ascii) : scanner :=
  if esc st then
    {| vals := vals st; buf := buf st +:+ String ch ""; in_q := in_q st; esc := false |}
  else if Ascii.eqb ch "\" then
    {| vals := vals st; buf := buf st; in_q := in_q st; esc := true |}
  else if Ascii.eqb ch "'" then
    if in_q st then
      {| vals := vals st ++ [buf st]; buf := ""; in_q := false; esc := false |}
    else
      {| vals := vals st; buf := buf st; in_q := true; esc := false |}
  else if in_q st then
    {| vals := vals st; buf := buf st +:+ String ch ""; in_q := true; esc := false |}
  else st.

Definition scan_start : scanner :=
  {| vals := []; buf := ""; in_q := false; esc := false |}.

(** [_parse_enum_values]: the quoted values of an [enum(...)] column type,
    the empty list for any other type. *)
Definition _parse_enum_values (column_type : string) : list string :=
  let s := strip column_type in
  if negb (String.prefix "enum(" (lower s)) then []
  else
    let body := slice (find "(" s + 1) (rfind ")" s) s in
    vals (foldl scan_char scan_start (chars body)).

(** [_fallback_enum]: the value itself when the column allows it, else
    [OTHER], else [UNKNOWN], else the first value of the column. *)
Definition _fallback_enum (value : string) (enums : list string) : string :=
  match enums with
  | [] => value
  | first :: _ =>
      if bool_decide (value ∈ enums) then value
      else if bool_decide ("OTHER" ∈ enums) then "OTHER"
      else if bool_decide ("UNKNOWN" ∈ enums) then "UNKNOWN"
      else first
  end.

(** [db_get_column_type]: [COLUMN_TYPE] as [information_schema] gives it
    for a table and a column, [None] for a missing column or an empty
    text.  The cache of the module returns what the first query returned. *)
Definition db_get_column_type (schema : string -> string -> option string)
    (table column : string) : option string :=
  match schema table column with
  | Some v => if nonempty v then Some v else None
  | None => None
  end.

Definition _guard_enum_value (schema : string -> string -> option string)
    (table column value : string) : string :=
  match db_get_column_type schema table column with
  | None => value
  | Some col_type =>
      match _parse_enum_values col_type with
      | [] => value
      | enums => _fallback_enum value enums
      end
  end.

(** The values a column accepts according to the schema: none when the
    column is missing or is not an enumeration. *)
Definition allowed_values (schema : string -> string -> option string)
    (table column : string) : list string :=
  match db_get_column_type schema table column with
  | None => []
  | Some col_type => _parse_enum_values col_type
  end.

(** The column type of an enumeration as the server prints it, for values
    that need no escaping. *)
Definition quoted (v : string) : string := "'" +:+ v +:+ "'".

Definition enum_type (values : list string) : string :=
  "enum(" +:+ String.concat "," (quoted <$> values) +:+ ")".

(** A value the server prints as it is: no quote and no backslash. *)
Definition plain (v : string) : Prop :=
  Forall (fun c => c <> "'"%char /\ c <> "\"%char) (chars v).

End DbMediGuard.

(** ** Stage I: what a run of [main] leaves in the table *)

Module NormalizeRun.
Import PyStr Normalize.

(** The columns no statement of the stage assigns. *)
Definition raw_columns (r : item_value) :=
  (item_value_id r, ledger_id r, namecode r, raw_value r).

(** The updates [main] issues, in order: one per selected row. *)
Definition updates (masters : list item_master) (variants : list norm_variant)
    (targets : list item_value) : list (Z * action) :=
  (fun t => (item_value_id t, normalize_row masters variants t)) <$> targets.

(** The row a list of updates by id leaves of a row when ids do not
    repeat: the first update that names it, applied once. *)
Fixpoint updated (now : string) (acts : list (Z * action)) (r : item_value) : item_value :=
  match acts with
  | [] => r
  | (id, a) :: rest =>
      if bool_decide (item_value_id r = id) then apply_action now a r
      else updated now rest r
  end.

End NormalizeRun.

(** ** Stage F: what identifies a receipt *)

Module ReceiptKeys.
Import DbMedi.

(** The columns of a ZIP receipt no statement assigns after the insert. *)
Definition zip_identity (r : zip_receipt) :=
  (zip_receipt_id r, zip_sha256 r, zr_first_seen_run_id r, zr_first_seen_at r).

Definition zip_state (d : db) : gmap string zip_receipt * Z :=
  (zip_receipts d, next_zip_receipt_id d).

(** A receipt table under its content-hash key with its id counter: every
    row sits under its own hash, ids lie below the counter, and no id is
    given twice. *)
Definition keyed_by {A} (key : A -> string) (id : A -> Z) (t : gmap string A * Z) : Prop :=
  (forall s r, t.1 !! s = Some r -> key r = s /\ id r < t.2) /\
  (forall s1 s2 r1 r2, t.1 !! s1 = Some r1 -> t.1 !! s2 = Some r2 ->
     id r1 = id r2 -> s1 = s2).

Definition zip_keyed : gmap string zip_receipt * Z -> Prop :=
  keyed_by zip_sha256 zip_receipt_id.

Definition xml_keyed : gmap string xml_receipt * Z -> Prop :=
  keyed_by xml_sha256 xml_receipt_id.

Definition runs_keyed (d : db) : Prop :=
  forall r, is_Some (import_runs d !! r) -> r < next_run_id d.

Definition well_keyed (d : db) : Prop :=
  zip_keyed (zip_state d) /\
  xml_keyed (xml_receipts d, next_xml_receipt_id d) /\
  runs_keyed d.

End ReceiptKeys.

(** ** Looking into a ZIP without extracting it ([kenshin_lib/medi/zip_inspect.py]) *)

From stdpp Require Import pretty.
Local Open Scope Z_scope.

Module ZipInspect.
Import PyStr PyText ZipImport.

Record ZipXmlProbeResult := {
  ok : bool;
  has_xml : bool;
  xml_count : Z;
  note : option string
}.

(** [_is_xml_member]: a member name that is not blank, is no directory
    entry and ends in [.xml] in any letter case. *)
Definition _is_xml_member (name : string) : bool :=
  let n := strip name in
  if negb (nonempty n) then false
  else if endswith "/" n || endswith "\" n then false
  else endswith ".xml" (lower n).

(** What the file system and [zipfile.ZipFile(p, "r")] give for a path:
    the path is missing or no file, the member names of the central
    directory, or the exception raised. *)
Inductive probed :=
  | PathMissing
  | PathNotFile
  | Listed (names : list string)
  | RaisedBadZipFile
  | RaisedPermissionError (e : string)
  | RaisedOSError (e : string)
  | RaisedException (e : string).

Definition failed (why : string) : ZipXmlProbeResult :=
  {| ok := false; has_xml := false; xml_count := 0; note := Some why |}.

Definition probe_zip_has_xml (z : probed) : ZipXmlProbeResult :=
  match z with
  | PathMissing => failed "zip not found"
  | PathNotFile => failed "zip is not a file"
  | Listed names =>
      let cnt := Z.of_nat (length (filter (fun n => _is_xml_member n = true) names)) in
      {| ok := true; has_xml := 0 <? cnt; xml_count := cnt; note := None |}
  | RaisedBadZipFile => failed "bad zip file"
  | RaisedPermissionError e => failed ("permission error: " +:+ e)
  | RaisedOSError e => failed ("os error: " +:+ e)
  | RaisedException e => failed ("unexpected: " +:+ e)
  end.

End ZipInspect.

(** ** The ledger of shared files after the scan
       ([kenshin_lib/medi/db_shared_files.py])

    The table is the one the scan writes, rows under their [path_hash].
    Text comparisons of the statements are equality of texts. *)

Module SharedFiles.
Import PyStr SharedScan.

Definition table := gmap string shared_file.

(** The rows of the table, in the order the server happens to read them. *)
Definition rows (t : table) : list shared_file := (map_to_list t).*2.

(** [ORDER BY first_seen_at ASC] on the timestamp texts. *)
Definition by_first_seen : relation shared_file :=
  fun a b => String.leb (first_seen_at a) (first_seen_at b) = true.

#[global] Instance by_first_seen_dec : RelDecision by_first_seen.
Proof. intros a b. unfold by_first_seen. apply _. Defined.

(** [LIMIT n] for a positive [n], no limit otherwise. *)
Definition limit_if_positive {A} (n : Z) (l : list A) : list A :=
  if 0 <? n then take (Z.to_nat n) l else l.

(** [UPDATE medi_shared_files SET ..., updated_at=CURRENT_TIMESTAMP(6)
    WHERE shared_file_id = id], on the columns of [shared_file]: a row
    with another id is not touched at all, a row with this id takes [f] on
    its fields (and a new [updated_at]). *)
Definition update_by_id (id : Z) (f : shared_file -> shared_file) (t : table) : table :=
  (fun r => if bool_decide (shared_file_id r = id) then f r else r) <$> t.

Definition set_note (n : option string) (r : shared_file) : shared_file :=
  {| shared_file_id := shared_file_id r; path_hash := path_hash r; path := path r;
     src_folder_raw := src_folder_raw r; dst_folder_norm := dst_folder_norm r;
     facility_hint := facility_hint r; file_name := file_name r; ext := ext r;
     file_size := file_size r; mtime := mtime r; sha256 := sha256 r;
     auto_judgement := auto_judgement r; manual_judgement := manual_judgement r;
     stage_status := stage_status r; note := n;
     first_seen_at := first_seen_at r; last_seen_at := last_seen_at r;
     zip_has_xml := zip_has_xml r; zip_xml_count := zip_xml_count r;
     zip_xml_checked_at := zip_xml_checked_at r |}.

Definition set_sha256 (s : option string) (r : shared_file) : shared_file :=
  {| shared_file_id := shared_file_id r; path_hash := path_hash r; path := path r;
     src_folder_raw := src_folder_raw r; dst_folder_norm := dst_folder_norm r;
     facility_hint := facility_hint r; file_name := file_name r; ext := ext r;
     file_size := file_size r; mtime := mtime r; sha256 := s;
     auto_judgement := auto_judgement r; manual_judgement := manual_judgement r;
     stage_status := stage_status r; note := note r;
     first_seen_at := first_seen_at r; last_seen_at := last_seen_at r;
     zip_has_xml := zip_has_xml r; zip_xml_count := zip_xml_count r;
     zip_xml_checked_at := zip_xml_checked_at r |}.

Definition set_probe (has_xml count : option Z) (checked_at : string)
    (r : shared_file) : shared_file :=
  {| shared_file_id := shared_file_id r; path_hash := path_hash r; path := path r;
     src_folder_raw := src_folder_raw r; dst_folder_norm := dst_folder_norm r;
     facility_hint := facility_hint r; file_name := file_name r; ext := ext r;
     file_size := file_size r; mtime := mtime r; sha256 := sha256 r;
     auto_judgement := auto_judgement r; manual_judgement := manual_judgement r;
     stage_status := stage_status r; note := note r;
     first_seen_at := first_seen_at r; last_seen_at := last_seen_at r;
     zip_has_xml := has_xml; zip_xml_count := count;
     zip_xml_checked_at := Some checked_at |}.

Definition set_auto_judgement (a : string) (r : shared_file) : shared_file :=
  {| shared_file_id := shared_file_id r; path_hash := path_hash r; path := path r;
     src_folder_raw := src_folder_raw r; dst_folder_norm := dst_folder_norm r;
     facility_hint := facility_hint r; file_name := file_name r; ext := ext r;
     file_size := file_size r; mtime := mtime r; sha256 := sha256 r;
     auto_judgement := a; manual_judgement := manual_judgement r;
     stage_status := stage_status r; note := note r;
     first_seen_at := first_seen_at r; last_seen_at := last_seen_at r;
     zip_has_xml := zip_has_xml r; zip_xml_count := zip_xml_count r;
     zip_xml_checked_at := zip_xml_checked_at r |}.

Definition set_stage_status (s : string) (r : shared_file) : shared_file :=
  {| shared_file_id := shared_file_id r; path_hash := path_hash r; path := path r;
     src_folder_raw := src_folder_raw r; dst_folder_norm := dst_folder_norm r;
     facility_hint := facility_hint r; file_name := file_name r; ext := ext r;
     file_size := file_size r; mtime := mtime r; sha256 := sha256 r;
     auto_judgement := auto_judgement r; manual_judgement := manual_judgement r;
     stage_status := s; note := note r;
     first_seen_at := first_seen_at r; last_seen_at := last_seen_at r;
     zip_has_xml := zip_has_xml r; zip_xml_count := zip_xml_count r;
     zip_xml_checked_at := zip_xml_checked_at r |}.

(** [clip_text(note, 1024) if note else None] *)
Definition clip_if_given (n : option string) : option string :=
  if truthy n then ZipExtract.clip 1024 <$> n else None.

(** [WHERE ext='zip' AND stage_status=%s AND (sha256 IS NOT NULL AND
    sha256<>'') AND manual_judgement IS NULL] *)
Definition judge_target (only_stage : string) (r : shared_file) : Prop :=
  ext r = "zip" /\ stage_status r = only_stage /\
  truthy (sha256 r) = true /\ manual_judgement r = None.

#[global] Instance judge_target_dec s r : Decision (judge_target s r).
Proof. unfold judge_target. apply _. Defined.

Definition db_select_new_zip_files_for_judge (t : table) (limit : Z) (only_stage : string)
  : list shared_file :=
  limit_if_positive limit
    (merge_sort by_first_seen (filter (judge_target only_stage) (rows t))).

(** [db_update_zip_xml_probe]: the probe columns and the time of the
    check; the note only when one is given. *)
Definition db_update_zip_xml_probe (now : string) (id : Z)
    (has_xml count : option Z) (n : option string) (t : table) : table :=
  update_by_id id
    (fun r => set_note (coalesce (clip_if_given n) (note r)) (set_probe has_xml count now r)) t.

Definition db_update_auto_judgement (id : Z) (a : string) (n : option string) (t : table)
  : table :=
  update_by_id id
    (fun r => set_note (ZipExtract.clip 1024 <$> n) (set_auto_judgement a r)) t.

Definition db_mark_stage_status (id : Z) (s : string) (n : option string) (t : table)
  : table :=
  update_by_id id
    (fun r => set_note (coalesce (clip_if_given n) (note r)) (set_stage_status s r)) t.


(** The columns of a row that only the scan and the operator write. *)
Definition scan_columns (r : shared_file) :=
  (shared_file_id r, path_hash r, path r, file_name r, ext r,
   first_seen_at r, manual_judgement r).

(** The columns of a known row that a new scan leaves alone. *)
Definition rescan_columns (r : shared_file) :=
  (shared_file_id r, path_hash r, first_seen_at r, sha256 r, manual_judgement r).

(** A loop of updates by id over rows read beforehand is one pass over
    the table: each row takes, in order, the updates of the rows read
    that carry its id. *)
Definition passes (G : shared_file -> shared_file -> shared_file)
    (sel : list shared_file) (x : shared_file) : shared_file :=
  foldl (fun x r => if bool_decide (shared_file_id x = shared_file_id r) then G r x else x)
        x sel.

End SharedFiles.

(** ** Stage B: hashing the ZIP files ([scripts/medi_shared_files_hash_zip.py]) *)

Module SharedHash.
Import PyStr SharedScan SharedFiles.

(** What the file system gives for a path: no such file, its content
    hash, or the exception raised while reading. *)
Inductive hashed :=
  | SourceMissing
  | Hashed (sha : string)
  | HashFailed (e : string).

(** [WHERE ext='zip' AND (sha256 IS NULL OR sha256='')], and
    [AND stage_status=%s] unless the stage filter is empty. *)
Definition hash_target (only_stage : string) (r : shared_file) : Prop :=
  ext r = "zip" /\ truthy (sha256 r) = false /\
  (only_stage = "" \/ stage_status r = only_stage).

#[global] Instance hash_target_dec s r : Decision (hash_target s r).
Proof. unfold hash_target. apply _. Defined.

(** The selection of [main]; the limit of a run without limit is the
    largest the server takes, read as no limit. *)
Definition select_targets (t : table) (limit : Z) (only_stage : string)
  : list shared_file :=
  limit_if_positive limit
    (merge_sort by_first_seen (filter (hash_target only_stage) (rows t))).

(** The body of the loop of [main] for one selected row. *)
Definition hash_row (disk : string -> hashed) (t : table) (r : shared_file) : table :=
  let sid := shared_file_id r in
  if sid <=? 0 then t
  else
    match disk (path r) with
    | SourceMissing =>
        update_by_id sid (set_note (Some "source missing when hashing")) t
    | Hashed sha => update_by_id sid (set_sha256 (Some sha)) t
    | HashFailed e => update_by_id sid (set_note (Some ("hash failed: " +:+ e))) t
    end.

Definition main (disk : string -> hashed) (limit : Z) (only_stage : string) (t : table)
  : table :=
  foldl (hash_row disk) t (select_targets t limit only_stage).

(** What the loop body for the row read as [r] makes of a row of the
    table that carries the id of [r]. *)
Definition hashed_row (disk : string -> hashed) (r x : shared_file) : shared_file :=
  if shared_file_id r <=? 0 then x
  else
    match disk (path r) with
    | SourceMissing => set_note (Some "source missing when hashing") x
    | Hashed sha => set_sha256 (Some sha) x
    | HashFailed e => set_note (Some ("hash failed: " +:+ e)) x
    end.

End SharedHash.

(** ** Stage C: the automatic judgement ([scripts/medi_shared_files_auto_judge.py]) *)

Module SharedJudge.
Import PyStr SharedScan SharedFiles ZipInspect.

(** The note of the judgement. *)
Definition judgement (has_xml_db xml_count_db : option Z) : string * string :=
  if bool_decide (has_xml_db = Some 1) then
    ("KENSHIN",
     "auto:KENSHIN (zip_has_xml=1 xml_count="
       +:+ match xml_count_db with Some c => pretty c | None => "?" end +:+ ")")
  else if bool_decide (has_xml_db = Some 0) then
    ("UNKNOWN", "auto:UNKNOWN (zip_has_xml=0)")
  else
    ("UNKNOWN", "auto:UNKNOWN (zip_has_xml=NULL; probe failed or not available)").

(** What the probe step of the loop leaves: the table, and the two
    values the judgement reads. *)
Definition probe_step (disk : string -> probed) (now : string) (probe_always : bool)
    (t : table) (r : shared_file) : table * option Z * option Z :=
  let sid := shared_file_id r in
  if probe_always || bool_decide (zip_has_xml r = None) then
    let pr := probe_zip_has_xml (disk (path r)) in
    if ok pr then
      let h := if has_xml pr then 1 else 0 in
      (db_update_zip_xml_probe now sid (Some h) (Some (xml_count pr)) (note pr) t,
       Some h, Some (xml_count pr))
    else
      (db_update_zip_xml_probe now sid None None
         (Some (if truthy (note pr) then or_empty (note pr) else "zip xml probe failed")) t,
       None, None)
  else (t, zip_has_xml r, zip_xml_count r).

(** The body of the loop of [main] for one selected row. *)
Definition judge_row (disk : string -> probed) (now : string) (probe_always : bool)
    (t : table) (r : shared_file) : table :=
  let sid := shared_file_id r in
  if sid <=? 0 then t
  else
    let '(t1, has_xml_db, xml_count_db) := probe_step disk now probe_always t r in
    let '(auto, n) := judgement has_xml_db xml_count_db in
    db_update_auto_judgement sid auto (Some n) t1.

Definition main (disk : string -> probed) (now : string) (limit : Z) (only_stage : string)
    (probe_always : bool) (t : table) : table :=
  foldl (judge_row disk now probe_always) t
        (db_select_new_zip_files_for_judge t limit only_stage).

(** What the loop body for the row read as [r] makes of a row of the
    table that carries the id of [r]. *)
Definition judged (disk : string -> probed) (now : string) (probe_always : bool)
    (r x : shared_file) : shared_file :=
  if shared_file_id r <=? 0 then x
  else
    let '(x1, has_xml_db, xml_count_db) :=
      if probe_always || bool_decide (zip_has_xml r = None) then
        let pr := probe_zip_has_xml (disk (path r)) in
        if ok pr then
          let h := if has_xml pr then 1 else 0 in
          (set_note (coalesce (clip_if_given (note pr)) (SharedScan.note x))
             (set_probe (Some h) (Some (xml_count pr)) now x),
           Some h, Some (xml_count pr))
        else
          (set_note
             (coalesce
                (clip_if_given
                   (Some (if truthy (note pr) then or_empty (note pr)
                          else "zip xml probe failed")))
                (SharedScan.note x))
             (set_probe None None now x),
           None, None)
      else (x, zip_has_xml r, zip_xml_count r) in
    let '(auto, n) := judgement has_xml_db xml_count_db in
    set_note (ZipExtract.clip 1024 <$> Some n) (set_auto_judgement auto x1).

(** Whether the archive of a row is known to hold XML once the row has
    been through the loop: the probe's answer when the row is probed,
    what the ledger said otherwise. *)
Definition holds_xml (disk : string -> probed) (probe_always : bool) (r : shared_file) : bool :=
  if probe_always || bool_decide (zip_has_xml r = None) then
    let pr := probe_zip_has_xml (disk (path r)) in ok pr && has_xml pr
  else bool_decide (zip_has_xml r = Some 1).

(** No two rows of the table share a [shared_file_id]. *)
Definition ids_distinct (t : table) : Prop :=
  forall h1 h2 r1 r2, t !! h1 = Some r1 -> t !! h2 = Some r2 ->
    shared_file_id r1 = shared_file_id r2 -> h1 = h2.

End SharedJudge.

(** ** Stage G: the header fields of a document ([kenshin_lib/medi/xml_extract.py]) *)

Module XmlHeader.
Import PyStr PyText.










End XmlHeader.

(** ** Reading one member of an archive ([_open_member_bytes] of
       [kenshin_lib/medi/xml_extract.py] and of
       [scripts/medi_xml_item_extract.py]; the two texts are the same) *)

Module ZipMember.
Import PyStr.

(** What [zf.open(name, "r", pwd=pwd)] followed by [fp.read()] does: the
    bytes of the member, or the exception raised, by the classes the
    function tells apart ([RuntimeError] stands for the class and its
    subclasses). *)
Inductive read_result :=
  | Read (b : string)
  | ReadKeyError
  | ReadRuntimeError (msg : string)
  | ReadException (msg : string).

(** An open [zipfile.ZipFile]. *)
Record zip_file := {
  namelist : list string;
  read_member : string -> option string -> read_result
}.

(** How a call ends: a value, a [RuntimeError], or an exception of
    another class. *)
Inductive outcome :=
  | Returns (b : option string)
  | RaisesRuntimeError (msg : string)
  | RaisesException (msg : string).

(** The names tried: the path itself when the archive has it, else the
    names that end with it (one, or the first five of several), else the
    path itself. *)
Definition targets (zf : zip_file) (norm : string) : list string :=
  if bool_decide (norm ∈ namelist zf) then [norm]
  else
    let cands := filter (fun n => ZipImport.endswith ("/" +:+ norm) n
                                  || ZipImport.endswith norm n = true) (namelist zf) in
    match cands with
    | [] => [norm]
    | [c] => [c]
    | _ => take 5 cands
    end.

(** The loop [for t in targets: try: return _try_open(t, pwd) except
    KeyError: continue]: how it ends. *)
Inductive tried :=
  | Opened (b : string)
  | NoneOpened
  | TriedRuntimeError (msg : string)
  | TriedException (msg : string).

Fixpoint try_targets (zf : zip_file) (pwd : option string) (ts : list string) : tried :=
  match ts with
  | [] => NoneOpened
  | t :: rest =>
      match read_member zf t pwd with
      | Read b => Opened b
      | ReadKeyError => try_targets zf pwd rest
      | ReadRuntimeError msg => TriedRuntimeError msg
      | ReadException msg => TriedException msg
      end
  end.

(** The loop over the password candidates, with [last_err] as text. *)
Fixpoint try_passwords (zf : zip_file) (norm : string) (ts : list string)
    (pws : list string) (last_err : option string) : outcome :=
  match pws with
  | [] =>
      match last_err with
      | Some e =>
          RaisesRuntimeError ("password candidates exhausted for " +:+ norm +:+ ": " +:+ e)
      | None => RaisesRuntimeError ("password candidates exhausted for " +:+ norm)
      end
  | pw :: rest =>
      match try_targets zf (Some pw) ts with
      | Opened b => Returns (Some b)
      | NoneOpened => try_passwords zf norm ts rest last_err
      | TriedRuntimeError e | TriedException e => try_passwords zf norm ts rest (Some e)
      end
  end.

(** Whether the text of a [RuntimeError] speaks of encryption. *)
Definition speaks_of_encryption (msg : string) : bool :=
  contains "password required" (lower msg) || contains "encrypted" (lower msg).

(** [_open_member_bytes(zf, inner_path, pwd_candidates=...)]; a missing
    candidate list behaves as the empty one. *)
Definition _open_member_bytes (zf : zip_file) (inner_path : string)
    (pwd_candidates : list string) : outcome :=
  let norm := DbMedi._norm_inner_path inner_path in
  let ts := targets zf norm in
  match try_targets zf None ts with
  | Opened b => Returns (Some b)
  | NoneOpened => Returns None
  | TriedException msg => RaisesException msg
  | TriedRuntimeError msg =>
      if negb (speaks_of_encryption msg) then RaisesRuntimeError msg
      else
        match pwd_candidates with
        | [] =>
            RaisesRuntimeError
              ("zip member is encrypted and no password candidates: " +:+ norm)
        | _ => try_passwords zf norm ts pwd_candidates None
        end
  end.

(** The error code [xml_extract_phase] stores for a [RuntimeError] of
    the call. *)
Definition open_error_code (msg : string) : string :=
  if contains "password" (lower msg) then "ZIP_PASSWORD" else "ZIP_OPEN".

End ZipMember.

(** ** Stage H: the run over the selected receipts
       ([main] of [scripts/medi_xml_item_extract.py]) *)

Module ItemRun.
Import PyStr Xml ItemExtract ZipMember.


(** A row [select_targets_safe] returns, by the columns [main] reads. *)
Record target := {
  t_xml_receipt_id : Z;
  t_xml_sha256 : option string;
  t_zip_sha256 : option string;
  t_zip_inner_path : option string
}.

(** What the run finds outside its own code: [zipfile.ZipFile(path, "r")]
    ([None] when it raises), [etree.fromstring(b, parser)] (the text of
    the exception, or the root element), the attribute names for which
    [node.get] of lxml raises, and the upserts of item rows that the server
    refuses (by [xml_sha256] and row, with the text of the exception).  The
    statements on [medi_xml_process_log] and [medi_xml_receipts] are taken
    to succeed. *)
Record world := {
  open_zip : string -> option zip_file;
  lxml_fromstring : string -> string + element;
  attr_refused : string -> bool;
  upsert_raises : string -> raw_item -> option string
}.

(** Which counter a row advances besides [processed]. *)
Inductive counter := CountOk | CountErr | CountZeroHit | CountNothing.

(** What a row that is finished writes: the item rows upserted, then the
    log row (if any), then the status of the receipt. *)
Record row_writes := {
  w_items : list raw_item;
  w_log : option XmlExtract.process_log;
  w_status : string;
  w_counter : counter
}.

(** A row is finished, or [zipfile.ZipFile] raises and the exception
    leaves [main]. *)
Inductive row_outcome :=
  | Finished (w : row_writes)
  | ZipFileRaises.

Definition failed (message : option string) : row_outcome :=
  Finished {| w_items := [];
              w_log := match message with
                       | Some m => Some (XmlExtract.log "EXTRACT_ITEMS" "ERROR" (Some m))
                       | None => None
                       end;
              w_status := "ERROR"; w_counter := CountErr |}.

(** [_is_cda_clinical_document(root)] *)
Definition _is_cda_clinical_document (root : element) : bool :=
  bool_decide (name root = "ClinicalDocument").

(** The body of the loop of [main] for one target. *)
Definition extract_row (W : world) (d : DbMedi.db) (zip_pw_enabled : bool)
    (item_master_map : gmap string master_hint) (r : target) : row_outcome :=
  let xml_sha := or_empty (t_xml_sha256 r) in
  let zip_sha := or_empty (t_zip_sha256 r) in
  let inner := DbMedi._norm_inner_path (or_empty (t_zip_inner_path r)) in
  if negb (nonempty xml_sha) || negb (nonempty zip_sha) || negb (nonempty inner) then
    failed None
  else
    match DbMedi.zip_receipts d !! zip_sha with
    | None => failed (Some "item_extract: parent zip missing in medi_zip_receipts")
    | Some zrow =>
        if negb (nonempty (DbMedi.zip_path zrow)) then
          failed (Some "item_extract: parent zip missing in medi_zip_receipts")
        else
          match open_zip W (DbMedi.zip_path zrow) with
          | None => ZipFileRaises
          | Some zf =>
              let pwd_candidates :=
                if zip_pw_enabled then
                  Passwords.get_password_candidates (DbMedi.zip_passwords d)
                    (DbMedi.facility_code zrow) (DbMedi.facility_folder_name zrow)
                    (DbMedi.zip_name zrow) zip_sha
                else [] in
              match _open_member_bytes zf inner pwd_candidates with
              | RaisesRuntimeError e | RaisesException e =>
                  failed (Some (XmlExtract._shorten
                                  ("item_extract: zip open failed: "
                                   +:+ XmlExtract._shorten e 1200) 1500))
              | Returns None | Returns (Some EmptyString) =>
                  failed (Some ("item_extract: zip member not found: " +:+ inner))
              | Returns (Some b) =>
                  match lxml_fromstring W b with
                  | inl e =>
                      failed (Some ("item_extract: lxml parse failed: "
                                    +:+ XmlExtract._shorten e 1200))
                  | inr root =>
                      if negb (_is_cda_clinical_document root) then
                        Finished
                          {| w_items := [];
                             w_log := Some (XmlExtract.log "EXTRACT_ITEMS" "SKIP"
                                              (Some "item_extract: not CDA ClinicalDocument"));
                             w_status := "SKIP"; w_counter := CountNothing |}
                      else
                        let rows_out :=
                          _collect_observations_as_raw_items (attr_refused W) root
                            item_master_map in
                        match written_before (upsert_raises W xml_sha) rows_out with
                        | (done, Some e) =>
                            Finished
                              {| w_items := done;
                                 w_log := Some (XmlExtract.log "EXTRACT_ITEMS" "ERROR"
                                                  (Some ("item_extract exception: "
                                                         +:+ XmlExtract._shorten e 1500)));
                                 w_status := "ERROR"; w_counter := CountErr |}
                        | (done, None) =>
                            let written := length done in
                            let result :=
                              if bool_decide (0 < written)%nat then "OK" else "ERROR" in
                            Finished
                              {| w_items := done;
                                 w_log := Some (XmlExtract.log "EXTRACT_ITEMS" result
                                                  (Some ("item_extract: written="
                                                         +:+ pretty written)));
                                 w_status := result;
                                 w_counter := if bool_decide (0 < written)%nat then CountOk
                                              else CountZeroHit |}
                        end
                  end
              end
          end
    end.

(** The state of the run: the table [medi_xml_item_values], the calls of
    [db_insert_xml_process_log] (with the [xml_sha256] passed) and of
    [db_update_items_extract_fields] (receipt id and status; the run id is
    that of the run, and [items_extracted_at_now] is true in every call)
    in the order made, and the four counters. *)
Record run_state := {
  item_values : gmap (string * string * nat) xml_item_value;
  process_logs : list (string * XmlExtract.process_log);
  status_updates : list (Z * string);
  processed : nat;
  ok : nat;
  err : nat;
  zero_hit : nat
}.

Definition start (table : gmap (string * string * nat) xml_item_value) : run_state :=
  {| item_values := table; process_logs := []; status_updates := [];
     processed := 0; ok := 0; err := 0; zero_hit := 0 |}.

(** The writes of a finished row on the state. *)
Definition apply_writes (sha256_text : string -> string) (run_id : Z)
    (st : run_state) (r : target) (w : row_writes) : run_state :=
  let xml_sha := or_empty (t_xml_sha256 r) in
  let zip_sha := or_empty (t_zip_sha256 r) in
  let inner := DbMedi._norm_inner_path (or_empty (t_zip_inner_path r)) in
  {| item_values :=
       foldl (db_upsert_xml_item_value run_id xml_sha zip_sha inner (sha256_text inner))
             (item_values st) (w_items w);
     process_logs :=
       process_logs st ++ match w_log w with Some l => [(xml_sha, l)] | None => [] end;
     status_updates := status_updates st ++ [(t_xml_receipt_id r, w_status w)];
     processed := S (processed st);
     ok := match w_counter w with CountOk => S (ok st) | _ => ok st end;
     err := match w_counter w with CountErr => S (err st) | _ => err st end;
     zero_hit := match w_counter w with CountZeroHit => S (zero_hit st) | _ => zero_hit st end |}.

(** The loop of [main] over the targets; [None] when an exception leaves
    it. *)
Fixpoint run_targets (W : world) (d : DbMedi.db) (sha256_text : string -> string)
    (zip_pw_enabled : bool) (item_master_map : gmap string master_hint) (run_id : Z)
    (targets : list target) (st : run_state) : option run_state :=
  match targets with
  | [] => Some st
  | r :: rest =>
      match extract_row W d zip_pw_enabled item_master_map r with
      | ZipFileRaises => None
      | Finished w =>
          run_targets W d sha256_text zip_pw_enabled item_master_map run_id rest
                      (apply_writes sha256_text run_id st r w)
      end
  end.

(** [return 0 if err == 0 and zero_hit == 0 else 2] *)
Definition exit_code (st : run_state) : Z :=
  if Nat.eqb (err st) 0 && Nat.eqb (zero_hit st) 0 then 0 else 2.

(** How many of the status updates carry a given status. *)
Definition tally (s : string) (updates : list (Z * string)) : nat :=
  length (filter (fun u => u.2 = s) updates).


(** The status a target ends with, when its row is finished. *)
Definition status_of (W : world) (d : DbMedi.db) (zip_pw_enabled : bool)
    (item_master_map : gmap string master_hint) (r : target) : option string :=
  match extract_row W d zip_pw_enabled item_master_map r with
  | Finished w => Some (w_status w)
  | ZipFileRaises => None
  end.

(** The update [main] makes for a target. *)
Definition update_of (W : world) (d : DbMedi.db) (zip_pw_enabled : bool)
    (item_master_map : gmap string master_hint) (r : target) : Z * string :=
  (t_xml_receipt_id r, default "" (status_of W d zip_pw_enabled item_master_map r)).

End ItemRun.

(** ** Stage G: the phase over the pending receipts
       ([xml_extract_phase] of [kenshin_lib/medi/xml_extract.py]) *)

Module XmlExtractPhase.
Import PyStr Xml XmlExtract ZipMember.

(** What the phase finds outside the tables the model holds:
    [zipfile.ZipFile(path, "r")] ([None] when it raises),
    [ET.fromstring(b)] (the text of the exception, if one is raised),
    [etree.fromstring(b, parser)] (the text of the exception, or the
    root), what the later steps deliver for a receipt and its document,
    and the column [updated_at] of a receipt, which the record leaves
    out. *)
Record world := {
  open_zip : string -> option zip_file;
  et_fromstring : string -> option string;
  lxml_fromstring : string -> string + element;
  later_of : DbMedi.xml_receipt -> element -> later_steps;
  updated_at : DbMedi.xml_receipt -> Z
}.

(** [db_select_pending_xmls(cur, status=..., limit=...)] *)
Definition db_select_pending_xmls (W : world) (d : DbMedi.db) (status : string) (lim : Z)
  : list DbMedi.xml_receipt :=
  Sql.limit lim
    (Sql.order_by (fun r => [updated_at W r])
       (filter (fun r => DbMedi.status r = status) (map_to_list (DbMedi.xml_receipts d)).*2)).

(** A row is finished with its log rows (under the hash passed to
    [db_insert_xml_process_log]), its one call of
    [db_update_xml_index_fields] and the counter it advances ([ok] or
    [err]), or an exception leaves the phase. *)
Inductive row_outcome :=
  | Finished (log_sha : string) (logs : list process_log) (update : index_update)
             (counts_ok : bool)
  | Escapes.

Definition error_update (code : string) (message : string) (doc_id : option string)
  : index_update :=
  {| u_status := "ERROR"; u_error_code := Some code; u_error_message := Some message;
     u_document_id := doc_id; u_extracted_run_id := None; u_extracted_at_now := false |}.

(** [f"{bool(s)}"] *)
Definition py_bool_text (b : bool) : string := if b then "True" else "False".

(** ["0" * 64] *)
Definition zeros64 : string := string_of_list_ascii (replicate 64 "0"%char).

(** The body of the loop for one receipt. *)
Definition extract_row (W : world) (d : DbMedi.db) (run_id : Z) (r : DbMedi.xml_receipt)
  : row_outcome :=
  let xml_sha := DbMedi.xml_sha256 r in
  let zip_sha := DbMedi.xr_zip_sha256 r in
  let inner := DbMedi._norm_inner_path (DbMedi.zip_inner_path r) in
  if negb (nonempty xml_sha) || negb (nonempty zip_sha) || negb (nonempty inner) then
    let msg := "row missing key(s): xml_sha=" +:+ py_bool_text (nonempty xml_sha)
               +:+ " zip_sha=" +:+ py_bool_text (nonempty zip_sha)
               +:+ " inner=" +:+ py_bool_text (nonempty inner) in
    Finished (if nonempty xml_sha then xml_sha else zeros64)
             [log "WELLFORMED" "ERROR" (Some (_shorten msg 1000))]
             (error_update "ROW_KEY_MISSING" (_shorten msg 1000) None) false
  else
    let parent_missing :=
      Finished xml_sha
               [log "WELLFORMED" "ERROR" (Some "parent zip not found in medi_zip_receipts")]
               (error_update "PARENT_ZIP_MISSING" "parent zip not found" None) false in
    match DbMedi.zip_receipts d !! zip_sha with
    | None => parent_missing
    | Some zrow =>
        if negb (nonempty (DbMedi.zip_path zrow)) then parent_missing
        else
          match open_zip W (DbMedi.zip_path zrow) with
          | None => Escapes
          | Some zf =>
              let pwd_candidates :=
                Passwords.get_password_candidates (DbMedi.zip_passwords d)
                  (DbMedi.facility_code zrow) (DbMedi.facility_folder_name zrow)
                  (DbMedi.zip_name zrow) zip_sha in
              match _open_member_bytes zf inner pwd_candidates with
              | RaisesException _ => Escapes
              | RaisesRuntimeError e =>
                  let msg := _shorten e 1200 in
                  Finished xml_sha
                    [log "WELLFORMED" "ERROR"
                         (Some (_shorten ("zip open failed: " +:+ msg) 1500))]
                    (error_update (open_error_code e) msg None) false
              | Returns None =>
                  Finished xml_sha
                    [log "WELLFORMED" "ERROR" (Some ("zip member not found: " +:+ inner))]
                    (error_update "ZIP_MEMBER_NOT_FOUND"
                       (_shorten ("zip member not found: " +:+ inner) 1000) None) false
              | Returns (Some b) =>
                  match et_fromstring W b with
                  | Some e =>
                      let msg := _shorten e 1000 in
                      Finished xml_sha [log "WELLFORMED" "ERROR" (Some msg)]
                               (error_update "XML_PARSE" msg None) false
                  | None =>
                      match lxml_fromstring W b with
                      | inl e =>
                          let msg := _shorten e 1000 in
                          Finished xml_sha
                            [log "WELLFORMED" "OK" None;
                             log "WELLFORMED" "ERROR" (Some ("lxml parse: " +:+ msg))]
                            (error_update "XML_PARSE_LXML" msg None) false
                      | inr tree =>
                          let '(logs, update) := extract_parsed run_id tree (later_of W r tree) in
                          Finished xml_sha (log "WELLFORMED" "OK" None :: logs) update
                                   (bool_decide (ledger_error (later_of W r tree) = None))
                      end
                  end
              end
          end
    end.

(** The calls made so far, in order, and the three counters. *)
Record phase_state := {
  process_logs : list (string * process_log);
  index_updates : list (string * index_update);
  processed : nat;
  ok : nat;
  err : nat
}.

Definition start : phase_state :=
  {| process_logs := []; index_updates := []; processed := 0; ok := 0; err := 0 |}.

Definition finish_row (st : phase_state) (r : DbMedi.xml_receipt)
    (log_sha : string) (logs : list process_log) (u : index_update) (counts_ok : bool)
  : phase_state :=
  {| process_logs := process_logs st ++ ((fun l => (log_sha, l)) <$> logs);
     index_updates := index_updates st ++ [(DbMedi.xml_sha256 r, u)];
     processed := S (processed st);
     ok := if counts_ok then S (ok st) else ok st;
     err := if counts_ok then err st else S (err st) |}.

(** The loop of the phase; [None] when an exception leaves it. *)
Fixpoint run_rows (W : world) (d : DbMedi.db) (run_id : Z)
    (rows : list DbMedi.xml_receipt) (st : phase_state) : option phase_state :=
  match rows with
  | [] => Some st
  | r :: rest =>
      match extract_row W d run_id r with
      | Escapes => None
      | Finished log_sha logs u c =>
          run_rows W d run_id rest (finish_row st r log_sha logs u c)
      end
  end.

(** [xml_extract_phase(logger, cur, run_id=..., target_status=..., limit=...)]:
    the state at the return, whose counters are the triple returned. *)
Definition xml_extract_phase (W : world) (d : DbMedi.db) (run_id : Z)
    (target_status : string) (lim : Z) : option phase_state :=
  run_rows W d run_id (db_select_pending_xmls W d target_status lim) start.

(** The update the phase makes for a receipt. *)
Definition update_of (W : world) (d : DbMedi.db) (run_id : Z) (r : DbMedi.xml_receipt)
  : option (string * index_update) :=
  match extract_row W d run_id r with
  | Finished _ _ u _ => Some (DbMedi.xml_sha256 r, u)
  | Escapes => None
  end.

(** The error codes the phase stores. *)
Definition error_codes : list string :=
  ["ROW_KEY_MISSING"; "PARENT_ZIP_MISSING"; "ZIP_PASSWORD"; "ZIP_OPEN";
   "ZIP_MEMBER_NOT_FOUND"; "XML_PARSE"; "XML_PARSE_LXML"; "LEDGER_UPSERT"].

(** An update as the phase makes it: [OK] with the run stamped and no
    error, or [ERROR] with one of the codes, a message and no stamp. *)
Definition well_formed_update (run_id : Z) (u : index_update) : Prop :=
  u_status u = "OK" /\ u_error_code u = None /\ u_error_message u = None /\
    u_extracted_run_id u = Some run_id /\ u_extracted_at_now u = true
  \/
  u_status u = "ERROR" /\ (exists c, u_error_code u = Some c /\ c ∈ error_codes) /\
    is_Some (u_error_message u) /\
    u_extracted_run_id u = None /\ u_extracted_at_now u = false.

(** The steps a receipt that ends [OK] has gone through. *)
Definition all_steps : list string :=
  ["WELLFORMED"; "CDA_INDEX"; "XSD_VALIDATE"; "EXTRACT_ITEMS"; "LEDGER"].

(** How many updates carry the status [OK]. *)
Definition ok_updates (updates : list (string * index_update)) : nat :=
  length (filter (fun u => u_status u.2 = "OK") updates).

End XmlExtractPhase.

(** ** Stage G: what the phase leaves in [medi_xml_receipts]
       ([db_update_xml_index_fields] of [kenshin_lib/medi/db_medi.py]) *)

Module XmlIndex.
Import PyStr XmlExtract XmlExtractPhase DbMedi.

(** A row of [medi_xml_receipts] with the column [extracted_at], which
    the record of the import stage leaves out. *)
Record indexed := {
  receipt : xml_receipt;
  extracted_at : option timestamp
}.

(** Which of the two optional columns the table has ([db_has_column]). *)
Record columns := {
  has_extracted_at : bool;
  has_extracted_run : bool
}.

(** The [SET] list of the statement on one row. *)
Definition set_index_fields (C : columns) (u : index_update) (r : xml_receipt) : xml_receipt :=
  {| xml_receipt_id := xml_receipt_id r;
     xr_zip_sha256 := xr_zip_sha256 r;
     zip_inner_path := zip_inner_path r;
     zip_inner_path_sha256 := zip_inner_path_sha256 r;
     xml_sha256 := xml_sha256 r;
     file_size := file_size r;
     file_mtime := file_mtime r;
     status := u_status u;
     xr_error_code := u_error_code u;
     xr_error_message := _clip_text (u_error_message u) 8000;
     xr_facility_code := xr_facility_code r;
     xr_facility_name := xr_facility_name r;
     xr_first_seen_run_id := xr_first_seen_run_id r;
     xr_first_seen_at := xr_first_seen_at r;
     xr_last_seen_run_id := xr_last_seen_run_id r;
     xr_last_seen_at := xr_last_seen_at r;
     document_id := u_document_id u;
     extracted_run_id :=
       if has_extracted_run C then u_extracted_run_id u else extracted_run_id r;
     items_extract_status := items_extract_status r;
     items_extracted_run_id := items_extracted_run_id r |}.

(** [db_update_xml_index_fields]: [UPDATE medi_xml_receipts SET ... WHERE
    xml_sha256=%s], at the clock reading [now]. *)
Definition db_update_xml_index_fields (C : columns) (now : timestamp)
    (xml_sha : string) (u : index_update) (t : gmap string indexed) : gmap string indexed :=
  (fun x =>
     if bool_decide (xml_sha256 (receipt x) = xml_sha) then
       {| receipt := set_index_fields C u (receipt x);
          extracted_at := if u_extracted_at_now u && has_extracted_at C then Some now
                          else extracted_at x |}
     else x) <$> t.

(** The updates of a phase, in the order made; [clock] gives the reading
    at the update of a receipt. *)
Definition apply_updates (C : columns) (clock : string -> timestamp)
    (updates : list (string * index_update)) (t : gmap string indexed) : gmap string indexed :=
  foldl (fun t su => db_update_xml_index_fields C (clock su.1) su.1 su.2 t) t updates.

(** What the updates of a phase make of one row: each update whose hash
    is the row's, in order. *)
Definition pass (C : columns) (clock : string -> timestamp)
    (updates : list (string * index_update)) (x : indexed) : indexed :=
  foldl (fun x su =>
           if bool_decide (xml_sha256 (receipt x) = su.1) then
             {| receipt := set_index_fields C su.2 (receipt x);
                extracted_at := if u_extracted_at_now su.2 && has_extracted_at C
                                then Some (clock su.1) else extracted_at x |}
           else x) x updates.

(** The columns the statement does not name. *)
Definition unnamed_columns (r : xml_receipt) :=
  (xml_receipt_id r, xr_zip_sha256 r, zip_inner_path r, zip_inner_path_sha256 r,
   xml_sha256 r, file_size r, file_mtime r, xr_facility_code r, xr_facility_name r,
   xr_first_seen_run_id r, xr_first_seen_at r, xr_last_seen_run_id r, xr_last_seen_at r,
   items_extract_status r, items_extracted_run_id r).

(** The database with the receipts of a table in place of its own. *)
Definition with_receipts (t : gmap string indexed) (d : db) : db :=
  set_xml_receipts (next_xml_receipt_id d) (receipt <$> t) d.

(** Every row sits under its own hash. *)
Definition keyed (t : gmap string indexed) : Prop :=
  forall k x, t !! k = Some x -> xml_sha256 (receipt x) = k.

End XmlIndex.

(** ** The ledger of shared files: what identifies a row *)

Module LedgerKeys.
Import SharedScan.

(** The ledger under its path-hash key with its id counter: every row
    sits under its own path hash, ids are positive, lie below the counter
    and are given once. *)
Definition ledger_keyed (t : gmap string shared_file * Z) : Prop :=
  ReceiptKeys.keyed_by path_hash shared_file_id t /\
  0 < t.2 /\
  forall h r, t.1 !! h = Some r -> 0 < shared_file_id r.

End LedgerKeys.

(** ** More example data *)

Module StageExamples.
Import SharedScan.

(** A ZIP of the ledger after scan and hashing, not yet judged. *)
Definition new_zip_row : shared_file :=
  {| shared_file_id := 8; path_hash := "h8"; path := "/share/B_clinic/Z8.zip";
     src_folder_raw := Some "B_clinic"; dst_folder_norm := None;
     facility_hint := Some "share/B_clinic"; file_name := "Z8.zip"; ext := "zip";
     file_size := 4096; mtime := Some "2026-01-22 10:00:00.000000";
     sha256 := Some "d41d8c"; auto_judgement := "UNKNOWN";
     manual_judgement := None; stage_status := "NEW";
     note := None; first_seen_at := "2026-01-23 08:00:00.000000";
     last_seen_at := "2026-01-23 08:00:00.000000";
     zip_has_xml := None; zip_xml_count := None; zip_xml_checked_at := None |}.

(** The member names of its central directory. *)
Definition new_zip_members : list string := ["DATA/"; "DATA/X1.XML"; "readme.txt"].

End StageExamples.

Module RunExamples.
Import Xml ItemExtract ItemRun ZipMember.

(** A clinical document with one coded observation. *)
Definition x1_document : element :=
  Element NS_HL7 "ClinicalDocument" [] None
    [Element NS_HL7 "component" [] None
       [Element NS_HL7 "observation" [] None
          [Element NS_HL7 "code" [("code", "9A755")] None [] None;
           Element NS_HL7 "value" [("value", "5.6"); ("unit", "mg/dL")] None [] None]
          None] None] None.

(** Every path opens as an archive whose one member is [DATA/X1.xml]. *)
Definition x1_archive : zip_file :=
  {| namelist := ["DATA/X1.xml"];
     read_member := fun n _ =>
       if bool_decide (n = "DATA/X1.xml") then Read "<ClinicalDocument/>" else ReadKeyError |}.




(** The receipt of [X1.xml] as the first import leaves it, alone in its
    table, and the database of that import around it. *)
Definition x1_receipt : DbMedi.xml_receipt :=
  {| DbMedi.xml_receipt_id := 1; DbMedi.xr_zip_sha256 := "z1";
     DbMedi.zip_inner_path := "DATA/X1.xml";
     DbMedi.zip_inner_path_sha256 := Some "sha256:DATA/X1.xml";
     DbMedi.xml_sha256 := "x1"; DbMedi.file_size := Some 900;
     DbMedi.file_mtime := Some "2026-01-20 10:00:00.000000";
     DbMedi.status := "PENDING"; DbMedi.xr_error_code := None;
     DbMedi.xr_error_message := None; DbMedi.xr_facility_code := Some "0001";
     DbMedi.xr_facility_name := Some "Clinic";
     DbMedi.xr_first_seen_run_id := 1; DbMedi.xr_first_seen_at := 100;
     DbMedi.xr_last_seen_run_id := 1; DbMedi.xr_last_seen_at := 100;
     DbMedi.document_id := None; DbMedi.extracted_run_id := None;
     DbMedi.items_extract_status := None; DbMedi.items_extracted_run_id := None |}.

Definition x1_table : gmap string XmlIndex.indexed :=
  {[ "x1" := {| XmlIndex.receipt := x1_receipt; XmlIndex.extracted_at := None |} ]}.

Definition x1_db : DbMedi.db := XmlIndex.with_receipts x1_table Examples.c2_run1.1.

(** Both parsers accept the member, no schema directory is set, and the
    ledger takes the row. *)
Definition x1_phase_world : XmlExtractPhase.world :=
  {| XmlExtractPhase.open_zip := fun _ => Some x1_archive;
     XmlExtractPhase.et_fromstring := fun _ => None;
     XmlExtractPhase.lxml_fromstring := fun _ => inr x1_document;
     XmlExtractPhase.later_of := fun _ _ =>
       {| XmlExtract.xsd := XmlExtract.XsdRootMissing;
          XmlExtract.header_warnings := None; XmlExtract.ledger_error := None |};
     XmlExtractPhase.updated_at := fun _ => 0 |}.

Definition x1_columns : XmlIndex.columns :=
  {| XmlIndex.has_extracted_at := true; XmlIndex.has_extracted_run := true |}.

(** Phase 7 over the pending receipts of [x1_db]. *)
Definition x1_phase : option XmlExtractPhase.phase_state :=
  XmlExtractPhase.xml_extract_phase x1_phase_world x1_db 7 "PENDING" 500.

End RunExamples.

(** * Properties *)

(** ** Facts about the SQL helpers *)

Module SqlFacts.
Import Sql.

Lemma key_le_refl k : key_le k k.
Proof. induction k as [|a k IH]; simpl; auto. Qed.

Lemma key_le_trans k1 k2 k3 : key_le k1 k2 -> key_le k2 k3 -> key_le k1 k3.
Proof.
  revert k2 k3. induction k1 as [|a k1 IH]; intros [|b k2] [|c k3]; simpl; try tauto.
  intros [Hab|[-> H12]] [Hbc|[-> H23]]; try (left; lia).
  right. split; [done|]. by eapply IH.
Qed.

Lemma key_le_total k1 k2 : key_le k1 k2 \/ key_le k2 k1.
Proof.
  revert k2. induction k1 as [|a k1 IH]; intros [|b k2]; simpl; try tauto.
  destruct (Z.lt_trichotomy a b) as [?|[->|?]]; try tauto.
  destruct (IH k2); tauto.
Qed.

#[global] Instance row_le_trans {A} (key : A -> list Z) : Transitive (row_le key).
Proof. intros x y z. unfold row_le. apply key_le_trans. Qed.

#[global] Instance row_le_total {A} (key : A -> list Z) : Total (row_le key).
Proof. intros x y. unfold row_le. apply key_le_total. Qed.

Lemma order_by_perm {A} (key : A -> list Z) rows : order_by key rows ≡ₚ rows.
Proof. apply merge_sort_Permutation. Qed.

Lemma order_by_elem {A} (key : A -> list Z) rows x :
  x ∈ order_by key rows <-> x ∈ rows.
Proof. by rewrite order_by_perm. Qed.

Lemma order_by_sorted {A} (key : A -> list Z) rows :
  StronglySorted (row_le key) (order_by key rows).
Proof. apply StronglySorted_merge_sort; apply _. Qed.



Lemma limit_elem {A} n (rows : list A) x : x ∈ limit n rows -> x ∈ rows.
Proof. unfold limit. intros H. by eapply subseteq_take. Qed.

End SqlFacts.

(** ** Stage I: Normalize-Values *)

Module NormalizeProofs.
Import PyStr Sql SqlFacts Normalize.
Import Examples.

Lemma select_targets_spec table lim t :
  t ∈ select_targets table lim ->
  t ∈ table /\ status t = RAW /\ truthy (value t) = false.
Proof.
  unfold select_targets. intros H%limit_elem%order_by_elem%list_elem_of_filter.
  destruct H as [Ht Hin]. split; [done|].
  unfold is_target in Ht. apply andb_true_iff in Ht as [H1 H2].
  apply bool_decide_eq_true in H1. by apply negb_true_iff in H2.
Qed.







(** The numeric test is Python's [float]: it takes digit-group underscores
    and the non-numbers [nan] and [inf]. *)
Example pq_float_accepts :
  let m := {| m_namecode := "9A755"; xml_value_type := Some "PQ"; result_code_oid := None |} in
  verdict_of (dispatch [] m (Some "1_000")) = Stored "1_000" /\
  verdict_of (dispatch [] m (Some "nan")) = Stored "nan" /\
  verdict_of (dispatch [] m (Some "1,000")) = Failed.
Proof. repeat split; reflexivity. Qed.

End NormalizeProofs.

(** ** Candidate lists *)

Module CandidatesFacts.
Import PyStr Candidates.

Lemma nonempty_true s : nonempty s = true <-> s <> "".
Proof. destruct s; simpl; split; congruence. Qed.

Lemma foldl_step_keep_first seen out pws :
  list_to_set out = seen ->
  (foldl step (seen, out) pws).2 = out ++ keep_first seen pws.
Proof.
  revert seen out. induction pws as [|pw rest IH]; intros seen out Hseen; simpl.
  - by rewrite app_nil_r.
  - fold (norm pw). destruct (nonempty (norm pw)); simpl; [|by apply IH].
    case_bool_decide; simpl; [by apply IH|].
    rewrite IH; [by rewrite <- app_assoc|].
    rewrite list_to_set_app_L, Hseen. simpl. set_solver.
Qed.

Lemma trim_dedup_keep_first pws : trim_dedup pws = keep_first ∅ pws.
Proof. unfold trim_dedup. by rewrite foldl_step_keep_first. Qed.

Lemma elem_of_keep_first seen pws p :
  p ∈ keep_first seen pws <->
  p <> "" /\ p ∉ seen /\ exists pw, pw ∈ pws /\ norm pw = p.
Proof.
  revert seen. induction pws as [|pw rest IH]; intros seen; simpl.
  - split; [by intros ?%not_elem_of_nil|].
    intros (_ & _ & pw & Hin & _). by apply not_elem_of_nil in Hin.
  - destruct (nonempty (norm pw)) eqn:Hne; simpl.
    + apply nonempty_true in Hne. case_bool_decide as Hseen.
      * rewrite IH. split.
        -- intros (? & ? & q & ? & ?). repeat split; try done. exists q. split; [by right|done].
        -- intros (? & ? & q & [->|?]%elem_of_cons & ?); [congruence|]. eauto.
      * rewrite elem_of_cons, IH. split.
        -- intros [->|(? & Hns & q & ? & ?)].
           ++ repeat split; try done. exists pw. split; [left|done].
           ++ repeat split; try done; [set_solver|]. exists q. split; [by right|done].
        -- intros (? & ? & q & [->|?]%elem_of_cons & Hq); [by left|].
           destruct (decide (p = norm pw)) as [->|Hd]; [by left|right].
           repeat split; try done; [set_solver|]. eauto.
    + assert (norm pw = "") as Hemp by (destruct (norm pw); simpl in *; congruence).
      rewrite IH. split.
      * intros (? & ? & q & ? & ?). repeat split; try done. exists q. split; [by right|done].
      * intros (? & ? & q & [->|?]%elem_of_cons & ?); [congruence|]. eauto.
Qed.

Lemma NoDup_keep_first seen pws : NoDup (keep_first seen pws).
Proof.
  revert seen. induction pws as [|pw rest IH]; intros seen; simpl; [constructor|].
  destruct (negb (nonempty (norm pw)) || bool_decide (norm pw ∈ seen)); [apply IH|].
  constructor; [|apply IH].
  rewrite elem_of_keep_first. intros (_ & Hn & _). set_solver.
Qed.

(** An entry of the result stands for an input entry that no earlier
    input entry stands for, and every later result entry first occurs
    after it in the input. *)
Lemma keep_first_order seen pws c1 p c2 :
  keep_first seen pws = c1 ++ p :: c2 ->
  exists l1 x l2, pws = l1 ++ x :: l2 /\ norm x = p /\
    (forall y, y ∈ l1 -> norm y <> p) /\
    (forall q y, q ∈ c2 -> y ∈ l1 -> norm y <> q).
Proof.
  revert seen c1. induction pws as [|pw rest IH]; intros seen c1 Heq; simpl in Heq.
  - by destruct c1.
  - destruct (negb (nonempty (norm pw)) || bool_decide (norm pw ∈ seen)) eqn:Hskip.
    + destruct (IH _ _ Heq) as (l1 & x & l2 & Hl & Hx & Hp & Hq).
      assert (forall q, q ∈ keep_first seen rest -> norm pw <> q) as Hout.
      { intros q (Hq1 & Hq2 & _)%elem_of_keep_first Hn. subst q.
        apply orb_true_iff in Hskip as [Hs|Hs].
        - apply negb_true_iff in Hs. apply nonempty_true in Hq1. congruence.
        - by apply bool_decide_eq_true in Hs. }
      exists (pw :: l1), x, l2. split; [by rewrite Hl|]. split; [done|]. split.
      * intros y [->|?]%elem_of_cons; [|by apply Hp].
        apply Hout. rewrite Heq. set_solver.
      * intros q y Hqc [->|?]%elem_of_cons; [|by eapply Hq].
        apply Hout. rewrite Heq. set_solver.
    + destruct c1 as [|c c1]; simplify_eq/=.
      * exists [], pw, rest. split; [done|]. split; [done|].
        split; [by intros y ?%not_elem_of_nil | by intros q y _ ?%not_elem_of_nil].
      * destruct (IH _ _ H0) as (l1 & x & l2 & Hl & Hx & Hp & Hq).
        assert (forall q, q ∈ keep_first ({[norm pw]} ∪ seen) rest -> norm pw <> q)
          as Hout.
        { intros q (_ & Hq2 & _)%elem_of_keep_first Hn. subst q. set_solver. }
        exists (pw :: l1), x, l2. split; [by rewrite Hl|]. split; [done|]. split.
        -- intros y [->|?]%elem_of_cons; [|by apply Hp].
           apply Hout. rewrite H0. set_solver.
        -- intros q y Hqc [->|?]%elem_of_cons; [|by eapply Hq].
           apply Hout. rewrite H0. set_solver.
Qed.

End CandidatesFacts.

(** ** Component K: the password resolver *)

Module PasswordsProofs.
Import PyStr Sql SqlFacts Candidates CandidatesFacts Passwords.
Import Examples.

Lemma elem_of_select_rows table fc ffn zn zs r :
  r ∈ select_rows table fc ffn zn zs <-> r ∈ table /\ matches fc ffn zn zs r.
Proof.
  unfold select_rows. rewrite order_by_elem, list_elem_of_filter. tauto.
Qed.

(** C6, as amended: the resolver returns the active matching password
    texts after trimming them, leaves out texts that are NULL or empty
    once trimmed, keeps one entry per trimmed text, and orders the
    entries by their best row under scope precedence (ZIP_SHA256, then
    ZIP_NAME, then FACILITY), then priority, then password id; nothing
    matching gives the empty list. *)
Theorem C6_candidates_trimmed_ordered
    (table : list zip_password) (fc ffn zn zs : string) :
  let cands := get_password_candidates table fc ffn zn zs in
  let text r := strip (or_empty (password_text r)) in
  NoDup cands /\
  (forall p, p ∈ cands <->
     p <> "" /\ exists r, r ∈ table /\ matches fc ffn zn zs r /\ text r = p) /\
  (forall c1 p c2 q, cands = c1 ++ p :: c2 -> q ∈ c2 ->
     exists r, r ∈ table /\ matches fc ffn zn zs r /\ text r = p /\
       forall r', r' ∈ table -> matches fc ffn zn zs r' -> text r' = q ->
                  key_le (order_key r) (order_key r')) /\
  ((forall r, r ∈ table -> ~ matches fc ffn zn zs r) -> cands = []).
Proof.
  intros cands text. subst cands. unfold get_password_candidates.
  rewrite trim_dedup_keep_first.
  split; [apply NoDup_keep_first|]. split; [|split].
  - intros p. rewrite elem_of_keep_first. split.
    + intros (Hne & _ & pw & Hin & Hn). split; [done|].
      apply list_elem_of_fmap in Hin as (r & -> & Hr).
      apply elem_of_select_rows in Hr as [? ?]. by exists r.
    + intros (Hne & r & Hr & Hm & Ht). split; [done|]. split; [set_solver|].
      exists (password_text r). split; [|done].
      apply list_elem_of_fmap. exists r. split; [done|]. by apply elem_of_select_rows.
  - intros c1 p c2 q Heq Hq.
    apply keep_first_order in Heq as (l1 & x & l2 & Hl & Hx & _ & Hord).
    apply fmap_app_inv in Hl as (L1 & L2' & -> & Hl2 & Hsel).
    symmetry in Hl2. apply fmap_cons_inv in Hl2 as (r & L2 & -> & -> & ->).
    assert (r ∈ select_rows table fc ffn zn zs) as Hr by (rewrite Hsel; set_solver).
    apply elem_of_select_rows in Hr as [Hrt Hrm].
    exists r. split; [done|]. split; [done|]. split; [done|].
    intros r' Hr' Hm' Ht'.
    assert (r' ∈ select_rows table fc ffn zn zs) as Hin by by apply elem_of_select_rows.
    rewrite Hsel in Hin. apply elem_of_app in Hin as [Hin|Hin].
    + exfalso. apply (Hord q (password_text r') Hq); [|done].
      apply list_elem_of_fmap. by exists r'.
    + apply elem_of_cons in Hin as [->|Hin]; [apply key_le_refl|].
      pose proof (order_by_sorted order_key
                    (filter (matches fc ffn zn zs) table)) as Hs.
      fold (select_rows table fc ffn zn zs) in Hs. rewrite Hsel in Hs.
      apply StronglySorted_app_1_r, StronglySorted_cons in Hs as [Hall _].
      rewrite Forall_forall in Hall. by apply Hall.
  - intros Hnone.
    assert (select_rows table fc ffn zn zs = []) as ->; [|done].
    destruct (select_rows table fc ffn zn zs) as [|r l] eqn:E; [done|].
    assert (r ∈ select_rows table fc ffn zn zs) as Hr by (rewrite E; left).
    apply elem_of_select_rows in Hr as [Hr Hm]. by destruct (Hnone r Hr).
Qed.

(** C6 as stated fails: a stored text with blanks around it is returned
    trimmed, not as the stored text. *)
Lemma C6_stored_text_counterexample :
  get_password_candidates [c6_row] "" "" "Z2.zip" "abc123" = ["P2"] /\
  stated_candidates [c6_row] "" "" "Z2.zip" "abc123" = [" P2 "].
Proof. split; reflexivity. Qed.

End PasswordsProofs.

(** ** ZIP extraction with password candidates *)

Module ZipExtractFacts.
Import PyStr Candidates CandidatesFacts ZipExtract.

Lemma try_candidates_moves_on zf c rest le lrm :
  moves_on (extractall zf c) ->
  exists lrm', try_candidates zf (c :: rest) le lrm =
               try_candidates zf rest (Some (error_text (extractall zf c))) lrm'.
Proof.
  simpl. destruct (extractall zf c) as [|msg|msg|msg|msg]; simpl; try done; intros _.
  - exists msg. by repeat case_match.
  - by exists lrm.
  - by exists lrm.
Qed.

(** The first candidate that extracts decides the result. *)
Lemma try_candidates_first_success zf pre pw post le lrm :
  Forall (fun c => moves_on (extractall zf c)) pre ->
  extractall zf pw = Extracted ->
  try_candidates zf (pre ++ pw :: post) le lrm = result_ok pw.
Proof.
  intros Hpre Hpw. revert le lrm.
  induction Hpre as [|c pre Hc Hpre IH]; intros le lrm.
  - simpl. by rewrite Hpw.
  - destruct (try_candidates_moves_on zf c (pre ++ pw :: post) le lrm Hc) as [lrm' Heq].
    simpl app. rewrite Heq. apply IH.
Qed.

(** The first [FileNotFoundError] ends the loop. *)
Lemma try_candidates_first_not_found zf pre pw post msg le lrm :
  Forall (fun c => moves_on (extractall zf c)) pre ->
  extractall zf pw = RaiseFileNotFoundError msg ->
  try_candidates zf (pre ++ pw :: post) le lrm = result_error "ZIP_LONG_PATH" (clip 2000 msg).
Proof.
  intros Hpre Hpw. revert le lrm.
  induction Hpre as [|c pre Hc Hpre IH]; intros le lrm.
  - simpl. by rewrite Hpw.
  - destruct (try_candidates_moves_on zf c (pre ++ pw :: post) le lrm Hc) as [lrm' Heq].
    simpl app. rewrite Heq. apply IH.
Qed.

(** When every attempt moves on, the last error is the one reported. *)
Lemma try_candidates_exhausted zf cands c le lrm :
  Forall (fun c => moves_on (extractall zf c)) (cands ++ [c]) ->
  try_candidates zf (cands ++ [c]) le lrm =
    result_error "ZIP_PASSWORD" (clip 2000 (error_text (extractall zf c))).
Proof.
  revert le lrm. induction cands as [|c' cands IH]; intros le lrm Hall.
  - apply Forall_cons in Hall as [Hc _].
    destruct (try_candidates_moves_on zf c [] le lrm Hc) as [lrm' Heq].
    simpl app. by rewrite Heq.
  - apply Forall_cons in Hall as [Hc Hall].
    destruct (try_candidates_moves_on zf c' (cands ++ [c]) le lrm Hc) as [lrm' Heq].
    simpl app. rewrite Heq. by apply IH.
Qed.

(** The candidates tried: the given texts trimmed, without empty ones,
    one entry per text in the order of first occurrence, then [None]. *)
Lemma candidates_shape pwd :
  exists ps, candidates pwd = (Some <$> ps) ++ [None] /\ NoDup ps /\
    (forall p, p ∈ ps <-> p <> "" /\ exists q, q ∈ pwd /\ strip q = p) /\
    (forall c1 p c2, ps = c1 ++ p :: c2 ->
       exists l1 x l2, pwd = l1 ++ x :: l2 /\ strip x = p /\
         (forall y, y ∈ l1 -> strip y <> p) /\
         (forall q y, q ∈ c2 -> y ∈ l1 -> strip y <> q)).
Proof.
  exists (trim_dedup (Some <$> pwd)). split; [done|].
  rewrite trim_dedup_keep_first. split; [apply NoDup_keep_first|]. split.
  - intros p. rewrite elem_of_keep_first. split.
    + intros (Hne & _ & pw & Hin & Hn). split; [done|].
      apply list_elem_of_fmap in Hin as (q & -> & Hq). by exists q.
    + intros (Hne & q & Hq & Hs). split; [done|]. split; [set_solver|].
      exists (Some q). split; [|done]. apply list_elem_of_fmap. by exists q.
  - intros c1 p c2 Heq.
    apply keep_first_order in Heq as (l1 & x & l2 & Hl & Hx & Hp & Hq).
    apply fmap_app_inv in Hl as (L1 & L2' & -> & Hl2 & ->).
    symmetry in Hl2. apply fmap_cons_inv in Hl2 as (x' & L2 & -> & -> & ->).
    exists L1, x', L2. split; [done|]. split; [done|]. split.
    + intros y Hy. apply (Hp (Some y)). apply list_elem_of_fmap. by exists y.
    + intros q y Hqc Hy. apply (Hq q (Some y) Hqc). apply list_elem_of_fmap. by exists y.
Qed.

End ZipExtractFacts.

(** ** Stage F: the receipt writers and the per-ZIP step *)

Module ZipImportFacts.
Import PyStr ZipExtract ZipImport DbMedi ZipImportPhase ZipImportSpec.

Section frame.
Context (E : env) (now : timestamp) (run_id : Z).

Lemma same_zip_side_refl d : same_zip_side d d.
Proof. by repeat split. Qed.

Lemma same_zip_side_trans d1 d2 d3 :
  same_zip_side d1 d2 -> same_zip_side d2 d3 -> same_zip_side d1 d3.
Proof. unfold same_zip_side. intros (?&?&?&?&?&?) (?&?&?&?&?&?). repeat split; congruence. Qed.

Lemma process_xml_frame zsha fcode fname wf d xf :
  same_zip_side d (process_xml E now run_id zsha fcode fname wf d xf).
Proof.
  unfold process_xml. destruct xf as [p [name info|name ch]]; simpl;
    [|apply same_zip_side_refl].
  unfold db_upsert_xml_receipt, db_insert_xml_receipt_run.
  destruct (upsert_xml_row _ _ _ _ _) as [[t n] id].
  by destruct (read_error info).
Qed.

Lemma process_xmls_in_zip_frame zsha root fcode fname wf d :
  same_zip_side d (process_xmls_in_zip E now run_id zsha root fcode fname wf d).
Proof.
  unfold process_xmls_in_zip. generalize (collect_xml root). intros files.
  revert d. induction files as [|xf files IH]; intros d; simpl;
    [apply same_zip_side_refl|].
  eapply same_zip_side_trans; [apply process_xml_frame|apply IH].
Qed.

Lemma import_zip_zip_side xe xw folder z zsha d :
  let d' := import_zip E now run_id xe xw folder z zsha d in
  zip_receipts d' = <[zsha := zip_row_after E now run_id folder z zsha d]> (zip_receipts d) /\
  zip_receipt_runs d' = <[(run_id, zsha) := zip_run_after now run_id zsha d]> (zip_receipt_runs d) /\
  zip_passwords d' = zip_passwords d /\ next_run_id d' = next_run_id d /\
  import_runs d' = import_runs d.
Proof.
  unfold import_zip, zip_row_after, zip_run_after, structure_of_zip.
  destruct (parse_facility_folder_name folder) as [fcode fname].
  destruct (structure_of _ _) as [s emsg].
  unfold db_upsert_zip_receipt, db_get_zip_receipt_id_by_sha.
  destruct (zip_receipts d !! zsha) as [old|] eqn:Hold; simpl.
  all: destruct (xe && bool_decide (s_status s = "OK")).
  all: try (match goal with
            |- context [process_xmls_in_zip ?a ?b ?c ?d0 ?e ?f ?g ?h ?i] =>
              destruct (process_xmls_in_zip_frame d0 e f g h i) as (-> & -> & _ & -> & -> & ->)
            end).
  all: simpl; unfold db_insert_zip_receipt_run; simpl.
  all: destruct (zip_receipt_runs_has_message E); by repeat split.
Qed.

End frame.

End ZipImportFacts.

(** ** Encrypted archives: the candidate loop and the receipt it leads to *)

Module ZipExtractProofs.
Import PyStr Candidates ZipExtract ZipExtractFacts ZipImport DbMedi ZipImportPhase
       ZipImportSpec ZipImportFacts.
Import Examples.

Lemma structure_of_failed res root code :
  ok res = false -> error_code res = Some code -> code <> "" ->
  s_status (structure_of res root).1 = "ERROR" /\
  s_error_code (structure_of res root).1 = Some code.
Proof.
  intros Hok Hcode Hne. unfold structure_of. rewrite Hok, Hcode. simpl.
  destruct code; [done|]. done.
Qed.

Lemma structure_of_extracted res root :
  ok res = true -> (structure_of res root).1 = classify root.
Proof. intros Hok. unfold structure_of. by rewrite Hok. Qed.

(** C5: on an encrypted archive the stage tries the trimmed, non-empty,
    de-duplicated candidates in order and the no-password attempt last.
    Every [RuntimeError] (bad password, password required, or any other)
    and every other exception moves on to the next candidate; a
    [FileNotFoundError] ends the loop with [ZIP_LONG_PATH]; the first
    candidate that extracts wins; when all candidates are used up the
    result is not ok, with [ZIP_PASSWORD] and the text of the last error.
    The receipt written for the run is then [ERROR]/[ZIP_PASSWORD], and a
    run whose candidate list reaches a working password writes the
    receipt of the extracted structure instead. *)
Theorem C5_candidate_loop (zf : zip_archive) (pwd : list string) :
  encrypted zf = true ->
  let cands := candidates pwd in
  let res := extract_zip_to_temp (Opened zf) pwd in
  let tried_in_vain pre := Forall (fun c => moves_on (extractall zf c)) pre in
  (exists ps, cands = (Some <$> ps) ++ [None] /\ NoDup ps /\
     (forall p, p ∈ ps <-> p <> "" /\ exists q, q ∈ pwd /\ strip q = p) /\
     (forall c1 p c2, ps = c1 ++ p :: c2 ->
        exists l1 x l2, pwd = l1 ++ x :: l2 /\ strip x = p /\
          (forall y, y ∈ l1 -> strip y <> p) /\
          (forall q y, q ∈ c2 -> y ∈ l1 -> strip y <> q))) /\
  (forall pre pw post, cands = pre ++ pw :: post -> tried_in_vain pre ->
     extractall zf pw = Extracted -> res = result_ok pw) /\
  (forall pre pw post msg, cands = pre ++ pw :: post -> tried_in_vain pre ->
     extractall zf pw = RaiseFileNotFoundError msg ->
     res = result_error "ZIP_LONG_PATH" (clip 2000 msg)) /\
  (tried_in_vain cands ->
     res = result_error "ZIP_PASSWORD" (clip 2000 (error_text (extractall zf None)))) /\
  (forall E now run_id xe xw folder z zsha d,
     zf_open z = Opened zf ->
     Passwords.get_password_candidates (zip_passwords d)
       (parse_facility_folder_name folder).1 folder (zf_name z) zsha = pwd ->
     let row := zip_receipts (import_zip E now run_id xe xw folder z zsha d) !! zsha in
     (tried_in_vain cands ->
        structure_status <$> row = Some "ERROR" /\
        zr_error_code <$> row = Some (Some "ZIP_PASSWORD")) /\
     (forall pre pw post, cands = pre ++ pw :: post -> tried_in_vain pre ->
        extractall zf pw = Extracted ->
        structure_status <$> row = Some (s_status (classify (content zf))) /\
        zr_error_code <$> row = Some (s_error_code (classify (content zf))))).
Proof.
  intros Henc cands res tried.
  assert (res = try_candidates zf cands None "") as Hres.
  { subst res. unfold extract_zip_to_temp. by rewrite Henc. }
  assert (forall pre pw post, cands = pre ++ pw :: post -> tried pre ->
            extractall zf pw = Extracted -> res = result_ok pw) as Hwin.
  { intros pre pw post Hc Hpre Hpw. rewrite Hres, Hc.
    by apply try_candidates_first_success. }
  assert (tried cands ->
          res = result_error "ZIP_PASSWORD" (clip 2000 (error_text (extractall zf None))))
    as Hlost.
  { intros Hall. rewrite Hres. subst cands. unfold candidates in *.
    by apply try_candidates_exhausted. }
  split; [apply candidates_shape|]. split; [exact Hwin|]. split; [|split; [exact Hlost|]].
  - intros pre pw post msg Hc Hpre Hpw. rewrite Hres, Hc.
    by apply try_candidates_first_not_found.
  - intros E now run_id xe xw folder z zsha d Hopen Hpwd row.
    destruct (import_zip_zip_side E now run_id xe xw folder z zsha d) as (Hrow & _).
    subst row. rewrite Hrow, lookup_insert_eq. simpl.
    unfold zip_row_after, structure_of_zip.
    destruct (parse_facility_folder_name folder) as [fcode fname] eqn:Hparse.
    simpl in Hpwd. rewrite Hpwd, Hopen. fold res.
    destruct (structure_of res (extracted_root (Opened zf))) as [s emsg] eqn:Hs.
    simpl. split.
    + intros Hall. specialize (Hlost Hall).
      destruct (structure_of_failed res (extracted_root (Opened zf)) "ZIP_PASSWORD")
        as [H1 H2]; [by rewrite Hlost | by rewrite Hlost | done |].
      rewrite Hs in H1, H2. simpl in H1, H2. by rewrite H1, H2.
    + intros pre pw post Hc Hpre Hpw. specialize (Hwin pre pw post Hc Hpre Hpw).
      pose proof (structure_of_extracted res (extracted_root (Opened zf))) as H1.
      rewrite Hs in H1. simpl in H1. rewrite H1; [done|]. by rewrite Hwin.
Qed.

(** The theorem at [c5_archive]: with the candidates [P_OLD] and [P2] the
    second one extracts; with [P_OLD] alone the result is [ZIP_PASSWORD]. *)
Lemma C5_candidate_loop_witness :
  extract_zip_to_temp (Opened c5_archive) [" P_OLD"; "P2"; "P2 "] = result_ok (Some "P2") /\
  extract_zip_to_temp (Opened c5_archive) ["P_OLD"] =
    result_error "ZIP_PASSWORD" "Bad password for file".
Proof.
  split.
  - destruct (C5_candidate_loop c5_archive [" P_OLD"; "P2"; "P2 "] eq_refl)
      as (_ & Hwin & _).
    apply (Hwin [Some "P_OLD"] (Some "P2") [None]); [reflexivity| |reflexivity].
    repeat constructor.
  - destruct (C5_candidate_loop c5_archive ["P_OLD"] eq_refl) as (_ & _ & _ & Hlost & _).
    apply Hlost. repeat constructor.
Defined.

End ZipExtractProofs.

(** ** Stage F: structure classification *)

Module ZipImportProofs.
Import PyStr ZipExtract ZipImport.
Import Examples.

Lemma collect_xml_with_data_dirs root :
  (1 <= length (find_data_dirs root))%nat ->
  collect_xml root = list_xml_files_under_data_dirs (find_data_dirs root).
Proof. intros H. unfold collect_xml. by rewrite bool_decide_eq_true_2. Qed.

Lemma collect_xml_without_data_dirs root :
  length (find_data_dirs root) = 0%nat ->
  collect_xml root = list_xml_files_anywhere root.
Proof. intros H. unfold collect_xml. rewrite bool_decide_eq_false_2; [done|lia]. Qed.

(** C4, as amended: an extraction without any file is
    [ERROR]/[ZIP_EMPTY_CONTENT].  Otherwise the XML files are taken from
    below all [DATA] directories when there is at least one (two or more
    are recorded as [STRUCT_MULTI_DATA_DIR] with up to five sample paths)
    and from anywhere in the archive when there is none (recorded as
    [STRUCT_NO_DATA_DIR]); the status is [OK] exactly when the number of
    XML files taken is positive.  With no XML file the status is [ERROR]
    and the error code is [STRUCT_ZERO_XML] only when there is exactly one
    [DATA] directory: with none or several the code recorded before,
    [STRUCT_NO_DATA_DIR] or [STRUCT_MULTI_DATA_DIR], stays. *)
Theorem C4_structure_classification (root : list node) :
  let s := classify root in
  let dirs := find_data_dirs root in
  let xmls := collect_xml root in
  (zip_has_any_file root = false ->
     s_status s = "ERROR" /\ s_error_code s = Some "ZIP_EMPTY_CONTENT" /\
     s_data_dir_count s = Some 0 /\ s_data_xml_count s = Some 0) /\
  (zip_has_any_file root = true ->
     s_data_dir_count s = Some (Z.of_nat (length dirs)) /\
     s_data_xml_count s = Some (Z.of_nat (length xmls)) /\
     (s_status s = "OK" <-> (0 < length xmls)%nat) /\
     (s_status s <> "OK" -> s_status s = "ERROR") /\
     ((1 <= length dirs)%nat -> xmls = list_xml_files_under_data_dirs dirs) /\
     (length dirs = 0%nat ->
        xmls = list_xml_files_anywhere root /\
        s_error_code s = Some "STRUCT_NO_DATA_DIR" /\ NoteNoDataDir ∈ s_messages s) /\
     ((2 <= length dirs)%nat ->
        s_error_code s = Some "STRUCT_MULTI_DATA_DIR" /\
        NoteMultiDataSample ((fun d => path_str d.1) <$> take 5 dirs) ∈ s_messages s) /\
     (length dirs = 1%nat ->
        s_error_code s = if bool_decide (0 < length xmls)%nat then None
                         else Some "STRUCT_ZERO_XML")).
Proof.
  intros s dirs xmls. split.
  - intros Hempty. subst s. unfold classify. by rewrite Hempty.
  - intros Hfile. subst s xmls. unfold classify, collect_xml. rewrite Hfile. simpl.
    fold dirs. generalize (list_xml_files_under_data_dirs dirs) as under.
    generalize (list_xml_files_anywhere root) as anywhere. intros anywhere under.
    destruct (bool_decide (1 <= length dirs)%nat) eqn:H1;
      [apply bool_decide_eq_true in H1|apply bool_decide_eq_false in H1].
    + destruct (bool_decide (2 <= length dirs)%nat) eqn:H2;
        [apply bool_decide_eq_true in H2|apply bool_decide_eq_false in H2].
      * destruct (bool_decide (0 < length under)%nat) eqn:H0;
          [apply bool_decide_eq_true in H0|apply bool_decide_eq_false in H0].
        -- simpl. repeat split; try done; try lia. set_solver.
        -- rewrite bool_decide_eq_false_2 by lia. simpl.
           repeat split; try done; try lia. set_solver.
      * assert (length dirs = 1%nat) as Hone by lia.
        destruct (bool_decide (0 < length under)%nat) eqn:H0;
          [apply bool_decide_eq_true in H0|apply bool_decide_eq_false in H0].
        -- simpl. repeat split; try done; try lia.
        -- rewrite bool_decide_eq_true_2 by lia. simpl.
           repeat split; try done; try lia.
    + assert (length dirs = 0%nat) as Hzero by lia.
      destruct (bool_decide (0 < length anywhere)%nat) eqn:H0;
        [apply bool_decide_eq_true in H0|apply bool_decide_eq_false in H0].
      * simpl. repeat split; try done; try lia. set_solver.
      * rewrite bool_decide_eq_false_2 by lia. simpl.
        repeat split; try done; try lia. set_solver.
Qed.

(** C4 as stated fails: an archive with entries and no XML file at all is
    classified [ERROR] with the code recorded for the missing (or repeated)
    [DATA] directory, not with [STRUCT_ZERO_XML]. *)
Lemma C4_zero_xml_code_counterexample :
  zip_has_any_file c4_no_xml = true /\ length (collect_xml c4_no_xml) = 0%nat /\
  s_status (classify c4_no_xml) = "ERROR" /\
  s_error_code (classify c4_no_xml) = Some "STRUCT_NO_DATA_DIR" /\
  stated_error_code c4_no_xml = Some "STRUCT_ZERO_XML" /\
  s_error_code (classify c4_two_data) = Some "STRUCT_MULTI_DATA_DIR" /\
  stated_error_code c4_two_data = Some "STRUCT_ZERO_XML".
Proof. repeat split; vm_compute; reflexivity. Qed.

End ZipImportProofs.

(** ** Stage G: the CDA index step *)

Module XmlExtractProofs.
Import PyStr Xml XmlExtract.
Import Examples.

Lemma extract_document_id_cases tree :
  match id_element tree with
  | None => _extract_document_id tree = (None, "ERROR")
  | Some id_node =>
      let root := get (attrib id_node) "root" in
      let ext := get (attrib id_node) "extension" in
      if truthy root then
        _extract_document_id tree =
          (Some (if truthy ext then or_empty root +:+ "|" +:+ or_empty ext
                 else or_empty root), "OK")
      else _extract_document_id tree = (None, "SKIP")
  end.
Proof.
  unfold id_element, _extract_document_id.
  destruct (xpath_root_child "ClinicalDocument" "id" tree) as [|id_node rest]; simpl; [done|].
  destruct (truthy (get (attrib id_node) "root")); [done|].
  by destruct (truthy (get (attrib id_node) "nullFlavor")).
Qed.

(** C3, as amended: for a well-formed document, an id element with a
    non-empty [@root] gives the document id ["root|extension"] (the root
    alone when [@extension] is absent or empty) and the log result [OK];
    an id element without a non-empty [@root] gives no document id and the
    log result [SKIP], whether or not [@nullFlavor] is present; a document
    without the id element gives the log result [ERROR].  In every case the
    later steps run: the XSD, header and ledger log rows follow, and the
    receipt ends [OK] with that document id unless the ledger upsert fails. *)
Theorem C3_cda_index_policy (run_id : Z) (tree : element) (later : later_steps) :
  let logs := (extract_parsed run_id tree later).1 in
  let upd := (extract_parsed run_id tree later).2 in
  let cda := result <$> head logs in
  match id_element tree with
  | None => cda = Some "ERROR" /\ u_document_id upd = None
  | Some id_node =>
      let root := get (attrib id_node) "root" in
      let ext := get (attrib id_node) "extension" in
      if truthy root then
        cda = Some "OK" /\
        u_document_id upd =
          Some (if truthy ext then or_empty root +:+ "|" +:+ or_empty ext
                else or_empty root)
      else cda = Some "SKIP" /\ u_document_id upd = None
  end /\
  step <$> logs = ["CDA_INDEX"; "XSD_VALIDATE"; "EXTRACT_ITEMS"; "LEDGER"] /\
  (ledger_error later = None -> u_status upd = "OK").
Proof.
  intros logs upd cda. subst logs upd cda. unfold extract_parsed, cda_index_step.
  pose proof (extract_document_id_cases tree) as Hid.
  destruct (xsd_step (xsd later)) as [[xsd_valid xsd_note] xsd_log] eqn:Hx.
  assert (step xsd_log = "XSD_VALIDATE") as Hxs.
  { unfold xsd_step in Hx. destruct (xsd later); simplify_eq/=; [done|].
    repeat case_match; by simplify_eq/=. }
  destruct (id_element tree) as [id_node|].
  - simpl in Hid. destruct (truthy (get (attrib id_node) "root")); rewrite Hid; simpl;
      destruct (ledger_error later); simpl; by rewrite Hxs.
  - rewrite Hid. simpl. destruct (ledger_error later); simpl; by rewrite Hxs.
Qed.

(** C3 as stated fails: an id element with neither [@root] nor
    [@nullFlavor] is logged [SKIP], not [ERROR]. *)
Lemma C3_bare_id_counterexample :
  _extract_document_id c3_bare_id = (None, "SKIP") /\
  result (cda_index_step c3_bare_id).2 = "SKIP" /\
  stated_cda_result c3_bare_id = "ERROR".
Proof. repeat split; reflexivity. Qed.

End XmlExtractProofs.

(** ** Stage H: occurrence counters and target selection *)

Module ItemExtractProofs.
Import PyStr Sql SqlFacts Xml ItemExtract.
Import Examples.










(** C7 as stated fails: the counter does not advance for every
    observation that carries the namecode.  With a master whose value
    method is ["@"], reading the value of the second of three observations
    coded [9A755] raises, the node is passed over, and the third
    observation takes the number 2. *)
Lemma C7_skipped_observation_counterexample :
  length (filter (fun o => namecode_of o = Some "9A755")
                 (xpath_anywhere "observation" c7_document)) = 3%nat /\
  occurrences "9A755" (_collect_observations_as_raw_items c7_refused c7_document c7_master)
    = [1; 2]%nat /\
  collected_as c7_refused c7_master
    <$> xpath_anywhere "observation" c7_document = [Some "9A755"; None; Some "9A755"].
Proof. split; [|split]; vm_compute; reflexivity. Qed.

Lemma elem_of_select_targets_safe table lim r :
  r ∈ select_targets_safe table lim -> r ∈ table /\ eligible "OK" r.
Proof.
  unfold select_targets_safe, db_select_target_xmls_for_item_extract.
  intros H%limit_elem%order_by_elem%list_elem_of_filter. tauto.
Qed.

Lemma row_le_updated_at (a b : receipt) :
  row_le (fun r => [updated_at r]) a b <-> updated_at a <= updated_at b.
Proof. unfold row_le. simpl. lia. Qed.

(** The selection is the front of the eligible receipts in the order of
    [updated_at]. *)
Lemma select_targets_safe_front table lim :
  exists rest,
    order_by (fun r => [updated_at r]) (filter (eligible "OK") table)
      = select_targets_safe table lim ++ rest /\
    (forall s r, s ∈ select_targets_safe table lim -> r ∈ rest ->
                 updated_at s <= updated_at r) /\
    StronglySorted (fun a b => updated_at a <= updated_at b) (select_targets_safe table lim).
Proof.
  unfold select_targets_safe, db_select_target_xmls_for_item_extract, limit.
  set (n := Z.to_nat (if lim <=? 0 then 1000000 else lim)).
  set (l := order_by (fun r => [updated_at r]) (filter (eligible "OK") table)).
  exists (drop n l). split; [by rewrite take_drop|].
  pose proof (order_by_sorted (fun r => [updated_at r]) (filter (eligible "OK") table)) as Hs.
  fold l in Hs. rewrite <- (take_drop n l) in Hs.
  apply StronglySorted_app in Hs as (Hcross & Hfront & _). split.
  - intros s r Hin Hr. apply row_le_updated_at. by apply Hcross.
  - clear Hcross. induction Hfront as [|x xs _ IH Hall]; constructor; [done|].
    eapply Forall_impl; [exact Hall|]. intros y. apply row_le_updated_at.
Qed.

(** C10, as amended: Item-Extract selects only receipts with status
    ['OK'] whose [items_extract_status] is NULL or differs from ['OK'],
    oldest [updated_at] first and at most the batch limit of them (a limit
    of zero or less stands for one million): the selection is in ascending
    order of [updated_at], it holds as many receipts as are eligible or as
    the limit allows, whichever is less, each eligible receipt at most as
    often as the table has it, and no eligible receipt left out is older
    than a selected one.  A receipt whose [items_extract_status] is ['OK']
    is never selected again; a receipt left in ['ERROR'] or ['SKIP'] is
    eligible on every later run and is selected whenever the eligible
    receipts fit into the limit. *)
Theorem C10_item_extract_selection (table : list receipt) (lim : Z) :
  let selected := select_targets_safe table lim in
  let eff := if lim <=? 0 then 1000000 else lim in
  (forall r, r ∈ selected -> r ∈ table /\ status r = "OK" /\
                             items_extract_status r <> Some "OK") /\
  (forall r, items_extract_status r = Some "OK" -> r ∉ selected) /\
  (Z.of_nat (length selected) <= eff) /\
  (Z.of_nat (length (filter (eligible "OK") table)) <= eff ->
     forall r, r ∈ table -> left_unfinished r -> r ∈ selected) /\
  StronglySorted (fun a b => updated_at a <= updated_at b) selected /\
  Z.of_nat (length selected) =
    Z.min (Z.of_nat (length (filter (eligible "OK") table))) eff /\
  selected ⊆+ filter (eligible "OK") table /\
  (forall s r, s ∈ selected -> r ∈ table -> eligible "OK" r -> r ∉ selected ->
     updated_at s <= updated_at r).
Proof.
  intros selected eff.
  assert (0 < eff) as Heff by (subst eff; destruct (lim <=? 0) eqn:E; lia).
  destruct (select_targets_safe_front table lim) as (rest & Hsplit & Hcross & Hsorted).
  fold selected in Hsplit, Hcross, Hsorted.
  assert (length selected =
          Nat.min (Z.to_nat eff) (length (filter (eligible "OK") table))) as Hlen.
  { subst selected. unfold select_targets_safe, db_select_target_xmls_for_item_extract, limit.
    fold eff. rewrite length_take. by rewrite (Permutation_length (order_by_perm _ _)). }
  split; [|split; [|split; [|split; [|split; [|split; [|split]]]]]].
  - intros r Hr. apply elem_of_select_targets_safe in Hr as [? [? ?]]. done.
  - intros r Hok Hr. apply elem_of_select_targets_safe in Hr as [_ [_ Hne]]. done.
  - lia.
  - intros Hfit r Hr [Hst Hies].
    subst selected. unfold select_targets_safe, db_select_target_xmls_for_item_extract, limit.
    fold eff. rewrite take_ge.
    + apply order_by_elem, list_elem_of_filter. split; [|done].
      split; [done|]. destruct Hies as [-> | ->]; done.
    + rewrite (Permutation_length (order_by_perm _ _)). lia.
  - done.
  - lia.
  - rewrite <- (order_by_perm (fun r => [updated_at r]) (filter (eligible "OK") table)).
    rewrite Hsplit. by apply submseteq_inserts_r.
  - intros s r Hs Hr Hel Hnot. apply Hcross; [done|].
    assert (r ∈ selected ++ rest) as Hin.
    { rewrite <- Hsplit. apply order_by_elem, list_elem_of_filter. done. }
    apply elem_of_app in Hin as [?|?]; done.
Qed.

(** C10 as stated fails: with a batch limit of one, a receipt left in
    ['SKIP'] behind an older unfinished receipt is not selected by the run. *)
Lemma C10_limit_counterexample :
  c10_second ∈ [c10_first; c10_second] /\ left_unfinished c10_second /\
  select_targets_safe [c10_first; c10_second] 1 = [c10_first] /\
  c10_second ∉ select_targets_safe [c10_first; c10_second] 1.
Proof.
  split; [set_solver|]. split; [split; [done|by right]|].
  assert (select_targets_safe [c10_first; c10_second] 1 = [c10_first]) as Hsel
    by (vm_compute; reflexivity).
  split; [done|]. rewrite Hsel. intros H%list_elem_of_singleton. discriminate.
Qed.

End ItemExtractProofs.

(** ** Stage A: Shared-Scan *)

Module SharedScanProofs.
Import PyStr SharedScan.
Import Examples.

(** C8 at the unconfigured environment: with neither variable set the
    allow-list holds five extensions, so it is not the set with [zip]
    alone, and the walk is asked for five patterns. *)
Theorem C8_default_allow_list :
  parse_allow_exts None None = {["zip"; "pdf"; "xlsx"; "xls"; "xml"]} /\
  parse_allow_exts None None <> {["zip"]} /\
  iter_targets_patterns (parse_allow_exts None None) =
    ["*.pdf"; "*.xls"; "*.xlsx"; "*.xml"; "*.zip"] /\
  parse_allow_exts (Some "zip") None = {["zip"]} /\
  iter_targets_patterns ∅ = ["*.zip"].
Proof.
  assert (parse_allow_exts None None = {["zip"; "pdf"; "xlsx"; "xls"; "xml"]}) as Hdef.
  { unfold parse_allow_exts.
    replace (split "," (strip (or_empty (env_or (env_or None None)
                                               (Some "zip,pdf,xlsx,xls,xml")))))
      with ["zip"; "pdf"; "xlsx"; "xls"; "xml"] by (vm_compute; reflexivity).
    vm_compute filter. simpl. set_solver. }
  split; [done|]. split; [|split; [|split]].
  - rewrite Hdef. intros Heq.
    assert ("pdf" ∈ ({["zip"]} : gset string)) as Hin by (rewrite <- Heq; set_solver).
    set_solver.
  - vm_compute. reflexivity.
  - unfold parse_allow_exts.
    replace (split "," (strip (or_empty (env_or (env_or (Some "zip") None)
                                               (Some "zip,pdf,xlsx,xls,xml")))))
      with ["zip"] by (vm_compute; reflexivity).
    vm_compute filter. simpl. set_solver.
  - vm_compute. reflexivity.
Qed.

(** C9: when the path of a scanned file is already in the ledger, the
    scan's upsert sets [stage_status] to ['NEW'] and [auto_judgement] to
    ['UNKNOWN'] whatever they were, and keeps the row's id,
    [first_seen_at], [sha256] and [manual_judgement]; a row that had been
    advanced to ['INPUT_COPIED'] or ['SKIPPED'] is therefore ['NEW'] again. *)
Theorem C9_rescan_resets_stage
    (sha1_text : string -> string) (ts : string) (hint_depth : Z)
    (t : gmap string shared_file) (next : Z) (f : found_file) (old : shared_file) :
  t !! sha1_text (f_path f) = Some old ->
  let res := db_upsert_shared_file sha1_text (t, next) (scan_row ts hint_depth f) in
  exists row,
    res.1.1 !! sha1_text (f_path f) = Some row /\
    stage_status row = "NEW" /\ auto_judgement row = "UNKNOWN" /\
    shared_file_id row = shared_file_id old /\ res.2 = shared_file_id old /\
    first_seen_at row = first_seen_at old /\
    sha256 row = sha256 old /\
    manual_judgement row = manual_judgement old /\
    last_seen_at row = ts /\
    (stage_status old = "INPUT_COPIED" \/ stage_status old = "SKIPPED" ->
     stage_status row <> stage_status old) /\
    (forall h, h <> sha1_text (f_path f) -> res.1.1 !! h = t !! h).
Proof.
  intros Hold res. subst res. unfold db_upsert_shared_file. simpl. rewrite Hold.
  eexists. split; [apply lookup_insert_eq|]. simpl.
  repeat (split; [try done|]).
  - by destruct (manual_judgement old).
  - intros [-> | ->]; done.
  - intros h Hne. by rewrite lookup_insert_ne.
Qed.

(** The theorem at a row already copied to the input tree. *)
Lemma C9_rescan_witness :
  exists row,
    (db_upsert_shared_file (fun _ => "h1") ({["h1" := c9_old]}, 6)
       (scan_row "2026-02-01 00:00:00.000000" 2 c9_file)).1.1 !! "h1" = Some row /\
    stage_status row = "NEW" /\ auto_judgement row = "UNKNOWN".
Proof.
  destruct (C9_rescan_resets_stage (fun _ => "h1") "2026-02-01 00:00:00.000000" 2
              {["h1" := c9_old]} 6 c9_file c9_old)
    as (row & Hrow & Hst & Hauto & _).
  { apply lookup_singleton_eq. }
  exists row. by repeat split.
Defined.

End SharedScanProofs.

(** ** Stage F: importing the same input twice *)

Module ZipImportRunProofs.
Import PyStr ZipExtract ZipImport DbMedi ZipImportPhase ZipImportSpec ZipImportFacts.
Import Examples.

(** *** Upserts on the XML receipt table *)

Section upserts.
Context (E : env).

Lemma apply_request_other now run_id t q k :
  q_xml_sha256 q <> k -> (apply_request E now run_id t q).1 !! k = t.1 !! k.
Proof.
  intros Hne. unfold apply_request, upsert_xml_row.
  destruct (t.1 !! q_xml_sha256 q); simpl; by rewrite lookup_insert_ne.
Qed.

Lemma apply_request_same now run_id t q :
  exists row,
    (apply_request E now run_id t q).1 !! q_xml_sha256 q = Some row /\
    overwritten row = written_by E q /\
    xr_last_seen_run_id row = run_id /\
    (forall old, t.1 !! q_xml_sha256 q = Some old -> kept row = kept old).
Proof.
  unfold apply_request, upsert_xml_row.
  destruct (t.1 !! q_xml_sha256 q) as [old|] eqn:Hold; simpl;
    eexists; (split; [apply lookup_insert_eq|]); simpl.
  - split; [done|]. split; [done|]. by intros ? [= <-].
  - split; [done|]. split; [done|]. by intros ? [=].
Qed.


Lemma foldl_requests_kept now run_id reqs t k old :
  t.1 !! k = Some old ->
  exists row, (foldl (apply_request E now run_id) t reqs).1 !! k = Some row /\
              kept row = kept old.
Proof.
  revert t old. induction reqs as [|q reqs IH]; intros t old Hold.
  - by exists old.
  - change (foldl ?f t (q :: reqs)) with (foldl f (f t q) reqs).
    destruct (decide (q_xml_sha256 q = k)) as [<-|Hne].
    + destruct (apply_request_same now run_id t q) as (row & Hrow & _ & _ & Hkept).
      destruct (IH _ _ Hrow) as (row' & Hrow' & Hk').
      exists row'. split; [done|]. rewrite Hk'. by apply Hkept.
    + apply IH. by rewrite apply_request_other.
Qed.






End upserts.

(** *** What a run does to the XML receipt table *)

Section runs.
Context (E : env) (now : timestamp) (run_id : Z) (xe xw : bool).

Lemma process_xml_xml_state zsha fcode fname d xf :
  xml_state (process_xml E now run_id zsha fcode fname xw d xf) =
  foldl (apply_request E now run_id) (xml_state d)
        (requests_of_files E now zsha fcode fname xw [xf]).
Proof.
  unfold process_xml, requests_of_files. destruct xf as [p [name info|name ch]]; simpl; [|done].
  unfold db_upsert_xml_receipt, apply_request, xml_state.
  destruct (upsert_xml_row _ _ _ _ _) as [[t n] id]. by destruct (read_error info).
Qed.

Lemma requests_of_files_cons zsha fcode fname xf files :
  requests_of_files E now zsha fcode fname xw (xf :: files) =
  requests_of_files E now zsha fcode fname xw [xf] ++
  requests_of_files E now zsha fcode fname xw files.
Proof. unfold requests_of_files. simpl. by destruct (xf.2). Qed.

Lemma process_xmls_xml_state zsha root fcode fname d :
  xml_state (process_xmls_in_zip E now run_id zsha root fcode fname xw d) =
  foldl (apply_request E now run_id) (xml_state d)
        (requests_of_files E now zsha fcode fname xw (collect_xml root)).
Proof.
  unfold process_xmls_in_zip. generalize (collect_xml root). intros files.
  revert d. induction files as [|xf files IH]; intros d; [done|].
  change (foldl ?f d (xf :: files)) with (foldl f (f d xf) files).
  rewrite IH, process_xml_xml_state, (requests_of_files_cons zsha fcode fname xf files).
  by rewrite foldl_app.
Qed.

Local Abbreviation step := (import_step E now run_id xe xw).

Lemma step_zip_side d fz :
  zip_passwords (step d fz) = zip_passwords d /\
  next_run_id (step d fz) = next_run_id d /\
  import_runs (step d fz) = import_runs d.
Proof.
  unfold import_step, import_zip_file. destruct (zf_sha256 fz.2) as [zsha|]; [|done].
  destruct (import_zip_zip_side E now run_id xe xw fz.1 fz.2 zsha d) as (_ & _ & ? & ? & ?).
  done.
Qed.

Lemma step_xml_state d fz :
  xml_state (step d fz) =
  foldl (apply_request E now run_id) (xml_state d)
        (requests_of_zip E now (zip_passwords d) xe xw fz).
Proof.
  unfold import_step, import_zip_file, requests_of_zip.
  destruct (zf_sha256 fz.2) as [zsha|]; [|done].
  unfold import_zip, structure_of_zip.
  destruct (parse_facility_folder_name fz.1) as [fcode fname]. simpl.
  destruct (structure_of _ _) as [s emsg]. simpl.
  unfold db_upsert_zip_receipt.
  destruct (zip_receipts d !! zsha); simpl;
    destruct (xe && bool_decide (s_status s = "OK")); simpl; try done;
    by rewrite process_xmls_xml_state.
Qed.

Lemma phase_is_foldl inp d :
  zip_import_phase E now run_id xe xw inp d = foldl step d (flatten inp).
Proof.
  unfold zip_import_phase, flatten. revert d.
  induction inp as [|f inp IH]; intros d; [done|].
  simpl. rewrite foldl_app, <- IH. f_equal.
  unfold import_facility. generalize (fd_zips f). intros zs. revert d.
  induction zs as [|z zs IHz]; intros d; [done|]. simpl. by rewrite IHz.
Qed.

Lemma foldl_step_zip_side zips d :
  zip_passwords (foldl step d zips) = zip_passwords d /\
  next_run_id (foldl step d zips) = next_run_id d /\
  import_runs (foldl step d zips) = import_runs d.
Proof.
  revert d. induction zips as [|fz zips IH]; intros d; [done|].
  simpl. destruct (IH (step d fz)) as (-> & -> & ->). apply step_zip_side.
Qed.

Lemma foldl_step_xml_state zips d :
  xml_state (foldl step d zips) =
  foldl (apply_request E now run_id) (xml_state d)
        (flat_map (requests_of_zip E now (zip_passwords d) xe xw) zips).
Proof.
  revert d. induction zips as [|fz zips IH]; intros d; [done|].
  simpl. rewrite IH, foldl_app, step_xml_state.
  by destruct (step_zip_side d fz) as (-> & _).
Qed.

(** *** What a run does to the row of one ZIP *)

Lemma step_other s d fz :
  zf_sha256 fz.2 <> Some s ->
  zip_receipts (step d fz) !! s = zip_receipts d !! s /\
  forall r, zip_receipt_runs (step d fz) !! (r, s) = zip_receipt_runs d !! (r, s).
Proof.
  intros Hne. unfold import_step, import_zip_file.
  destruct (zf_sha256 fz.2) as [zsha|] eqn:Hsha; [|done].
  destruct (import_zip_zip_side E now run_id xe xw fz.1 fz.2 zsha d) as (-> & -> & _).
  assert (zsha <> s) by congruence.
  split; [by rewrite lookup_insert_ne|].
  intros r. rewrite lookup_insert_ne; [done|congruence].
Qed.


Lemma step_this s d fz :
  zf_sha256 fz.2 = Some s ->
  zip_receipts (step d fz) !! s = Some (zip_row_after E now run_id fz.1 fz.2 s d) /\
  forall r, zip_receipt_runs (step d fz) !! (r, s) =
            if bool_decide (r = run_id) then Some (zip_run_after now run_id s d)
            else zip_receipt_runs d !! (r, s).
Proof.
  intros Hsha. unfold import_step, import_zip_file. rewrite Hsha.
  destruct (import_zip_zip_side E now run_id xe xw fz.1 fz.2 s d) as (-> & -> & _).
  split; [by rewrite lookup_insert_eq|].
  intros r. case_bool_decide as Hr.
  - subst r. by rewrite lookup_insert_eq.
  - rewrite lookup_insert_ne; [done|congruence].
Qed.


End runs.








End ZipImportRunProofs.

(** ** Facts about the text primitives *)

Module PyStrFacts.
Import PyStr PyText.

Lemma chars_inj s1 s2 : chars s1 = chars s2 -> s1 = s2.
Proof.
  intros H. rewrite <- (string_of_list_ascii_of_string s1),
    <- (string_of_list_ascii_of_string s2). unfold chars in H. by rewrite H.
Qed.


Lemma chars_app s1 s2 : chars (s1 +:+ s2) = chars s1 ++ chars s2.
Proof. induction s1 as [|c s1 IH]; simpl; [done|]. by rewrite IH. Qed.

Lemma chars_rev_app s1 s2 : chars (String.rev_app s1 s2) = reverse (chars s1) ++ chars s2.
Proof.
  revert s2. induction s1 as [|c s1 IH]; intros s2; simpl; [done|].
  rewrite IH. simpl. rewrite reverse_cons, <- app_assoc. done.
Qed.

Lemma chars_rev s : chars (String.rev s) = reverse (chars s).
Proof. unfold String.rev. rewrite chars_rev_app. simpl. by rewrite app_nil_r. Qed.

Lemma chars_length s : length (chars s) = String.length s.
Proof. induction s as [|c s IH]; simpl; [done|]. by rewrite IH. Qed.

Lemma chars_lstrip s : chars (lstrip s) = lstrip_chars (chars s).
Proof. induction s as [|c s IH]; simpl; [done|]. by destruct (isspace c). Qed.

Lemma chars_rstrip s : chars (rstrip s) = rstrip_chars (chars s).
Proof.
  unfold rstrip, rstrip_chars. by rewrite chars_rev, chars_lstrip, chars_rev.
Qed.

Lemma chars_strip s : chars (strip s) = rstrip_chars (lstrip_chars (chars s)).
Proof. unfold strip. by rewrite chars_rstrip, chars_lstrip. Qed.

(** What [lstrip] removes is whitespace, and what it leaves does not
    start with whitespace. *)
Lemma lstrip_chars_split l :
  exists sp, l = sp ++ lstrip_chars l /\ Forall (fun c => isspace c = true) sp /\
             (forall c r, lstrip_chars l = c :: r -> isspace c = false).
Proof.
  induction l as [|c l IH]; simpl.
  - exists []. by repeat split.
  - destruct (isspace c) eqn:Hc.
    + destruct IH as (sp & Heq & Hsp & Hhd). exists (c :: sp). split; [|split].
      * simpl. by rewrite <- Heq.
      * by constructor.
      * done.
    + exists []. split; [done|]. split; [constructor|]. intros c' r [= <- _]. done.
Qed.

Lemma lstrip_chars_fixed l :
  (forall c r, l = c :: r -> isspace c = false) -> lstrip_chars l = l.
Proof. destruct l as [|c l]; simpl; [done|]. intros H. by rewrite (H c l eq_refl). Qed.

Lemma lstrip_chars_idemp l : lstrip_chars (lstrip_chars l) = lstrip_chars l.
Proof.
  destruct (lstrip_chars_split l) as (sp & _ & _ & Hhd). by apply lstrip_chars_fixed.
Qed.

Lemma rstrip_chars_split l :
  exists sp, l = rstrip_chars l ++ sp /\ Forall (fun c => isspace c = true) sp /\
             (forall c r, rstrip_chars l = r ++ [c] -> isspace c = false).
Proof.
  unfold rstrip_chars.
  destruct (lstrip_chars_split (reverse l)) as (sp & Heq & Hsp & Hhd).
  exists (reverse sp). split; [|split].
  - rewrite <- reverse_app, <- Heq. by rewrite reverse_involutive.
  - by apply Forall_reverse.
  - intros c r Hr. apply (Hhd c (reverse r)).
    apply (f_equal reverse) in Hr. rewrite reverse_involutive in Hr.
    rewrite Hr. by rewrite reverse_app.
Qed.

Lemma rstrip_chars_fixed l :
  (forall c r, l = r ++ [c] -> isspace c = false) -> rstrip_chars l = l.
Proof.
  intros H. unfold rstrip_chars. rewrite lstrip_chars_fixed.
  - apply reverse_involutive.
  - intros c r Hr. apply (H c (reverse r)).
    apply (f_equal reverse) in Hr. rewrite reverse_involutive in Hr.
    rewrite Hr. by rewrite reverse_cons.
Qed.

(** Cutting whitespace off the end keeps a first character that is not
    whitespace. *)
Lemma rstrip_chars_head l c r :
  rstrip_chars l = c :: r -> exists r', l = c :: r'.
Proof.
  destruct (rstrip_chars_split l) as (sp & Heq & _ & _). intros Hr.
  rewrite Hr in Heq. by exists (r ++ sp).
Qed.

Lemma strip_trimmed s : trimmed (strip s).
Proof.
  split; intros c l; rewrite chars_strip; intros Heq.
  - destruct (rstrip_chars_head _ _ _ Heq) as [r' Hr'].
    destruct (lstrip_chars_split (chars s)) as (_ & _ & _ & Hhd). by apply (Hhd c r').
  - destruct (rstrip_chars_split (lstrip_chars (chars s))) as (_ & _ & _ & Hlast).
    by apply (Hlast c l).
Qed.

Lemma strip_fixed s : trimmed s -> strip s = s.
Proof.
  intros [Hhd Hlast]. apply chars_inj. rewrite chars_strip.
  rewrite lstrip_chars_fixed by done. by apply rstrip_chars_fixed.
Qed.

Lemma strip_idemp s : strip (strip s) = strip s.
Proof. apply strip_fixed, strip_trimmed. Qed.

Lemma strip_empty : strip "" = "".
Proof. reflexivity. Qed.

(** [strip] only removes characters: the result is an infix of the text. *)
Lemma strip_infix s : exists l1 l2,
  chars s = l1 ++ chars (strip s) ++ l2 /\
  Forall (fun c => isspace c = true) l1 /\ Forall (fun c => isspace c = true) l2.
Proof.
  destruct (lstrip_chars_split (chars s)) as (l1 & H1 & Hsp1 & _).
  destruct (rstrip_chars_split (lstrip_chars (chars s))) as (l2 & H2 & Hsp2 & _).
  exists l1, l2. rewrite chars_strip. split; [|done]. by rewrite <- H2.
Qed.

Lemma strip_length s : (String.length (strip s) <= String.length s)%nat.
Proof.
  destruct (strip_infix s) as (l1 & l2 & Heq & _).
  rewrite <- !chars_length, Heq, !length_app. lia.
Qed.

End PyStrFacts.

(** ** The column guards of the database layer *)

Module DbMediGuardProofs.
Import PyStr PyText DbMediGuard PyStrFacts.

Lemma rfind_last c s : rfind c (s +:+ String c "") = Z.of_nat (String.length s).
Proof.
  induction s as [|x s IH]; simpl.
  - by rewrite Ascii.eqb_refl.
  - rewrite IH. destruct (Z.leb_spec 0 (Z.of_nat (String.length s))); lia.
Qed.

Lemma substring_middle a b c :
  String.substring (String.length a) (String.length b) (a +:+ b +:+ c) = b.
Proof.
  induction a as [|x a IH]; [|done].
  change ("" +:+ b +:+ c) with (b +:+ c). simpl String.length.
  induction b as [|y b IHb]; simpl; [by destruct c|]. by rewrite IHb.
Qed.

Lemma length_app_string a b :
  String.length (a +:+ b) = (String.length a + String.length b)%nat.
Proof. induction a as [|x a IH]; simpl; [done|]. by rewrite IH. Qed.

Lemma slice_middle a b c :
  slice (Z.of_nat (String.length a))
        (Z.of_nat (String.length a + String.length b)) (a +:+ b +:+ c) = b.
Proof.
  unfold slice. rewrite !length_app_string.
  destruct (Z.ltb_spec (Z.of_nat (String.length a)) 0); [lia|].
  destruct (Z.ltb_spec (Z.of_nat (String.length a + String.length b)) 0); [lia|].
  rewrite !Z.min_l by lia.
  replace (Z.to_nat (Z.of_nat (String.length a + String.length b) -
                     Z.of_nat (String.length a))) with (String.length b) by lia.
  rewrite Nat2Z.id. apply substring_middle.
Qed.

Lemma string_app_cons x s t : String x s +:+ t = String x (s +:+ t).
Proof. reflexivity. Qed.

Lemma string_app_nil_r s : s +:+ "" = s.
Proof. induction s as [|x s IH]; [done|]. by rewrite string_app_cons, IH. Qed.

Lemma string_app_assoc a b c : (a +:+ b) +:+ c = a +:+ (b +:+ c).
Proof. induction a as [|x a IH]; [done|]. by rewrite !string_app_cons, IH. Qed.

(** Inside a quoted value the scanner copies plain characters. *)
Lemma scan_plain l vs b :
  Forall (fun c => c <> "'"%char /\ c <> "\"%char) l ->
  foldl scan_char {| vals := vs; buf := b; in_q := true; esc := false |} l =
  {| vals := vs; buf := b +:+ string_of_list_ascii l; in_q := true; esc := false |}.
Proof.
  revert b. induction l as [|c l IH]; intros b Hl; simpl.
  - by rewrite string_app_nil_r.
  - apply Forall_cons in Hl as [[Hq Hb] Hl]. unfold scan_char at 2. simpl.
    destruct (Ascii.eqb_spec c "\"); [done|].
    destruct (Ascii.eqb_spec c "'"); [done|].
    rewrite IH by done. by rewrite string_app_assoc.
Qed.

Lemma scan_quoted v vs :
  plain v ->
  foldl scan_char {| vals := vs; buf := ""; in_q := false; esc := false |}
        (chars (quoted v)) =
  {| vals := vs ++ [v]; buf := ""; in_q := false; esc := false |}.
Proof.
  intros Hv. unfold quoted. rewrite !chars_app. simpl.
  rewrite foldl_app.
  change (scan_char {| vals := vs; buf := ""; in_q := false; esc := false |} "'")
    with {| vals := vs; buf := ""; in_q := true; esc := false |}.
  rewrite scan_plain by done. simpl. unfold scan_char. simpl.
  unfold chars. by rewrite string_of_list_ascii_of_string.
Qed.

Lemma scan_values values vs :
  Forall plain values ->
  vals (foldl scan_char {| vals := vs; buf := ""; in_q := false; esc := false |}
          (chars (String.concat "," (quoted <$> values)))) = vs ++ values.
Proof.
  revert vs. induction values as [|v values IH]; intros vs Hall.
  - simpl. by rewrite app_nil_r.
  - apply Forall_cons in Hall as [Hv Hall].
    destruct values as [|v' values].
    + change (String.concat "," (quoted <$> [v])) with (quoted v).
      by rewrite scan_quoted.
    + change (String.concat "," (quoted <$> v :: v' :: values))
        with (quoted v +:+ "," +:+ String.concat "," (quoted <$> v' :: values)).
      rewrite !chars_app, !foldl_app, scan_quoted by done.
      change (foldl scan_char {| vals := vs ++ [v]; buf := ""; in_q := false; esc := false |}
                (chars ","))
        with {| vals := vs ++ [v]; buf := ""; in_q := false; esc := false |}.
      rewrite IH by done. by rewrite <- app_assoc.
Qed.

Lemma prefix_app p x : String.prefix p (p +:+ x) = true.
Proof.
  induction p as [|a p IH]; [by destruct x|].
  rewrite string_app_cons. simpl. by destruct (ascii_dec a a).
Qed.

Lemma enum_type_trimmed values : trimmed (enum_type values).
Proof.
  unfold enum_type. split; intros c l; rewrite !chars_app; simpl.
  - by intros [= <- _].
  - change (?a :: ?b :: ?c :: ?d :: ?e :: ?x ++ [?z])
      with ([a; b; c; d; e] ++ x ++ [z]).
    rewrite !app_assoc. intros Heq. apply app_inj_tail in Heq as [_ <-]. done.
Qed.

Lemma parse_enum_type values :
  Forall plain values -> _parse_enum_values (enum_type values) = values.
Proof.
  intros Hall. unfold _parse_enum_values.
  rewrite (strip_fixed _ (enum_type_trimmed values)).
  set (body := String.concat "," (quoted <$> values)).
  assert (String.prefix "enum(" (lower (enum_type values)) = true) as ->
    by apply (prefix_app "enum(" (lower (body +:+ ")"))).
  assert (find "(" (enum_type values) + 1 = Z.of_nat (String.length "enum(")) as ->
    by (vm_compute; reflexivity).
  assert (rfind ")" (enum_type values) =
          Z.of_nat (String.length "enum(" + String.length body)) as ->.
  { unfold enum_type. fold body.
    change ("enum(" +:+ body +:+ ")") with (("enum(" +:+ body) +:+ String ")" "").
    rewrite rfind_last. by rewrite length_app_string. }
  unfold enum_type. fold body. rewrite slice_middle.
  simpl negb. cbv iota. apply (scan_values values []). done.
Qed.

(** X1: reading back the column type of an enumeration gives its values:
    for values that contain neither a quote nor a backslash,
    [_parse_enum_values] applied to [enum('v1','v2',...)] returns
    [v1, v2, ...] in order.  Commas and parentheses inside a value do
    no harm. *)
Theorem parse_enum_values_of_enum_type (values : list string) :
  Forall plain values -> _parse_enum_values (enum_type values) = values.
Proof. apply parse_enum_type. Qed.

(** The theorem at the column type of the process-log step. *)
Lemma parse_enum_values_witness :
  _parse_enum_values "enum('WELLFORMED','CDA_INDEX','XSD_VALIDATE','EXTRACT_ITEMS','LEDGER')"
  = ["WELLFORMED"; "CDA_INDEX"; "XSD_VALIDATE"; "EXTRACT_ITEMS"; "LEDGER"].
Proof.
  apply (parse_enum_values_of_enum_type
           ["WELLFORMED"; "CDA_INDEX"; "XSD_VALIDATE"; "EXTRACT_ITEMS"; "LEDGER"]).
  repeat constructor; done.
Defined.


(** The guard reads the column type with [_parse_enum_values], which
    takes a doubled quote for the end of one value and the start of the
    next: for [enum('it''s','b')] a value that is not allowed becomes
    [it], which is no value of the column. *)
Example guard_enum_value_doubled_quote :
  _parse_enum_values "enum('it''s','b')" = ["it"; "s"; "b"] /\
  _guard_enum_value (fun _ _ => Some "enum('it''s','b')") "t" "c" "x" = "it".
Proof. split; vm_compute; reflexivity. Qed.

End DbMediGuardProofs.

(** ** Stage I: what a run of [main] leaves in the table *)

Module NormalizeRunProofs.
Import PyStr Sql SqlFacts Normalize NormalizeProofs NormalizeRun.
Import Examples.

Lemma apply_action_raw_columns now a r :
  raw_columns (apply_action now a r) = raw_columns r.
Proof. by destruct a. Qed.

Lemma apply_action_status now a r : status (apply_action now a r) <> RAW.
Proof. by destruct a. Qed.

Lemma update_row_lookup now id a table i :
  update_row now id a table !! i =
  (fun r => if bool_decide (item_value_id r = id) then apply_action now a r else r)
    <$> table !! i.
Proof. unfold update_row. apply list_lookup_fmap. Qed.

Lemma foldl_update_raw_columns now acts table i r :
  table !! i = Some r ->
  exists r', foldl (fun tb '(id, a) => update_row now id a tb) table acts !! i = Some r' /\
             raw_columns r' = raw_columns r /\
             ((forall p, p ∈ acts -> p.1 <> item_value_id r) -> r' = r).
Proof.
  revert table r. induction acts as [|[id a] acts IH]; intros table r Hr; simpl.
  - by exists r.
  - destruct (IH (update_row now id a table)
                (if bool_decide (item_value_id r = id) then apply_action now a r else r))
      as (r' & Hr' & Hraw & Hsame).
    { by rewrite update_row_lookup, Hr. }
    exists r'. split; [done|]. split.
    + rewrite Hraw. case_bool_decide; [apply apply_action_raw_columns|done].
    + intros Hno. rewrite Hsame.
      * rewrite bool_decide_eq_false_2; [done|].
        intros Heq. by apply (Hno (id, a)); [left|].
      * intros p Hp. case_bool_decide.
        -- exfalso. apply (Hno (id, a)); [left|done].
        -- apply Hno. by right.
Qed.

Lemma foldl_update_length now acts table :
  length (foldl (fun tb '(id, a) => update_row now id a tb) table acts) = length table.
Proof.
  revert table. induction acts as [|[id a] acts IH]; intros table; simpl; [done|].
  rewrite IH. unfold update_row. by rewrite length_fmap.
Qed.

(** X3: a run of [main] assigns only [value], [normalize_status],
    [normalized_at] and [normalize_error].  The table keeps its rows and
    their order; every row keeps its [item_value_id], [ledger_id],
    [namecode] and [raw_value]; and a row whose id is the id of no selected
    row is left exactly as it was. *)
Theorem main_keeps_raw_columns (now : string) (lim : Z) (masters : list item_master)
    (variants : list norm_variant) (table : list item_value) :
  let table' := (main now lim masters variants table).1 in
  length table' = length table /\
  forall i r, table !! i = Some r ->
    exists r', table' !! i = Some r' /\
      item_value_id r' = item_value_id r /\ ledger_id r' = ledger_id r /\
      namecode r' = namecode r /\ raw_value r' = raw_value r /\
      ((forall t, t ∈ select_targets table lim -> item_value_id t <> item_value_id r) ->
       r' = r).
Proof.
  unfold main. simpl. split; [apply foldl_update_length|].
  intros i r Hr.
  destruct (foldl_update_raw_columns now
              ((fun t => (item_value_id t, normalize_row masters variants t))
                 <$> select_targets table lim) table i r Hr)
    as (r' & Hr' & Hraw & Hsame).
  exists r'. split; [done|]. unfold raw_columns in Hraw.
  injection Hraw as H1 H2 H3 H4. repeat (split; [done|]).
  intros Hno. apply Hsame. intros p [t [-> Ht]]%list_elem_of_fmap. simpl. by apply Hno.
Qed.

(** When ids do not repeat among the updates, the loop of updates is one
    pass over the table. *)
Lemma updated_id now acts r : item_value_id (updated now acts r) = item_value_id r.
Proof.
  induction acts as [|[id a] acts IH]; simpl; [done|].
  case_bool_decide; [by destruct a|done].
Qed.

Lemma updated_not_named now acts r :
  item_value_id r ∉ acts.*1 -> updated now acts r = r.
Proof.
  induction acts as [|[id a] acts IH]; simpl; [done|].
  intros Hnin. apply not_elem_of_cons in Hnin as [Hne Hnin].
  rewrite bool_decide_eq_false_2 by done. by apply IH.
Qed.

Lemma foldl_update_updated now acts table :
  NoDup acts.*1 ->
  foldl (fun tb '(id, a) => update_row now id a tb) table acts = updated now acts <$> table.
Proof.
  revert table. induction acts as [|[id a] acts IH]; intros table Hnd; simpl.
  - by rewrite list_fmap_id.
  - apply NoDup_cons in Hnd as [Hnin Hnd]. rewrite IH by done.
    unfold update_row. rewrite <- list_fmap_compose. apply list_fmap_ext.
    intros i r _. simpl. case_bool_decide as Hid; [|done].
    apply updated_not_named. destruct a; simpl; by rewrite Hid.
Qed.

Lemma select_targets_sublist table lim :
  exists l, l ≡ₚ filter (fun r => is_target r = true) table /\
            select_targets table lim `sublist_of` l.
Proof.
  exists (order_by (fun r => [item_value_id r]) (filter (fun r => is_target r = true) table)).
  split; [apply order_by_perm|]. unfold select_targets, limit. apply sublist_take.
Qed.

Lemma select_targets_NoDup table lim :
  NoDup (item_value_id <$> table) -> NoDup (item_value_id <$> select_targets table lim).
Proof.
  intros Hnd. destruct (select_targets_sublist table lim) as (l & Hperm & Hsub).
  eapply sublist_NoDup; [|by apply fmap_sublist].
  rewrite Hperm. eapply sublist_NoDup; [done|].
  apply fmap_sublist, sublist_filter.
Qed.

Lemma NoDup_fmap_eq {A B} `{EqDecision B} (f : A -> B) (l : list A) x y :
  NoDup (f <$> l) -> x ∈ l -> y ∈ l -> f x = f y -> x = y.
Proof.
  induction l as [|z l IH]; simpl; intros Hnd Hx Hy Hf; [by apply elem_of_nil in Hx|].
  apply NoDup_cons in Hnd as [Hnin Hnd].
  apply elem_of_cons in Hx as [->|Hx]; apply elem_of_cons in Hy as [->|Hy]; try done.
  - exfalso. apply Hnin. rewrite Hf. by apply list_elem_of_fmap_2.
  - exfalso. apply Hnin. rewrite <- Hf. by apply list_elem_of_fmap_2.
  - by apply IH.
Qed.

Lemma updated_target now masters variants targets t :
  NoDup (item_value_id <$> targets) -> t ∈ targets ->
  updated now (updates masters variants targets) t =
  apply_action now (normalize_row masters variants t) t.
Proof.
  induction targets as [|t' targets IH]; simpl; intros Hnd Ht; [by apply elem_of_nil in Ht|].
  apply NoDup_cons in Hnd as [Hnin Hnd].
  apply elem_of_cons in Ht as [->|Ht].
  - by rewrite bool_decide_eq_true_2.
  - rewrite bool_decide_eq_false_2; [by apply IH|].
    intros Heq. apply Hnin. rewrite <- Heq. by apply list_elem_of_fmap_2.
Qed.

Lemma updates_ids masters variants targets :
  (updates masters variants targets).*1 = item_value_id <$> targets.
Proof. unfold updates. rewrite <- list_fmap_compose. done. Qed.

(** X4: a run takes the rows it selects out of the queue.  With
    [item_value_id] a key of the table, every selected row ends as the
    result of its own update ([OK] with the stored value, or [ERROR] with
    the message and its [value] untouched), so its status is no longer
    [RAW] and no later run, whatever its limit, selects it again.  The
    exit code is 0 exactly when every selected row was stored, and 2
    otherwise. *)
Theorem main_takes_targets_out_of_queue (now : string) (lim : Z)
    (masters : list item_master) (variants : list norm_variant) (table : list item_value) :
  NoDup (item_value_id <$> table) ->
  let targets := select_targets table lim in
  let res := main now lim masters variants table in
  (forall t, t ∈ targets ->
     apply_action now (normalize_row masters variants t) t ∈ res.1) /\
  (forall lim' r' t, r' ∈ select_targets res.1 lim' -> t ∈ targets ->
     item_value_id r' <> item_value_id t) /\
  (res.2 = 0 <->
   forall t, t ∈ targets -> exists v, normalize_row masters variants t = UpdateOk v) /\
  (res.2 <> 0 -> res.2 = 2).
Proof.
  intros Hnd targets res.
  assert (NoDup (item_value_id <$> targets)) as Hndt by by apply select_targets_NoDup.
  assert (res.1 = updated now (updates masters variants targets) <$> table) as Htab.
  { subst res. unfold main. simpl. fold targets.
    change ((fun t => (item_value_id t, normalize_row masters variants t)) <$> targets)
      with (updates masters variants targets).
    apply foldl_update_updated. by rewrite updates_ids. }
  split; [|split; [|split]].
  - intros t Ht. rewrite Htab.
    rewrite <- (updated_target now masters variants targets t) by done.
    apply list_elem_of_fmap_2. by apply (select_targets_spec table lim).
  - intros lim' r' t Hr' Ht Hid.
    apply select_targets_spec in Hr' as (Hin & Hraw & _).
    rewrite Htab in Hin. apply list_elem_of_fmap in Hin as (r & -> & Hr).
    rewrite updated_id in Hid.
    assert (r = t) as ->.
    { apply (NoDup_fmap_eq item_value_id table); try done.
      by apply (select_targets_spec table lim). }
    rewrite updated_target in Hraw by done.
    by apply apply_action_status in Hraw.
  - subst res. unfold main. simpl. fold targets.
    set (acts := (fun t => (item_value_id t, normalize_row masters variants t)) <$> targets).
    split.
    + intros Hz. case_bool_decide as Herr; [|done].
      apply length_zero_iff_nil in Herr.
      intros t Ht.
      destruct (normalize_row masters variants t) as [v|msg] eqn:Ha; [by exists v|].
      exfalso.
      assert ((item_value_id t, UpdateError msg) ∈
              filter (fun '(_, a) => is_ok a = false) acts) as Hin.
      { apply list_elem_of_filter. split; [done|].
        subst acts. apply list_elem_of_fmap. exists t. by rewrite Ha. }
      rewrite Herr in Hin. by apply elem_of_nil in Hin.
    + intros Hall. rewrite bool_decide_eq_true_2; [done|].
      apply length_zero_iff_nil.
      destruct (filter (fun '(_, a) => is_ok a = false) acts) as [|[id a] l] eqn:Hf; [done|].
      exfalso.
      assert ((id, a) ∈ filter (fun '(_, a) => is_ok a = false) acts) as Hin
        by (rewrite Hf; left).
      apply list_elem_of_filter in Hin as [Hbad Hin].
      subst acts. apply list_elem_of_fmap in Hin as (t & Heq & Ht).
      destruct (Hall t Ht) as [v Hv]. simplify_eq. by rewrite Hv in Hbad.
  - subst res. unfold main. simpl. case_bool_decide; done.
Qed.

(** The theorem at a table with one waiting row: the row is stored. *)
Lemma main_takes_targets_out_of_queue_witness :
  apply_action "2026-02-01 09:00:00" (normalize_row [c1_master] [] c1_row) c1_row
    ∈ (main "2026-02-01 09:00:00" 5 [c1_master] [] [c1_row]).1.
Proof.
  apply (main_takes_targets_out_of_queue "2026-02-01 09:00:00" 5 [c1_master] [] [c1_row]).
  - apply NoDup_singleton.
  - vm_compute. left.
Defined.

End NormalizeRunProofs.

(** ** Paths and message texts on their way into the database *)

Module DbMediTextProofs.
Import PyStr PyText PyStrFacts ZipExtract DbMedi XmlExtract.

Lemma chars_map_chars f s : chars (map_chars f s) = f <$> chars s.
Proof.
  induction s as [|c s IH]; [done|].
  change (chars (map_chars f (String c s))) with (f c :: chars (map_chars f s)).
  by rewrite IH.
Qed.

Lemma chars_substring_0 n s : chars (String.substring 0 n s) = take n (chars s).
Proof.
  revert n. induction s as [|c s IH]; intros [|n]; try done.
  change (chars (String.substring 0 (S n) (String c s)))
    with (c :: chars (String.substring 0 n s)).
  by rewrite IH.
Qed.

Lemma chars_lstrip_char a s :
  exists pre, chars s = pre ++ chars (lstrip_char a s) /\
              (forall c l, chars (lstrip_char a s) = c :: l -> c <> a).
Proof.
  induction s as [|c s IH]; simpl.
  - exists []. split; [done|]. intros c l. discriminate.
  - destruct (Ascii.eqb_spec c a) as [->|Hne].
    + destruct IH as (pre & Heq & Hhd). exists (a :: pre). split; [|done].
      simpl. by rewrite <- Heq.
    + exists []. split; [done|]. intros c' l [= <- _]. done.
Qed.

Lemma lstrip_char_fixed a s :
  (forall c l, chars s = c :: l -> c <> a) -> lstrip_char a s = s.
Proof.
  destruct s as [|c s]; simpl; [done|]. intros H.
  destruct (Ascii.eqb_spec c a) as [->|Hne]; [|done].
  by destruct (H a (chars s) eq_refl).
Qed.

Lemma replace_char_fixed a b s : a ∉ chars s -> replace_char a b s = s.
Proof.
  unfold replace_char. induction s as [|c s IH]; simpl; [done|].
  intros Hnin. apply not_elem_of_cons in Hnin as [Hne Hnin].
  destruct (Ascii.eqb_spec c a) as [->|_]; [done|]. by rewrite IH.
Qed.

Lemma replace_char_gone a b s : a <> b -> a ∉ chars (replace_char a b s).
Proof.
  intros Hab. unfold replace_char. rewrite chars_map_chars.
  intros (c & Heq & _)%list_elem_of_fmap.
  destruct (Ascii.eqb_spec c a); congruence.
Qed.

Lemma norm_inner_path_no_backslash p : "\"%char ∉ chars (_norm_inner_path p).
Proof.
  unfold _norm_inner_path.
  destruct (chars_lstrip_char "/" (replace_char "\" "/" p)) as (pre & Heq & _).
  intros Hin. apply (replace_char_gone "\" "/" p); [done|].
  rewrite Heq. apply elem_of_app. by right.
Qed.

Lemma norm_inner_path_idemp p : _norm_inner_path (_norm_inner_path p) = _norm_inner_path p.
Proof.
  unfold _norm_inner_path at 1.
  rewrite replace_char_fixed by apply norm_inner_path_no_backslash.
  apply lstrip_char_fixed. unfold _norm_inner_path.
  by destruct (chars_lstrip_char "/" (replace_char "\" "/" p)) as (pre & _ & Hhd).
Qed.

(** X5: [_norm_inner_path] yields a normal form.  Normalising twice is
    normalising once; the result holds no backslash and does not start
    with a slash; and [_ensure_inner_sha] gives a path and its normal form
    the same hash, which is why the receipt writer may pass either. *)
Theorem norm_inner_path_normal_form (E : env) (p : string) (inner_sha : option string) :
  let q := _norm_inner_path p in
  _norm_inner_path q = q /\
  "\"%char ∉ chars q /\
  (forall c l, chars q = c :: l -> c <> "/"%char) /\
  (forall p', _norm_inner_path p' = q ->
     _ensure_inner_sha E p' inner_sha = _ensure_inner_sha E p inner_sha) /\
  _ensure_inner_sha E q inner_sha = _ensure_inner_sha E p inner_sha.
Proof.
  simpl. split; [apply norm_inner_path_idemp|].
  split; [apply norm_inner_path_no_backslash|]. split; [|split].
  - unfold _norm_inner_path.
    by destruct (chars_lstrip_char "/" (replace_char "\" "/" p)) as (pre & _ & Hhd).
  - intros p' Hp'. unfold _ensure_inner_sha. by rewrite Hp'.
  - unfold _ensure_inner_sha. by rewrite norm_inner_path_idemp.
Qed.

Lemma clip_length n s : String.length (clip n s) = (String.length s `min` n)%nat.
Proof.
  unfold clip. rewrite <- !chars_length, chars_substring_0, length_take. lia.
Qed.

Lemma clip_fits n s : (String.length s <= n)%nat -> clip n s = s.
Proof.
  intros Hle. apply chars_inj. unfold clip. rewrite chars_substring_0.
  apply take_ge. by rewrite chars_length.
Qed.

Lemma clip_prefix n s : chars (clip n s) `prefix_of` chars s.
Proof. unfold clip. rewrite chars_substring_0. apply prefix_take. Qed.

(** X6: [_clip_text] bounds what is stored.  [None] stays [None]; a text
    comes back as a prefix of itself whose length is the smaller of its
    own length and the limit, and so unchanged when it fits.  The run row
    of a ZIP therefore never carries a message longer than 4000
    characters, and a ZIP receipt never an error message longer than
    8000. *)
Theorem clip_text_bounds (limit : nat) (s : string) :
  _clip_text None limit = None /\
  (exists t, _clip_text (Some s) limit = Some t /\
     String.length t = (String.length s `min` limit)%nat /\
     chars t `prefix_of` chars s /\
     ((String.length s <= limit)%nat -> t = s)) /\
  (forall E now run_id receipt_id zsha action d m,
     zrr_message <$> zip_receipt_runs
       (db_insert_zip_receipt_run E now run_id receipt_id zsha action (Some s) d)
       !! (run_id, zsha) = Some (Some m) ->
     (String.length m <= 4000)%nat) /\
  (forall E now run_id folder fcode fname zname zpath zsha st ecode smsg ddc dxc d m,
     zr_error_message <$> zip_receipts
       (db_upsert_zip_receipt E now run_id folder fcode fname zname zpath zsha
          st ecode smsg ddc dxc (Some s) d).1 !! zsha = Some (Some m) ->
     (String.length m <= 8000)%nat).
Proof.
  split; [done|]. split; [|split].
  - exists (clip limit s). split; [done|]. split; [apply clip_length|].
    split; [apply clip_prefix|apply clip_fits].
  - intros E now run_id receipt_id zsha action d m.
    unfold db_insert_zip_receipt_run. simpl. rewrite lookup_insert_eq. simpl.
    destruct (zip_receipt_runs_has_message E); simpl; [|done].
    intros [= <-]. rewrite clip_length. lia.
  - intros E now run_id folder fcode fname zname zpath zsha st ecode smsg ddc dxc d m.
    unfold db_upsert_zip_receipt.
    destruct (zip_receipts d !! zsha); simpl; rewrite lookup_insert_eq; simpl;
      (destruct (zip_receipts_has_error_message E); simpl; [|done]);
      intros [= <-]; rewrite clip_length; lia.
Qed.

Lemma strip_no_char (P : ascii -> Prop) s :
  Forall P (chars s) -> Forall P (chars (strip s)).
Proof.
  destruct (strip_infix s) as (l1 & l2 & Heq & _). rewrite Heq.
  intros H. apply Forall_app in H as [_ H]. by apply Forall_app in H as [H _].
Qed.

(** X7: [_shorten] makes a text fit one log line.  The result holds no
    carriage return and no line feed, whatever the limit; and for a limit
    of at least three characters, which every call passes, it is no longer
    than the limit: the cleaned text itself when that fits, else its first
    [max_len - 3] characters followed by three dots. *)
Theorem shorten_fits_the_limit (s : string) (max_len : nat) :
  (3 <= max_len)%nat ->
  let cleaned :=
    strip (map_chars (fun c => if Ascii.eqb c "013" || Ascii.eqb c "010"
                               then " "%char else c) s) in
  (String.length (_shorten s max_len) <= max_len)%nat /\
  Forall (fun c => c <> "013"%char /\ c <> "010"%char) (chars (_shorten s max_len)) /\
  ((String.length cleaned <= max_len)%nat -> _shorten s max_len = cleaned) /\
  ((max_len < String.length cleaned)%nat ->
     chars (_shorten s max_len) = take (max_len - 3) (chars cleaned) ++ chars "...").
Proof.
  intros Hmax cleaned.
  assert (Forall (fun c => c <> "013"%char /\ c <> "010"%char) (chars cleaned)) as Hclean.
  { subst cleaned. apply strip_no_char. rewrite chars_map_chars.
    apply Forall_fmap, Forall_forall. intros c _. simpl.
    destruct (Ascii.eqb_spec c "013"); [done|].
    destruct (Ascii.eqb_spec c "010"); done. }
  unfold _shorten. fold cleaned. case_bool_decide as Hlen.
  - split; [done|]. split; [done|]. split; [done|]. lia.
  - split; [|split; [|split]].
    + rewrite <- chars_length, chars_app, length_app, chars_substring_0, length_take.
      simpl. lia.
    + rewrite chars_app, chars_substring_0. apply Forall_app. split.
      * by apply Forall_take.
      * repeat constructor; done.
    + lia.
    + intros _. by rewrite chars_app, chars_substring_0.
Qed.

(** The theorem at a two-line message and the limit of the zip-open log. *)
Lemma shorten_fits_the_limit_witness :
  (String.length (_shorten ("Bad password" +:+ String "010" "for file") 1200) <= 1200)%nat.
Proof.
  apply (shorten_fits_the_limit ("Bad password" +:+ String "010" "for file") 1200). lia.
Defined.

End DbMediTextProofs.

(** ** The resolver's candidates in the extraction loop *)

Module ResolverExtractProofs.
Import PyStr PyText PyStrFacts Candidates CandidatesFacts Passwords PasswordsProofs.
Import ZipExtract ZipExtractFacts.

(** A list that is already trimmed, free of empty texts and of repeats
    passes the loop unchanged. *)
Lemma keep_first_fixed seen ps :
  NoDup ps ->
  (forall p, p ∈ ps -> p <> "" /\ strip p = p /\ p ∉ seen) ->
  keep_first seen (Some <$> ps) = ps.
Proof.
  revert seen. induction ps as [|p ps IH]; intros seen Hnd Hall; simpl; [done|].
  apply NoDup_cons in Hnd as [Hnin Hnd].
  destruct (Hall p) as (Hne & Hstrip & Hseen); [left|].
  unfold norm. simpl. rewrite Hstrip.
  apply nonempty_true in Hne. rewrite Hne. simpl.
  rewrite bool_decide_eq_false_2 by done. f_equal.
  apply IH; [done|]. intros q Hq.
  destruct (Hall q) as (? & ? & ?); [by right|]. repeat split; try done.
  set_solver.
Qed.

Lemma trim_dedup_idemp pws : trim_dedup (Some <$> trim_dedup pws) = trim_dedup pws.
Proof.
  rewrite !trim_dedup_keep_first. apply keep_first_fixed; [apply NoDup_keep_first|].
  intros p (Hne & _ & pw & _ & Hn)%elem_of_keep_first.
  split; [done|]. split; [|set_solver]. rewrite <- Hn. apply strip_idemp.
Qed.

(** The password a finished loop reports is a candidate that extracted. *)
Lemma try_candidates_used zf cands le lrm pw :
  used_password_text (try_candidates zf cands le lrm) = Some pw ->
  Some pw ∈ cands /\ extractall zf (Some pw) = Extracted.
Proof.
  revert le lrm. induction cands as [|c cands IH]; intros le lrm; simpl; [done|].
  destruct (extractall zf c) as [|msg|msg|msg|msg] eqn:Hc; simpl.
  - intros ->. split; [left|done].
  - repeat case_match; intros [? ?]%IH; (split; [by right|done]).
  - done.
  - intros [? ?]%IH. split; [by right|done].
  - intros [? ?]%IH. split; [by right|done].
Qed.

(** X8: the extraction loop tries exactly what the resolver returned.
    The second trimming and de-duplication inside [extract_zip_to_temp]
    change nothing on a list that [get_password_candidates] produced: an
    encrypted archive is tried with the resolver's candidates in the
    resolver's order and then once without a password.  A password
    reported as used is therefore the trimmed text of a matching active
    row, and the archive extracted under it. *)
Theorem extract_tries_the_resolved_candidates
    (table : list zip_password) (fc ffn zn zs : string) (zf : zip_archive) :
  let cands := get_password_candidates table fc ffn zn zs in
  candidates cands = (Some <$> cands) ++ [None] /\
  (encrypted zf = true ->
     extract_zip_to_temp (Opened zf) cands =
     try_candidates zf ((Some <$> cands) ++ [None]) None "") /\
  (forall pw,
     used_password_text (extract_zip_to_temp (Opened zf) cands) = Some pw ->
     pw ∈ cands /\ extractall zf (Some pw) = Extracted /\
     exists r, r ∈ table /\ matches fc ffn zn zs r /\
               strip (or_empty (password_text r)) = pw).
Proof.
  intros cands.
  assert (candidates cands = (Some <$> cands) ++ [None]) as Hc.
  { unfold candidates. subst cands. unfold get_password_candidates.
    by rewrite trim_dedup_idemp. }
  split; [done|]. split.
  - intros Henc. unfold extract_zip_to_temp. rewrite Henc. simpl. by rewrite Hc.
  - intros pw. unfold extract_zip_to_temp.
    destruct (encrypted zf); simpl.
    + rewrite Hc. intros [Hin Hex]%try_candidates_used.
      apply elem_of_app in Hin as [Hin|Hin]; [|by apply list_elem_of_singleton in Hin].
      apply list_elem_of_fmap in Hin as (p & [= <-] & Hp).
      split; [done|]. split; [done|].
      subst cands. unfold get_password_candidates in Hp.
      rewrite trim_dedup_keep_first in Hp.
      apply elem_of_keep_first in Hp as (_ & _ & o & Ho & Hn).
      apply list_elem_of_fmap in Ho as (r & -> & Hr).
      apply elem_of_select_rows in Hr as [Hr Hm]. by exists r.
    + destruct (extractall zf None); simpl; done.
Qed.

End ResolverExtractProofs.

(** ** Stage F: receipts are permanent and their ids unique *)

Module ReceiptKeysProofs.
Import PyStr ZipExtract ZipImport DbMedi ZipImportPhase ZipImportSpec ZipImportFacts.
Import ZipImportRunProofs ReceiptKeys.
Import Examples.

Section steps.
Context (E : env) (now : timestamp) (run_id : Z) (xe xw : bool).

Local Abbreviation step := (import_step E now run_id xe xw).

(** The id counter of the ZIP receipts moves only on an insert. *)
Lemma import_zip_counter folder z zsha d :
  next_zip_receipt_id (import_zip E now run_id xe xw folder z zsha d) =
  if zip_receipts d !! zsha is None
  then next_zip_receipt_id d + 1 else next_zip_receipt_id d.
Proof.
  unfold import_zip.
  destruct (parse_facility_folder_name folder) as [fcode fname].
  destruct (structure_of _ _) as [s emsg].
  unfold db_upsert_zip_receipt.
  destruct (zip_receipts d !! zsha) as [old|] eqn:Hold; simpl.
  all: destruct (xe && bool_decide (s_status s = "OK")).
  all: try (match goal with
            |- context [process_xmls_in_zip ?a ?b ?c ?d0 ?e ?f ?g ?h ?i] =>
              destruct (process_xmls_in_zip_frame a b c d0 e f g h i) as (_ & _ & -> & _)
            end).
  all: done.
Qed.

Lemma zip_row_after_identity folder z zsha d :
  zip_identity (zip_row_after E now run_id folder z zsha d) =
  match zip_receipts d !! zsha with
  | Some old => zip_identity old
  | None => (next_zip_receipt_id d, zsha, run_id, now)
  end.
Proof.
  unfold zip_row_after.
  destruct (parse_facility_folder_name folder), (structure_of_zip _ _ _ _).
  by destruct (zip_receipts d !! zsha).
Qed.

Lemma step_zip_identity d fz s r :
  zip_receipts d !! s = Some r ->
  exists r', zip_receipts (step d fz) !! s = Some r' /\ zip_identity r' = zip_identity r.
Proof.
  intros Hr. destruct (decide (zf_sha256 fz.2 = Some s)) as [Hs|Hs].
  - destruct (step_this E now run_id xe xw s d fz Hs) as [Hrow _].
    eexists. split; [done|]. by rewrite zip_row_after_identity, Hr.
  - destruct (step_other E now run_id xe xw s d fz Hs) as [Hrow _].
    exists r. by rewrite Hrow.
Qed.

Lemma foldl_step_zip_identity zips d s r :
  zip_receipts d !! s = Some r ->
  exists r', zip_receipts (foldl step d zips) !! s = Some r' /\
             zip_identity r' = zip_identity r.
Proof.
  revert d r. induction zips as [|fz zips IH]; intros d r Hr; [by exists r|].
  simpl. destruct (step_zip_identity d fz s r Hr) as (r1 & Hr1 & Hid1).
  destruct (IH _ _ Hr1) as (r2 & Hr2 & Hid2). exists r2. split; [done|]. congruence.
Qed.

Lemma step_zip_runs d fz r s :
  r <> run_id -> zip_receipt_runs (step d fz) !! (r, s) = zip_receipt_runs d !! (r, s).
Proof.
  intros Hr. unfold import_step, import_zip_file.
  destruct (zf_sha256 fz.2) as [zsha|]; [|done].
  destruct (import_zip_zip_side E now run_id xe xw fz.1 fz.2 zsha d) as (_ & -> & _).
  rewrite lookup_insert_ne; [done|congruence].
Qed.

Lemma process_xml_runs zsha fcode fname d xf r k :
  r <> run_id ->
  xml_receipt_runs (process_xml E now run_id zsha fcode fname xw d xf) !! (r, k) =
  xml_receipt_runs d !! (r, k).
Proof.
  intros Hr. unfold process_xml. destruct xf as [p [name info|name ch]]; simpl; [|done].
  unfold db_upsert_xml_receipt.
  destruct (upsert_xml_row _ _ _ _ _) as [[t n] id].
  destruct (read_error info); simpl; (rewrite lookup_insert_ne; [done|congruence]).
Qed.

Lemma step_xml_runs d fz r k :
  r <> run_id -> xml_receipt_runs (step d fz) !! (r, k) = xml_receipt_runs d !! (r, k).
Proof.
  intros Hr. unfold import_step, import_zip_file.
  destruct (zf_sha256 fz.2) as [zsha|]; [|done].
  unfold import_zip.
  destruct (parse_facility_folder_name fz.1) as [fcode fname].
  destruct (structure_of _ _) as [s emsg].
  destruct (db_upsert_zip_receipt _ _ _ _ _ _ _ _ _ _ _ _ _ _ _ _) as [d1 rid] eqn:Hup.
  assert (xml_receipt_runs d1 = xml_receipt_runs d) as Hd1.
  { unfold db_upsert_zip_receipt in Hup.
    destruct (zip_receipts d !! zsha); by simplify_eq. }
  destruct (xe && bool_decide (s_status s = "OK")); [|by rewrite <- Hd1].
  unfold process_xmls_in_zip. rewrite <- Hd1.
  change (xml_receipt_runs d1) with
    (xml_receipt_runs (db_insert_zip_receipt_run E now run_id rid zsha
        (if db_get_zip_receipt_id_by_sha d zsha is None then "NEW" else "SEEN") None d1)).
  generalize (db_insert_zip_receipt_run E now run_id rid zsha
        (if db_get_zip_receipt_id_by_sha d zsha is None then "NEW" else "SEEN") None d1).
  generalize (collect_xml (extracted_root (zf_open fz.2))). intros files.
  induction files as [|xf files IH] using rev_ind; intros d2; [done|].
  rewrite foldl_app. simpl. rewrite process_xml_runs by done. apply IH.
Qed.

Lemma foldl_step_runs zips d r :
  r <> run_id ->
  (forall s, zip_receipt_runs (foldl step d zips) !! (r, s) = zip_receipt_runs d !! (r, s)) /\
  (forall k, xml_receipt_runs (foldl step d zips) !! (r, k) = xml_receipt_runs d !! (r, k)).
Proof.
  intros Hr. revert d. induction zips as [|fz zips IH]; intros d; [done|].
  simpl. destruct (IH (step d fz)) as [Hz Hx]. split.
  - intros s. by rewrite Hz, step_zip_runs.
  - intros k. by rewrite Hx, step_xml_runs.
Qed.

(** The keys of the ZIP receipts through one step. *)
Lemma step_zip_state d fz :
  zip_state (step d fz) =
  match zf_sha256 fz.2 with
  | None => zip_state d
  | Some s =>
      (<[s := zip_row_after E now run_id fz.1 fz.2 s d]> (zip_receipts d),
       if zip_receipts d !! s is None
       then next_zip_receipt_id d + 1 else next_zip_receipt_id d)
  end.
Proof.
  unfold import_step, import_zip_file, zip_state.
  destruct (zf_sha256 fz.2) as [zsha|]; [|done].
  rewrite import_zip_counter.
  by destruct (import_zip_zip_side E now run_id xe xw fz.1 fz.2 zsha d) as (-> & _).
Qed.

Lemma keyed_by_insert {A} (key : A -> string) (id : A -> Z) t next k row :
  keyed_by key id (t, next) ->
  key row = k ->
  id row = default next (id <$> t !! k) ->
  keyed_by key id (<[k := row]> t, if t !! k is None then next + 1 else next).
Proof.
  intros [Hkey Hinj] Hk Hid. simpl in *.
  assert (forall s r, t !! s = Some r -> id r < if t !! k is None then next + 1 else next)
    as Hlt.
  { intros s r Hr. destruct (Hkey _ _ Hr). destruct (t !! k); lia. }
  split; simpl.
  - intros s r. destruct (decide (s = k)) as [->|Hne].
    + rewrite lookup_insert_eq. intros [= <-]. split; [done|].
      rewrite Hid. destruct (t !! k) as [old|] eqn:Hold; simpl; [|lia].
      by destruct (Hkey _ _ Hold).
    + rewrite lookup_insert_ne by done. intros Hr. split; [|by eapply Hlt].
      by destruct (Hkey _ _ Hr).
  - intros s1 s2 r1 r2.
    destruct (decide (s1 = k)) as [->|Hne1]; destruct (decide (s2 = k)) as [->|Hne2];
      rewrite ?lookup_insert_eq, ?lookup_insert_ne by done; try done.
    + intros [= <-] H2 Heq. rewrite Hid in Heq.
      destruct (t !! k) as [old|] eqn:Hold; simpl in Heq.
      * symmetry. by eapply Hinj.
      * destruct (Hkey _ _ H2). lia.
    + intros H1 [= <-] Heq. rewrite Hid in Heq.
      destruct (t !! k) as [old|] eqn:Hold; simpl in Heq.
      * by eapply Hinj.
      * destruct (Hkey _ _ H1). lia.
    + apply Hinj.
Qed.

Lemma step_zip_keyed d fz : zip_keyed (zip_state d) -> zip_keyed (zip_state (step d fz)).
Proof.
  intros Hkeyed. rewrite step_zip_state.
  destruct (zf_sha256 fz.2) as [zsha|]; [|done].
  pose proof (zip_row_after_identity fz.1 fz.2 zsha d) as Hid.
  apply keyed_by_insert; [done| |].
  - destruct (zip_receipts d !! zsha) as [old|] eqn:Hold.
    + injection Hid as _ -> _ _. by destruct (proj1 Hkeyed _ _ Hold).
    + by injection Hid as _ -> _ _.
  - destruct (zip_receipts d !! zsha) as [old|] eqn:Hold; by injection Hid as -> _ _ _.
Qed.

Lemma apply_request_xml_keyed t q :
  xml_keyed t -> xml_keyed (apply_request E now run_id t q).
Proof.
  intros Hkeyed. destruct t as [t next].
  unfold apply_request, upsert_xml_row. simpl.
  destruct (t !! q_xml_sha256 q) as [old|] eqn:Hold; simpl.
  - pose proof (keyed_by_insert xml_sha256 xml_receipt_id t next (q_xml_sha256 q)) as Hins.
    rewrite Hold in Hins. apply Hins; [done| |done].
    simpl. by destruct (proj1 Hkeyed _ _ Hold).
  - pose proof (keyed_by_insert xml_sha256 xml_receipt_id t next (q_xml_sha256 q)) as Hins.
    rewrite Hold in Hins. by apply Hins.
Qed.

Lemma foldl_requests_xml_keyed reqs t :
  xml_keyed t -> xml_keyed (foldl (apply_request E now run_id) t reqs).
Proof.
  revert t. induction reqs as [|q reqs IH]; intros t Ht; [done|].
  simpl. by apply IH, apply_request_xml_keyed.
Qed.

Lemma foldl_step_keyed zips d :
  zip_keyed (zip_state d) -> xml_keyed (xml_state d) ->
  zip_keyed (zip_state (foldl step d zips)) /\ xml_keyed (xml_state (foldl step d zips)).
Proof.
  intros Hz Hx. split.
  - revert d Hz Hx. induction zips as [|fz zips IH]; intros d Hz Hx; [done|].
    simpl. apply IH; [by apply step_zip_keyed|].
    rewrite step_xml_state. by apply foldl_requests_xml_keyed.
  - rewrite foldl_step_xml_state. by apply foldl_requests_xml_keyed.
Qed.

End steps.

(** A run seen from the receipt tables and their counters. *)
Lemma main_zip_import_states E now root note xe xw inp d :
  let d1 := (main_zip_import E now root note xe xw inp d).1 in
  let d0 := (db_insert_run now root note d).1 in
  let d2 := foldl (import_step E now (next_run_id d) xe xw) d0 (flatten inp) in
  zip_receipts d1 = zip_receipts d2 /\
  next_zip_receipt_id d1 = next_zip_receipt_id d2 /\
  xml_receipts d1 = xml_receipts d2 /\
  next_xml_receipt_id d1 = next_xml_receipt_id d2 /\
  zip_receipt_runs d1 = zip_receipt_runs d2 /\ xml_receipt_runs d1 = xml_receipt_runs d2 /\
  zip_passwords d1 = zip_passwords d /\
  next_run_id d1 = next_run_id d + 1 /\
  import_runs d1 =
    alter (fun r => {| started_at := started_at r; finished_at := Some now;
                       input_root := input_root r; run_note := note |})
      (next_run_id d)
      (<[next_run_id d := {| started_at := now; finished_at := None;
                             input_root := root; run_note := note |}]> (import_runs d)).
Proof.
  intros d1 d0 d2. subst d1 d2. unfold main_zip_import.
  change (db_insert_run now root note d) with (d0, next_run_id d).
  cbv beta iota. rewrite phase_is_foldl.
  destruct (foldl_step_zip_side E now (next_run_id d) xe xw (flatten inp) d0) as (Hp & Hn & Hr).
  unfold db_finish_run. simpl. rewrite Hr, Hp, Hn. by repeat split.
Qed.

(** X9: an import run never rewrites history.  Every receipt that
    existed before the run exists after it under the same key with the
    same id, content hash and first-seen stamp (an XML receipt also keeps
    its parent ZIP, inner path and the results of the later stages); the
    run rows and the run records of earlier runs are untouched; and the
    password table is not written. *)
Theorem import_run_keeps_history
    (E : env) (now : timestamp) (root : string) (note : option string)
    (xe xw : bool) (inp : list facility_dir) (d : db) :
  let d' := (main_zip_import E now root note xe xw inp d).1 in
  (forall s r, zip_receipts d !! s = Some r ->
     exists r', zip_receipts d' !! s = Some r' /\ zip_identity r' = zip_identity r) /\
  (forall k r, xml_receipts d !! k = Some r ->
     exists r', xml_receipts d' !! k = Some r' /\ kept r' = kept r) /\
  (forall r s, r <> next_run_id d ->
     zip_receipt_runs d' !! (r, s) = zip_receipt_runs d !! (r, s)) /\
  (forall r k, r <> next_run_id d ->
     xml_receipt_runs d' !! (r, k) = xml_receipt_runs d !! (r, k)) /\
  (forall r, r <> next_run_id d -> import_runs d' !! r = import_runs d !! r) /\
  zip_passwords d' = zip_passwords d.
Proof.
  intros d'. subst d'.
  destruct (main_zip_import_states E now root note xe xw inp d)
    as (Hz & _ & Hx & _ & Hzr & Hxr & Hp & _ & Hruns).
  rewrite Hz, Hx, Hzr, Hxr, Hp, Hruns.
  set (d0 := (db_insert_run now root note d).1) in *.
  split; [|split; [|split; [|split; [|split]]]].
  - intros s r Hr.
    by apply (foldl_step_zip_identity E now (next_run_id d) xe xw (flatten inp) d0).
  - intros k r Hr.
    pose proof (foldl_step_xml_state E now (next_run_id d) xe xw (flatten inp) d0) as Hst.
    apply (f_equal fst) in Hst. simpl in Hst. rewrite Hst.
    by apply (foldl_requests_kept E now (next_run_id d) _ (xml_state d0) k r).
  - intros r s Hr.
    by destruct (foldl_step_runs E now (next_run_id d) xe xw (flatten inp) d0 r Hr) as [-> _].
  - intros r k Hr.
    by destruct (foldl_step_runs E now (next_run_id d) xe xw (flatten inp) d0 r Hr) as [_ ->].
  - intros r Hr. rewrite lookup_alter_ne by done.
    by rewrite lookup_insert_ne.
  - done.
Qed.

(** X10: ids stay keys.  When, before a run, every receipt sits under
    its own content hash with an id below the counter of its table and no
    two receipts share an id, and every run record lies below the run
    counter, the same holds after the run.  On such a database the id
    [db_get_zip_receipt_id_by_sha] returns names one ZIP. *)
Theorem import_run_keeps_ids_unique
    (E : env) (now : timestamp) (root : string) (note : option string)
    (xe xw : bool) (inp : list facility_dir) (d : db) :
  well_keyed d ->
  let d' := (main_zip_import E now root note xe xw inp d).1 in
  well_keyed d' /\
  forall s1 s2 id, db_get_zip_receipt_id_by_sha d' s1 = Some id ->
                   db_get_zip_receipt_id_by_sha d' s2 = Some id -> s1 = s2.
Proof.
  intros (Hz & Hx & Hr) d'.
  assert (well_keyed d') as Hwk.
  { subst d'.
    destruct (main_zip_import_states E now root note xe xw inp d)
      as (Hzs & Hzn & Hxs & Hxn & _ & _ & _ & Hnext & Hruns).
    set (d0 := (db_insert_run now root note d).1) in *.
    destruct (foldl_step_keyed E now (next_run_id d) xe xw (flatten inp) d0 Hz Hx)
      as [Hz' Hx'].
    unfold well_keyed, zip_state, xml_state, runs_keyed in *.
    rewrite Hzs, Hzn, Hxs, Hxn, Hnext, Hruns.
    split; [done|]. split; [done|].
    intros r. destruct (decide (r = next_run_id d)) as [->|Hne]; [lia|].
    rewrite lookup_alter_ne, lookup_insert_ne by done. intros Hs%Hr. lia. }
  split; [done|].
  intros s1 s2 id. unfold db_get_zip_receipt_id_by_sha.
  destruct (zip_receipts d' !! s1) as [r1|] eqn:H1; [|done].
  destruct (zip_receipts d' !! s2) as [r2|] eqn:H2; [|done].
  simpl. intros [= <-] [= Heq]. destruct Hwk as [[_ Hinj] _].
  by apply (Hinj s1 s2 r1 r2).
Qed.

(** The theorem at the empty database and the example input. *)
Lemma import_run_keeps_ids_unique_witness : well_keyed c2_run1.1.
Proof.
  apply (import_run_keeps_ids_unique c2_env 100 "/in" None true false c2_input c2_empty).
  split; [|split].
  - split; simpl; intros *; by rewrite lookup_empty.
  - split; simpl; intros *; by rewrite lookup_empty.
  - intros r. simpl. rewrite lookup_empty. by intros [? ?].
Defined.

End ReceiptKeysProofs.

(** ** Stage F: the facility folder name *)

Module FacilityFolderProofs.
Import PyStr PyText PyStrFacts ZipImportPhase.

Lemma split_once_app sep a b :
  sep ∉ chars a -> split_once sep (a +:+ String sep b) = Some (a, b).
Proof.
  induction a as [|c a IH]; simpl; intros Hnin.
  - by rewrite Ascii.eqb_refl.
  - apply not_elem_of_cons in Hnin as [Hne Hnin].
    change (String c a +:+ String sep b) with (String c (a +:+ String sep b)). simpl.
    destruct (Ascii.eqb_spec c sep) as [->|_]; [done|]. by rewrite IH.
Qed.

Lemma split_once_none sep a : sep ∉ chars a -> split_once sep a = None.
Proof.
  induction a as [|c a IH]; simpl; intros Hnin; [done|].
  apply not_elem_of_cons in Hnin as [Hne Hnin].
  destruct (Ascii.eqb_spec c sep) as [->|_]; [done|]. by rewrite IH.
Qed.

Lemma split_once_none_inv sep s : split_once sep s = None -> sep ∉ chars s.
Proof.
  induction s as [|c s IH]; simpl; [intros _; apply not_elem_of_nil|].
  destruct (Ascii.eqb_spec c sep) as [->|Hne]; [done|].
  destruct (split_once sep s) as [[a b]|]; [done|]. intros _.
  apply not_elem_of_cons. split; [congruence|by apply IH].
Qed.

Lemma split_once_first sep s a b :
  split_once sep s = Some (a, b) -> sep ∉ chars a /\ s = a +:+ String sep b.
Proof.
  revert a. induction s as [|c s IH]; simpl; intros a; [done|].
  destruct (Ascii.eqb_spec c sep) as [->|Hne].
  - intros [= <- <-]. split; [apply not_elem_of_nil|done].
  - destruct (split_once sep s) as [[a' b']|]; simpl; [|done].
    intros [= <- <-]. destruct (IH a' eq_refl) as [Hnin ->]. split; [|done].
    simpl. by apply not_elem_of_cons.
Qed.

(** X11: a facility folder name is split at its first underscore.  For
    a code without underscore, the folder [code_name] gives the trimmed
    code and the trimmed name, further underscores staying in the name; a
    folder without underscore is all code and has the empty name.  In
    every case the code returned holds no underscore. *)
Theorem parse_facility_folder_name_first_underscore (code name : string) :
  "_"%char ∉ chars code ->
  parse_facility_folder_name (code +:+ "_" +:+ name) = (strip code, strip name) /\
  parse_facility_folder_name code = (strip code, "") /\
  forall folder, "_"%char ∉ chars (parse_facility_folder_name folder).1.
Proof.
  intros Hnin. unfold parse_facility_folder_name. split; [|split].
  - change (code +:+ "_" +:+ name) with (code +:+ String "_" name).
    by rewrite split_once_app.
  - by rewrite split_once_none.
  - intros folder. destruct (split_once "_" folder) as [[a b]|] eqn:Hs; simpl.
    + apply split_once_first in Hs as [Ha _].
      destruct (strip_infix a) as (l1 & l2 & Heq & _).
      intros Hin. apply Ha. rewrite Heq. set_solver.
    + apply split_once_none_inv in Hs.
      destruct (strip_infix folder) as (l1 & l2 & Heq & _).
      intros Hin. apply Hs. rewrite Heq. set_solver.
Qed.

(** The theorem at a folder whose name holds a second underscore. *)
Lemma parse_facility_folder_name_witness :
  parse_facility_folder_name "0001_City_Clinic" = ("0001", "City_Clinic").
Proof.
  apply (parse_facility_folder_name_first_underscore "0001" "City_Clinic").
  vm_compute. intros H. repeat (apply elem_of_cons in H as [H|H]; [discriminate H|]).
  by apply elem_of_nil in H.
Defined.

End FacilityFolderProofs.

(** ** The ledger of shared files through the stages after the scan *)

Module SharedFilesFacts.
Import PyStr SharedScan SharedFiles.

Lemma update_by_id_lookup id f (t : table) h :
  update_by_id id f t !! h =
  (fun r => if bool_decide (shared_file_id r = id) then f r else r) <$> t !! h.
Proof. unfold update_by_id. apply lookup_fmap. Qed.

Lemma update_by_id_compose id f g (t : table) :
  (forall r, shared_file_id (g r) = shared_file_id r) ->
  update_by_id id f (update_by_id id g t) = update_by_id id (f ∘ g) t.
Proof.
  intros Hg. unfold update_by_id. rewrite <- map_fmap_compose.
  apply map_fmap_ext. intros h r _. simpl.
  destruct (decide (shared_file_id r = id)) as [Hid|Hid].
  - rewrite (bool_decide_eq_true_2 _ Hid). by rewrite bool_decide_eq_true_2 by by rewrite Hg.
  - rewrite (bool_decide_eq_false_2 _ Hid). by rewrite bool_decide_eq_false_2.
Qed.

Lemma update_by_id_id id (t : table) : update_by_id id (fun r => r) t = t.
Proof.
  unfold update_by_id. rewrite <- (map_fmap_id t) at 2.
  apply map_fmap_ext. intros h r _. by case_bool_decide.
Qed.

Lemma foldl_update_by_id G sel (t : table) :
  (forall r x, shared_file_id (G r x) = shared_file_id x) ->
  foldl (fun t r => update_by_id (shared_file_id r) (G r) t) t sel = passes G sel <$> t.
Proof.
  intros HG. revert t. induction sel as [|r sel IH]; intros t; simpl.
  - by rewrite map_fmap_id.
  - rewrite IH. unfold update_by_id. rewrite <- map_fmap_compose.
    apply map_fmap_ext. intros h x _. done.
Qed.

Lemma passes_lookup G sel (t : table) h :
  (passes G sel <$> t) !! h = passes G sel <$> t !! h.
Proof. apply lookup_fmap. Qed.

Lemma passes_id G sel x :
  (forall r x, shared_file_id (G r x) = shared_file_id x) ->
  shared_file_id (passes G sel x) = shared_file_id x.
Proof.
  intros HG. revert x. induction sel as [|r sel IH]; intros x; simpl; [done|].
  rewrite IH. case_bool_decide; [apply HG|done].
Qed.

Lemma passes_untouched G sel x :
  (forall r, r ∈ sel -> shared_file_id r <> shared_file_id x) -> passes G sel x = x.
Proof.
  induction sel as [|r sel IH]; intros Hne; simpl; [done|].
  rewrite bool_decide_eq_false_2.
  - apply IH. intros r' Hr'. apply Hne. by right.
  - intros Heq. by apply (Hne r); [left|].
Qed.

Lemma passes_once G sel x :
  (forall r x, shared_file_id (G r x) = shared_file_id x) ->
  NoDup (shared_file_id <$> sel) -> x ∈ sel -> passes G sel x = G x x.
Proof.
  intros HG. revert x. induction sel as [|r sel IH]; intros x Hnd Hx; simpl.
  - by apply elem_of_nil in Hx.
  - apply NoDup_cons in Hnd as [Hnin Hnd]. apply elem_of_cons in Hx as [->|Hx].
    + rewrite bool_decide_eq_true_2 by done. apply passes_untouched.
      intros r' Hr' Heq. apply Hnin. rewrite HG in Heq. rewrite <- Heq.
      by apply list_elem_of_fmap_2.
    + rewrite bool_decide_eq_false_2; [by apply IH|].
      intros Heq. apply Hnin. rewrite <- Heq. by apply list_elem_of_fmap_2.
Qed.

(** A pass that keeps a set of columns keeps them through the loop. *)
Lemma passes_keeps {C} (cols : shared_file -> C) G sel x :
  (forall r x, cols (G r x) = cols x) -> cols (passes G sel x) = cols x.
Proof.
  intros HG. revert x. induction sel as [|r sel IH]; intros x; simpl; [done|].
  rewrite IH. case_bool_decide; [apply HG|done].
Qed.

Lemma elem_of_rows (t : table) r : r ∈ rows t <-> exists h, t !! h = Some r.
Proof.
  unfold rows. rewrite list_elem_of_fmap. split.
  - intros ([h r'] & -> & Hin). exists h. by apply elem_of_map_to_list.
  - intros [h Hr]. exists (h, r). split; [done|]. by apply elem_of_map_to_list.
Qed.

Lemma limit_if_positive_sublist {A} n (l : list A) : limit_if_positive n l `sublist_of` l.
Proof. unfold limit_if_positive. destruct (0 <? n); [apply sublist_take|done]. Qed.

Lemma rows_ids_NoDup (t : table) :
  SharedJudge.ids_distinct t -> NoDup (shared_file_id <$> rows t).
Proof.
  intros Hd. unfold rows. rewrite <- list_fmap_compose.
  apply NoDup_fmap_2_strong; [|apply NoDup_map_to_list].
  intros [h1 r1] [h2 r2] H1%elem_of_map_to_list H2%elem_of_map_to_list Heq. simpl in Heq.
  assert (h1 = h2) as -> by by eapply Hd. congruence.
Qed.

(** A selection that filters, orders and limits the rows reads rows of
    the table, each once. *)
Lemma selection_ids_NoDup (t : table) (P : shared_file -> Prop)
    `{forall r, Decision (P r)} n :
  SharedJudge.ids_distinct t ->
  NoDup (shared_file_id <$>
           limit_if_positive n (merge_sort by_first_seen (filter P (rows t)))).
Proof.
  intros Hd. eapply sublist_NoDup; [|apply fmap_sublist, limit_if_positive_sublist].
  rewrite merge_sort_Permutation.
  eapply sublist_NoDup; [by apply rows_ids_NoDup|].
  apply fmap_sublist, sublist_filter.
Qed.

Lemma elem_of_selection (t : table) (P : shared_file -> Prop)
    `{forall r, Decision (P r)} n r :
  r ∈ limit_if_positive n (merge_sort by_first_seen (filter P (rows t))) ->
  P r /\ exists h, t !! h = Some r.
Proof.
  intros Hin. eapply elem_of_sublist in Hin; [|apply limit_if_positive_sublist].
  rewrite merge_sort_Permutation in Hin.
  apply list_elem_of_filter in Hin as [HP Hin]. split; [done|]. by apply elem_of_rows.
Qed.


End SharedFilesFacts.

(** ** Stage B and stage C on the ledger *)

Module SharedStagesProofs.
Import PyStr SharedScan SharedFiles ZipInspect SharedFilesFacts.
Import Examples StageExamples.

Lemma hash_row_update disk (t : table) r :
  SharedHash.hash_row disk t r =
  update_by_id (shared_file_id r) (SharedHash.hashed_row disk r) t.
Proof.
  unfold SharedHash.hash_row, SharedHash.hashed_row.
  destruct (shared_file_id r <=? 0); [by rewrite update_by_id_id|].
  by destruct (disk (path r)).
Qed.

Lemma hashed_row_id disk r x :
  shared_file_id (SharedHash.hashed_row disk r x) = shared_file_id x.
Proof.
  unfold SharedHash.hashed_row. destruct (shared_file_id r <=? 0); [done|].
  by destruct (disk (path r)).
Qed.

Lemma hash_main_passes disk limit only_stage (t : table) :
  SharedHash.main disk limit only_stage t =
  passes (SharedHash.hashed_row disk) (SharedHash.select_targets t limit only_stage) <$> t.
Proof.
  unfold SharedHash.main.
  rewrite <- foldl_update_by_id by apply hashed_row_id.
  generalize (SharedHash.select_targets t limit only_stage). intros sel.
  generalize t. induction sel as [|r sel IH]; intros t0; [done|].
  simpl. by rewrite hash_row_update, IH.
Qed.



Lemma judge_row_update disk now pa (t : table) r :
  SharedJudge.judge_row disk now pa t r =
  update_by_id (shared_file_id r) (SharedJudge.judged disk now pa r) t.
Proof.
  unfold SharedJudge.judge_row, SharedJudge.probe_step, SharedJudge.judged.
  destruct (shared_file_id r <=? 0); [by rewrite update_by_id_id|].
  destruct (pa || bool_decide (zip_has_xml r = None)).
  - destruct (ok (probe_zip_has_xml (disk (path r)))).
    + destruct (SharedJudge.judgement _ _) as [auto n].
      unfold db_update_auto_judgement, db_update_zip_xml_probe.
      by rewrite update_by_id_compose.
    + destruct (SharedJudge.judgement _ _) as [auto n].
      unfold db_update_auto_judgement, db_update_zip_xml_probe.
      by rewrite update_by_id_compose.
  - by destruct (SharedJudge.judgement _ _) as [auto n].
Qed.

Lemma judged_id disk now pa r x :
  shared_file_id (SharedJudge.judged disk now pa r x) = shared_file_id x.
Proof.
  unfold SharedJudge.judged. destruct (shared_file_id r <=? 0); [done|].
  destruct (pa || bool_decide (zip_has_xml r = None));
    [destruct (ok (probe_zip_has_xml (disk (path r))))|];
    by destruct (SharedJudge.judgement _ _).
Qed.

Lemma judged_keeps disk now pa r x :
  scan_columns (SharedJudge.judged disk now pa r x) = scan_columns x /\
  stage_status (SharedJudge.judged disk now pa r x) = stage_status x /\
  sha256 (SharedJudge.judged disk now pa r x) = sha256 x.
Proof.
  unfold SharedJudge.judged. destruct (shared_file_id r <=? 0); [done|].
  destruct (pa || bool_decide (zip_has_xml r = None));
    [destruct (ok (probe_zip_has_xml (disk (path r))))|];
    by destruct (SharedJudge.judgement _ _).
Qed.

Lemma judge_main_passes disk now limit only_stage pa (t : table) :
  SharedJudge.main disk now limit only_stage pa t =
  passes (SharedJudge.judged disk now pa)
         (db_select_new_zip_files_for_judge t limit only_stage) <$> t.
Proof.
  unfold SharedJudge.main.
  rewrite <- foldl_update_by_id by apply judged_id.
  generalize (db_select_new_zip_files_for_judge t limit only_stage). intros sel.
  generalize t. induction sel as [|r sel IH]; intros t0; [done|].
  simpl. by rewrite judge_row_update, IH.
Qed.

Lemma judged_verdict disk now pa r :
  0 < shared_file_id r ->
  let r' := SharedJudge.judged disk now pa r r in
  (auto_judgement r' = "KENSHIN" <-> SharedJudge.holds_xml disk pa r = true) /\
  (auto_judgement r' = "UNKNOWN" <-> SharedJudge.holds_xml disk pa r = false) /\
  (zip_has_xml r' = Some 1 <-> SharedJudge.holds_xml disk pa r = true).
Proof.
  intros Hpos. unfold SharedJudge.judged, SharedJudge.holds_xml.
  destruct (Z.leb_spec (shared_file_id r) 0); [lia|].
  destruct (pa || bool_decide (zip_has_xml r = None)).
  - destruct (ok (probe_zip_has_xml (disk (path r)))); simpl.
    + destruct (has_xml (probe_zip_has_xml (disk (path r)))); simpl; by repeat split.
    + by repeat split.
  - unfold SharedJudge.judgement.
    destruct (decide (zip_has_xml r = Some 1)) as [Hx|Hx].
    + rewrite !(bool_decide_eq_true_2 _ Hx). simpl. by repeat split.
    + rewrite !(bool_decide_eq_false_2 _ Hx).
      case_bool_decide; simpl; by repeat split.
Qed.

(** X13: the automatic judgement follows the probe.  With
    [shared_file_id] a key of the ledger: a row that is not selected is
    left exactly as it was, and no row with a manual judgement is ever
    selected; a selected row with a positive id ends with
    [auto_judgement] ['KENSHIN'] exactly when its archive is known to hold
    XML, and ['UNKNOWN'] otherwise, with [zip_has_xml] 1 in the first case
    only, and keeps its stage, its hash and the columns of the scan.  For
    a row that is probed, "holds XML" means that the archive could be
    listed and lists a member accepted by [_is_xml_member]. *)
Theorem judgement_follows_the_probe
    (disk : string -> probed) (now : string) (limit : Z) (only_stage : string)
    (probe_always : bool) (t : table) :
  SharedJudge.ids_distinct t ->
  let selected := db_select_new_zip_files_for_judge t limit only_stage in
  let t' := SharedJudge.main disk now limit only_stage probe_always t in
  (forall h r, t !! h = Some r -> r ∉ selected -> t' !! h = Some r) /\
  (forall r, r ∈ selected -> judge_target only_stage r) /\
  (forall h r, t !! h = Some r -> r ∈ selected -> 0 < shared_file_id r ->
     exists r', t' !! h = Some r' /\
       (auto_judgement r' = "KENSHIN" <-> SharedJudge.holds_xml disk probe_always r = true) /\
       (auto_judgement r' = "UNKNOWN" <-> SharedJudge.holds_xml disk probe_always r = false) /\
       (zip_has_xml r' = Some 1 <-> SharedJudge.holds_xml disk probe_always r = true) /\
       stage_status r' = stage_status r /\ sha256 r' = sha256 r /\
       scan_columns r' = scan_columns r) /\
  (forall r, probe_always = true \/ zip_has_xml r = None ->
     SharedJudge.holds_xml disk probe_always r = true <->
     exists names n, disk (path r) = Listed names /\ n ∈ names /\ _is_xml_member n = true).
Proof.
  intros Hd selected t'.
  assert (NoDup (shared_file_id <$> selected)) as Hnd.
  { subst selected. unfold db_select_new_zip_files_for_judge. by apply selection_ids_NoDup. }
  split; [|split; [|split]].
  - intros h r Hr Hnin. subst t'. rewrite judge_main_passes, passes_lookup, Hr. simpl.
    f_equal. apply passes_untouched. intros r' Hr' Heq. apply Hnin.
    destruct (elem_of_selection t _ limit r' Hr') as (_ & h' & Hh').
    assert (h' = h) as -> by by eapply Hd.
    rewrite Hh' in Hr. by injection Hr as <-.
  - intros r Hin. by destruct (elem_of_selection t _ limit r Hin).
  - intros h r Hr Hin Hpos. exists (SharedJudge.judged disk now probe_always r r).
    split.
    + subst t'. rewrite judge_main_passes, passes_lookup, Hr. simpl.
      fold selected. by rewrite passes_once by (done || apply judged_id).
    + destruct (judged_verdict disk now probe_always r Hpos) as (? & ? & ?).
      destruct (judged_keeps disk now probe_always r r) as (? & ? & ?). done.
  - intros r Hprobe. unfold SharedJudge.holds_xml.
    assert (probe_always || bool_decide (zip_has_xml r = None) = true) as ->.
    { destruct Hprobe as [->|Hn]; [done|]. rewrite (bool_decide_eq_true_2 _ Hn).
      apply orb_true_r. }
    destruct (disk (path r)) as [| |names| | | |] eqn:Hdisk; simpl;
      try (split; [done|by intros (? & ? & ? & _)]).
    split.
    + intros Hpos%Z.ltb_lt.
      destruct (filter (fun n => _is_xml_member n = true) names) as [|n l] eqn:Hf;
        [simpl in Hpos; lia|].
      assert (n ∈ filter (fun n => _is_xml_member n = true) names) as Hin
        by (rewrite Hf; left).
      apply list_elem_of_filter in Hin as [? ?]. by exists names, n.
    + intros (names' & n & [= <-] & Hin & Hxml). apply Z.ltb_lt.
      assert (n ∈ filter (fun n => _is_xml_member n = true) names) as Hin'
        by by apply list_elem_of_filter.
      destruct (filter (fun n => _is_xml_member n = true) names);
        [by apply elem_of_nil in Hin'|simpl; lia].
Qed.

(** The theorem at a ledger with one unjudged ZIP that lists an XML. *)
Lemma judgement_follows_the_probe_witness :
  auto_judgement <$>
    SharedJudge.main (fun _ => Listed new_zip_members) "2026-02-01 09:00:00" 500 "NEW" false
      {["h8" := new_zip_row]} !! "h8" = Some "KENSHIN".
Proof.
  destruct (judgement_follows_the_probe (fun _ => Listed new_zip_members)
              "2026-02-01 09:00:00" 500 "NEW" false {["h8" := new_zip_row]})
    as (_ & _ & Hsel & _).
  { intros h1 h2 r1 r2 [-> _]%lookup_singleton_Some [-> _]%lookup_singleton_Some _. done. }
  destruct (Hsel "h8" new_zip_row) as (r' & Hr' & Hk & _).
  - apply lookup_singleton_eq.
  - vm_compute. left.
  - simpl. lia.
  - rewrite Hr'. simpl. f_equal. apply Hk. vm_compute. reflexivity.
Defined.

Lemma scan_file_keeps sha1_text allow ts depth (t : gmap string shared_file * Z) f h r :
  t.1 !! h = Some r ->
  exists r', (scan_file sha1_text allow ts depth t f).1 !! h = Some r' /\
             rescan_columns r' = rescan_columns r.
Proof.
  intros Hr. unfold scan_file.
  destruct (bool_decide (allow <> ∅) && bool_decide (norm_ext (f_suffix f) ∉ allow));
    [by exists r|].
  unfold db_upsert_shared_file.
  destruct (decide (h = sha1_text (r_path (scan_row ts depth f)))) as [->|Hne].
  - rewrite Hr. simpl. rewrite lookup_insert_eq. eexists. split; [done|].
    unfold rescan_columns. simpl. by destruct (manual_judgement r).
  - destruct (t.1 !! sha1_text (r_path (scan_row ts depth f))); simpl;
      rewrite lookup_insert_ne by done; by exists r.
Qed.

Lemma foldl_scan_file_keeps sha1_text allow ts depth files
    (t : gmap string shared_file * Z) h r :
  t.1 !! h = Some r ->
  exists r', (foldl (scan_file sha1_text allow ts depth) t files).1 !! h = Some r' /\
             rescan_columns r' = rescan_columns r.
Proof.
  revert t r. induction files as [|f files IH]; intros t r Hr; [by exists r|].
  simpl. destruct (scan_file_keeps sha1_text allow ts depth t f h r Hr) as (r1 & Hr1 & Hk1).
  destruct (IH _ _ Hr1) as (r2 & Hr2 & Hk2). exists r2. split; [done|]. congruence.
Qed.

(** X14: what the stages on the ledger never touch.  A row stays in
    the ledger through a scan, a hashing run and a judging run.  A scan,
    whatever it finds, leaves a known row its id, its path hash, its
    first-seen time, its content hash and its manual judgement.  Hashing
    and judging leave every row its id, path hash, path, file name,
    extension, first-seen time and manual judgement; judging also leaves
    the stage and the content hash. *)
Theorem stages_keep_the_manual_judgement (t : table) (h : string) (r : shared_file) :
  t !! h = Some r ->
  (forall sha1_text allow ts depth scan_limit files next,
     exists r', (scan sha1_text allow ts depth scan_limit files (t, next)).1 !! h = Some r' /\
       rescan_columns r' = rescan_columns r) /\
  (forall disk limit only_stage,
     exists r', SharedHash.main disk limit only_stage t !! h = Some r' /\
       scan_columns r' = scan_columns r /\ stage_status r' = stage_status r /\
       auto_judgement r' = auto_judgement r) /\
  (forall disk now limit only_stage probe_always,
     exists r', SharedJudge.main disk now limit only_stage probe_always t !! h = Some r' /\
       scan_columns r' = scan_columns r /\ stage_status r' = stage_status r /\
       sha256 r' = sha256 r).
Proof.
  intros Hr. split; [|split].
  - intros. unfold scan. by apply foldl_scan_file_keeps.
  - intros. rewrite hash_main_passes, passes_lookup, Hr. simpl. eexists. split; [done|].
    split; [|split].
    + apply (passes_keeps scan_columns). intros r0 x. unfold SharedHash.hashed_row.
      destruct (shared_file_id r0 <=? 0); [done|]. by destruct (disk (path r0)).
    + apply (passes_keeps stage_status). intros r0 x. unfold SharedHash.hashed_row.
      destruct (shared_file_id r0 <=? 0); [done|]. by destruct (disk (path r0)).
    + apply (passes_keeps auto_judgement). intros r0 x. unfold SharedHash.hashed_row.
      destruct (shared_file_id r0 <=? 0); [done|]. by destruct (disk (path r0)).
  - intros. rewrite judge_main_passes, passes_lookup, Hr. simpl. eexists. split; [done|].
    split; [|split].
    + apply (passes_keeps scan_columns). intros r0 x. apply judged_keeps.
    + apply (passes_keeps stage_status). intros r0 x. apply judged_keeps.
    + apply (passes_keeps sha256). intros r0 x. apply judged_keeps.
Qed.

(** The theorem at the example row with its manual judgement. *)
Lemma stages_keep_the_manual_judgement_witness :
  exists r', SharedJudge.main (fun _ => PathMissing) "2026-02-01 09:00:00" 0 "INPUT_COPIED"
               true {["h1" := c9_old]} !! "h1" = Some r' /\
             scan_columns r' = scan_columns c9_old.
Proof.
  destruct (stages_keep_the_manual_judgement {["h1" := c9_old]} "h1" c9_old)
    as (_ & _ & Hjudge).
  { apply lookup_singleton_eq. }
  destruct (Hjudge (fun _ => PathMissing) "2026-02-01 09:00:00" 0 "INPUT_COPIED" true)
    as (r' & Hr' & Hk & _).
  by exists r'.
Defined.

End SharedStagesProofs.

(** ** Stage G: dates of the header *)

Module XmlHeaderProofs.
Import PyStr PyText PyStrFacts XmlHeader.










End XmlHeaderProofs.

(** ** Reading one member of an archive *)

Module ZipMemberProofs.
Import PyStr PyText PyStrFacts ZipMember.

Lemma prefix_empty s : String.prefix "" s = true.
Proof. by destruct s. Qed.

Lemma prefix_app_l p a b :
  String.prefix p a = true -> String.prefix p (a +:+ b) = true.
Proof.
  revert a. induction p as [|c p IH]; intros a; [intros _; apply prefix_empty|].
  destruct a as [|x a]; [done|]. simpl.
  change (String x a +:+ b) with (String x (a +:+ b)).
  destruct (ascii_dec c x); [apply IH|done].
Qed.

Lemma prefix_app_inv a b s :
  String.prefix (a +:+ b) s = true -> String.prefix a s = true.
Proof.
  revert s. induction a as [|c a IH]; intros s; [intros _; apply prefix_empty|].
  change (String c a +:+ b) with (String c (a +:+ b)).
  destruct s as [|x s]; [done|]. simpl.
  destruct (ascii_dec c x); [apply IH|done].
Qed.

Lemma contains_app_l sub a b : contains sub a = true -> contains sub (a +:+ b) = true.
Proof.
  induction a as [|x a IH].
  - simpl. rewrite orb_false_r. intros H. destruct sub; [|done].
    change ("" +:+ b) with b. by destruct b.
  - change (String x a +:+ b) with (String x (a +:+ b)).
    change (contains sub (String x a))
      with (String.prefix sub (String x a) || contains sub a).
    change (contains sub (String x (a +:+ b)))
      with (String.prefix sub (String x (a +:+ b)) || contains sub (a +:+ b)).
    intros [H|H]%orb_true_iff; apply orb_true_iff.
    + left. by apply (prefix_app_l sub (String x a) b).
    + right. by apply IH.
Qed.

Lemma contains_app_r sub a b : contains sub b = true -> contains sub (a +:+ b) = true.
Proof.
  intros H. induction a as [|x a IH]; [done|].
  change (String x a +:+ b) with (String x (a +:+ b)).
  change (contains sub (String x (a +:+ b)))
    with (String.prefix sub (String x (a +:+ b)) || contains sub (a +:+ b)).
  rewrite IH. apply orb_true_r.
Qed.

Lemma lower_app a b : lower (a +:+ b) = lower a +:+ lower b.
Proof.
  unfold lower. induction a as [|x a IH]; [done|].
  change (String x a +:+ b) with (String x (a +:+ b)). simpl.
  rewrite IH. done.
Qed.

Lemma rev_cons_string c s : String.rev (String c s) = String.rev s +:+ String c "".
Proof.
  apply chars_inj. rewrite chars_app, !chars_rev. simpl. by rewrite reverse_cons.
Qed.

Lemma endswith_longer c suffix s :
  ZipImport.endswith (String c suffix) s = true -> ZipImport.endswith suffix s = true.
Proof.
  unfold ZipImport.endswith. rewrite rev_cons_string. apply prefix_app_inv.
Qed.

Lemma elem_of_targets zf norm t :
  t ∈ targets zf norm ->
  t = norm \/ t ∈ namelist zf /\ ZipImport.endswith norm t = true.
Proof.
  unfold targets. case_bool_decide as Hin.
  - intros ->%list_elem_of_singleton. by left.
  - set (cands := filter _ _).
    assert (forall x, x ∈ cands -> x ∈ namelist zf /\ ZipImport.endswith norm x = true) as Hc.
    { intros x [Hp Hx]%list_elem_of_filter. split; [done|].
      apply orb_true_iff in Hp as [Hp|Hp]; [|done].
      by apply (endswith_longer "/"%char). }
    destruct cands as [|c [|c' cands']].
    + intros ->%list_elem_of_singleton. by left.
    + intros ->%list_elem_of_singleton. right. apply Hc. left.
    + intros Ht. right. apply Hc. eapply elem_of_sublist; [exact Ht|]. apply sublist_take.
Qed.

Lemma targets_exact zf norm : norm ∈ namelist zf -> targets zf norm = [norm].
Proof. intros H. unfold targets. by rewrite bool_decide_eq_true_2. Qed.

Lemma try_targets_opened zf pwd ts b :
  try_targets zf pwd ts = Opened b -> exists t, t ∈ ts /\ read_member zf t pwd = Read b.
Proof.
  induction ts as [|t ts IH]; [done|]. simpl.
  destruct (read_member zf t pwd) eqn:Hr; try done.
  - intros [= ->]. exists t. split; [left|done].
  - intros (t' & Hin & Ht')%IH. exists t'. split; [by right|done].
Qed.

Lemma try_targets_none zf pwd ts :
  try_targets zf pwd ts = NoneOpened <->
  forall t, t ∈ ts -> read_member zf t pwd = ReadKeyError.
Proof.
  induction ts as [|t ts IH]; simpl.
  - split; [|done]. intros _ t Hin. by apply not_elem_of_nil in Hin.
  - destruct (read_member zf t pwd) eqn:Hr.
    + split; [done|]. intros H. specialize (H t (list_elem_of_here _ _)). congruence.
    + rewrite IH. split.
      * intros H t' [->|Hin]%elem_of_cons; [done|by apply H].
      * intros H t' Hin. apply H. by right.
    + split; [done|]. intros H. specialize (H t (list_elem_of_here _ _)). congruence.
    + split; [done|]. intros H. specialize (H t (list_elem_of_here _ _)). congruence.
Qed.

Lemma try_passwords_returns zf norm ts pws le ob :
  try_passwords zf norm ts pws le = Returns ob ->
  exists b pw, ob = Some b /\ pw ∈ pws /\ try_targets zf (Some pw) ts = Opened b.
Proof.
  revert le. induction pws as [|pw pws IH]; intros le; simpl.
  - by destruct le.
  - destruct (try_targets zf (Some pw) ts) eqn:Ht.
    + intros [= <-]. exists b, pw. split; [done|]. split; [left|done].
    + intros (b & pw' & ? & ? & ?)%IH. exists b, pw'. split; [done|]. split; [by right|done].
    + intros (b & pw' & ? & ? & ?)%IH. exists b, pw'. split; [done|]. split; [by right|done].
    + intros (b & pw' & ? & ? & ?)%IH. exists b, pw'. split; [done|]. split; [by right|done].
Qed.

Lemma try_passwords_first zf norm ts pre pw post le b :
  (forall p, p ∈ pre -> forall b', try_targets zf (Some p) ts <> Opened b') ->
  try_targets zf (Some pw) ts = Opened b ->
  try_passwords zf norm ts (pre ++ pw :: post) le = Returns (Some b).
Proof.
  intros Hpre Hpw. revert le. induction pre as [|p pre IH]; intros le; simpl.
  - by rewrite Hpw.
  - pose proof (Hpre p (list_elem_of_here _ _)) as Hp.
    assert (forall p', p' ∈ pre -> forall b', try_targets zf (Some p') ts <> Opened b') as Hrest
      by (intros p' Hin; apply Hpre; by right).
    destruct (try_targets zf (Some p) ts) eqn:Ht; try by apply IH.
    by destruct (Hp b0).
Qed.

Lemma exhausted_speaks_of_password x :
  contains "password" (lower ("password candidates exhausted for " +:+ x)) = true.
Proof. rewrite lower_app. by apply contains_app_l. Qed.

Lemma try_passwords_raises zf norm ts pws le :
  (forall pw, pw ∈ pws -> forall b, try_targets zf (Some pw) ts <> Opened b) ->
  exists msg, try_passwords zf norm ts pws le = RaisesRuntimeError msg /\
              open_error_code msg = "ZIP_PASSWORD".
Proof.
  revert le. induction pws as [|pw pws IH]; intros le Hno; simpl.
  - destruct le as [e|]; eexists; (split; [done|]); unfold open_error_code.
    + by rewrite exhausted_speaks_of_password.
    + by rewrite exhausted_speaks_of_password.
  - pose proof (Hno pw (list_elem_of_here _ _)) as Hp.
    assert (forall p', p' ∈ pws -> forall b', try_targets zf (Some p') ts <> Opened b') as Hrest
      by (intros p' Hin; apply Hno; by right).
    destruct (try_targets zf (Some pw) ts) eqn:Ht; try by apply IH.
    by destruct (Hp b).
Qed.

Lemma try_passwords_outcome zf norm ts pws le :
  (exists b, try_passwords zf norm ts pws le = Returns (Some b)) \/
  (exists msg, try_passwords zf norm ts pws le = RaisesRuntimeError msg /\
               open_error_code msg = "ZIP_PASSWORD").
Proof.
  revert le. induction pws as [|pw pws IH]; intros le.
  - right. apply try_passwords_raises. intros pw Hin. by apply not_elem_of_nil in Hin.
  - simpl. destruct (try_targets zf (Some pw) ts) eqn:Ht; try apply IH.
    left. by exists b.
Qed.

(** X16: what [_open_member_bytes] hands back is a member of the
    archive.  A path the archive has, readable without password, is read
    as it is.  Bytes returned are the bytes of one of the names tried (the
    path itself, or a name of the archive that ends with it; the path
    itself whenever the archive has it), read without password or under
    one of the candidates.  On a path the archive has whose plain read
    fails with an encryption error, the first candidate that opens the
    member gives the result.  [None] is returned exactly when every name
    tried is unknown to the archive. *)
Theorem open_member_bytes_reads_a_target
    (zf : zip_file) (inner_path : string) (pws : list string) :
  let norm := DbMedi._norm_inner_path inner_path in
  (forall b, norm ∈ namelist zf -> read_member zf norm None = Read b ->
     _open_member_bytes zf inner_path pws = Returns (Some b)) /\
  (forall b, _open_member_bytes zf inner_path pws = Returns (Some b) ->
     exists t pwd,
       (t = norm \/ t ∈ namelist zf /\ ZipImport.endswith norm t = true) /\
       (norm ∈ namelist zf -> t = norm) /\
       read_member zf t pwd = Read b /\
       (pwd = None \/ exists pw, pw ∈ pws /\ pwd = Some pw)) /\
  (forall pre pw post b msg,
     norm ∈ namelist zf ->
     read_member zf norm None = ReadRuntimeError msg ->
     speaks_of_encryption msg = true ->
     pws = pre ++ pw :: post ->
     (forall p, p ∈ pre -> forall b', read_member zf norm (Some p) <> Read b') ->
     read_member zf norm (Some pw) = Read b ->
     _open_member_bytes zf inner_path pws = Returns (Some b)) /\
  (_open_member_bytes zf inner_path pws = Returns None <->
   forall t, t ∈ targets zf norm -> read_member zf t None = ReadKeyError).
Proof.
  intros norm. repeat split.
  - intros b Hin Hr. unfold _open_member_bytes. fold norm.
    rewrite (targets_exact _ _ Hin). simpl. by rewrite Hr.
  - intros b. unfold _open_member_bytes. fold norm.
    assert (forall t, t ∈ targets zf norm -> norm ∈ namelist zf -> t = norm) as Hexact.
    { intros t Ht Hin. rewrite (targets_exact _ _ Hin) in Ht.
      by apply list_elem_of_singleton in Ht. }
    destruct (try_targets zf None (targets zf norm)) eqn:Ht; try done.
    + intros [= <-]. apply try_targets_opened in Ht as (t & Hin & Hr).
      exists t, None. split; [by apply elem_of_targets|].
      split; [by apply Hexact|]. split; [done|by left].
    + destruct (negb (speaks_of_encryption msg)); [done|].
      destruct pws as [|pw pws']; [done|].
      intros (b' & pw' & [= <-] & Hpw & Ho)%try_passwords_returns.
      apply try_targets_opened in Ho as (t & Hin & Hr).
      exists t, (Some pw'). split; [by apply elem_of_targets|].
      split; [by apply Hexact|]. split; [done|]. right. by exists pw'.
  - intros pre pw post b msg Hin Hr Henc -> Hpre Hpw.
    unfold _open_member_bytes. fold norm. rewrite (targets_exact _ _ Hin). simpl.
    rewrite Hr, Henc. simpl.
    assert (try_passwords zf norm [norm] (pre ++ pw :: post) None = Returns (Some b)) as ->.
    { apply try_passwords_first.
      - intros p Hp b'. simpl. specialize (Hpre p Hp).
        destruct (read_member zf norm (Some p)); try done. by destruct (Hpre b0).
      - simpl. by rewrite Hpw. }
    by destruct pre.
  - unfold _open_member_bytes. fold norm. intros H. apply try_targets_none.
    destruct (try_targets zf None (targets zf norm)) eqn:Ht; try done.
    destruct (negb (speaks_of_encryption msg)); [done|].
    destruct pws as [|pw pws']; [done|].
    by apply try_passwords_returns in H as (b' & pw' & [=] & _).
  - intros H%try_targets_none. unfold _open_member_bytes. fold norm. by rewrite H.
Qed.

(** X17: how [_open_member_bytes] fails.  An exception that is no
    [RuntimeError] leaves the call only from the read without password;
    the loop over the candidates lets none out.  A [RuntimeError] of the
    call is either the one of the plain read, passed on because its text
    does not speak of encryption, or one whose text holds "password", which
    [xml_extract_phase] files as [ZIP_PASSWORD].  When the plain read fails
    with an encryption error and no candidate opens a name, the call
    raises such an error: without any candidate it says so, and it never
    returns [None] or bytes. *)
Theorem open_member_bytes_failures
    (zf : zip_file) (inner_path : string) (pws : list string) :
  let norm := DbMedi._norm_inner_path inner_path in
  let plain := try_targets zf None (targets zf norm) in
  (forall msg, _open_member_bytes zf inner_path pws = RaisesException msg ->
     plain = TriedException msg) /\
  (forall msg, _open_member_bytes zf inner_path pws = RaisesRuntimeError msg ->
     plain = TriedRuntimeError msg /\ speaks_of_encryption msg = false \/
     open_error_code msg = "ZIP_PASSWORD") /\
  (forall e, plain = TriedRuntimeError e -> speaks_of_encryption e = true ->
     (pws = [] ->
      _open_member_bytes zf inner_path pws =
      RaisesRuntimeError ("zip member is encrypted and no password candidates: " +:+ norm)) /\
     ((forall pw, pw ∈ pws -> forall b, try_targets zf (Some pw) (targets zf norm) <> Opened b) ->
      exists msg, _open_member_bytes zf inner_path pws = RaisesRuntimeError msg /\
                  open_error_code msg = "ZIP_PASSWORD")).
Proof.
  intros norm plain. unfold plain. repeat split.
  - intros msg. unfold _open_member_bytes. fold norm.
    destruct (try_targets zf None (targets zf norm)) eqn:Ht; try done.
    + destruct (negb (speaks_of_encryption msg0)); [done|].
      destruct pws as [|pw pws']; [done|]. intros H.
      destruct (try_passwords_outcome zf norm (targets zf norm) (pw :: pws') None)
        as [(b & Hb)|(m & Hm & _)]; congruence.
    + by intros [= ->].
  - intros msg. unfold _open_member_bytes. fold norm.
    destruct (try_targets zf None (targets zf norm)) eqn:Ht; try done.
    destruct (speaks_of_encryption msg0) eqn:Henc; simpl.
    + destruct pws as [|pw pws'].
      * intros [= <-]. right. unfold open_error_code. rewrite lower_app.
        by rewrite contains_app_l.
      * intros H. right.
        destruct (try_passwords_outcome zf norm (targets zf norm) (pw :: pws') None)
          as [(b & Hb)|(m & Hm & Hcode)]; congruence.
    + intros [= <-]. by left.
  - intros ->. unfold _open_member_bytes. fold norm. by rewrite H, H0.
  - intros Hno. unfold _open_member_bytes. fold norm. rewrite H, H0. simpl.
    destruct pws as [|pw pws'].
    + eexists. split; [done|]. unfold open_error_code. rewrite lower_app.
      by rewrite contains_app_l.
    + by apply try_passwords_raises.
Qed.

End ZipMemberProofs.

(** ** Stage H: the rows collected from a document *)

Module ItemRowsProofs.
Import PyStr PyText PyStrFacts Xml ItemExtract ItemExtractProofs ItemRun.










End ItemRowsProofs.

(** ** Stage H: the run over the selected receipts *)

Module ItemRunProofs.
Import PyStr Xml ItemExtract ItemExtractProofs ItemRun ItemRowsProofs ZipMember.

Lemma tally_app s l1 l2 : tally s (l1 ++ l2) = (tally s l1 + tally s l2)%nat.
Proof. unfold tally. by rewrite filter_app, length_app. Qed.

Lemma tally_zero s l : tally s l = 0%nat <-> forall u, u ∈ l -> u.2 <> s.
Proof.
  unfold tally. induction l as [|u l IH]; simpl.
  - split; [|done]. intros _ u Hu. by apply not_elem_of_nil in Hu.
  - destruct (decide (u.2 = s)) as [Hs|Hs].
    + rewrite filter_cons_True by done. simpl. split; [done|].
      intros H. by destruct (H u (list_elem_of_here _ _)).
    + rewrite filter_cons_False by done. rewrite IH. split.
      * intros H u' [->|Hin]%elem_of_cons; [done|by apply H].
      * intros H u' Hin. apply H. by right.
Qed.

Lemma tally_singleton s u : tally s [u] = if decide (u.2 = s) then 1%nat else 0%nat.
Proof.
  unfold tally. case_decide.
  - by rewrite filter_cons_True.
  - by rewrite filter_cons_False.
Qed.

Lemma tally_three l :
  Forall (fun u : Z * string => u.2 = "OK" \/ u.2 = "ERROR" \/ u.2 = "SKIP") l ->
  length l = (tally "OK" l + tally "ERROR" l + tally "SKIP" l)%nat.
Proof.
  induction 1 as [|u l Hu _ IH]; [done|].
  change (u :: l) with ([u] ++ l). rewrite !tally_app, length_app, IH.
  rewrite !tally_singleton. simpl.
  destruct Hu as [Hu|[Hu|Hu]]; rewrite !Hu; repeat case_decide; try done; lia.
Qed.

Section run.
Context (W : world) (d : DbMedi.db) (sha256_text : string -> string)
        (zip_pw_enabled : bool) (item_master_map : gmap string master_hint) (run_id : Z).

Lemma item_row_finished r w :
  extract_row W d zip_pw_enabled item_master_map r = Finished w ->
  (w_status w = "OK" /\ w_counter w = CountOk /\ w_items w <> []) \/
  (w_status w = "ERROR" /\ (w_counter w = CountErr \/ w_counter w = CountZeroHit)) \/
  (w_status w = "SKIP" /\ w_counter w = CountNothing /\ w_items w = []).
Proof.
  unfold extract_row, failed. intros H.
  repeat (case_match; try done); simplify_eq; simpl;
    try (right; left; split; [done|]; by left);
    try (right; right; done).
  all: case_bool_decide as Hlen.
  all: try (left; split; [done|]; split; [done|]; intros Hnil; rewrite Hnil in Hlen;
            simpl in Hlen; lia).
  all: right; left; split; [done|]; by right.
Qed.


Lemma run_targets_accounts targets st st' :
  run_targets W d sha256_text zip_pw_enabled item_master_map run_id targets st = Some st' ->
  let new := update_of W d zip_pw_enabled item_master_map <$> targets in
  status_updates st' = status_updates st ++ new /\
  processed st' = (processed st + length targets)%nat /\
  ok st' = (ok st + tally "OK" new)%nat /\
  (err st' + zero_hit st' = err st + zero_hit st + tally "ERROR" new)%nat /\
  Forall (fun u : Z * string => u.2 = "OK" \/ u.2 = "ERROR" \/ u.2 = "SKIP") new.
Proof.
  revert st. induction targets as [|r rest IH]; intros st Hrun new; subst new.
  - simpl in Hrun. injection Hrun as <-. rewrite app_nil_r. unfold tally. simpl.
    repeat split; try lia. apply Forall_nil_2.
  - simpl in Hrun. rewrite fmap_cons.
    destruct (extract_row W d zip_pw_enabled item_master_map r) as [w|] eqn:Hrow; [|done].
    apply IH in Hrun as (Hu & Hp & Hok & Herr & Hall).
    assert (update_of W d zip_pw_enabled item_master_map r = (t_xml_receipt_id r, w_status w))
      as Hupd by (unfold update_of, status_of; by rewrite Hrow).
    rewrite Hupd. simpl in Hu, Hp, Hok, Herr.
    set (new := update_of W d zip_pw_enabled item_master_map <$> rest) in *.
    change ((t_xml_receipt_id r, w_status w) :: new)
      with ([(t_xml_receipt_id r, w_status w)] ++ new).
    rewrite !tally_app, !tally_singleton. simpl length.
    assert (status_updates st' =
            status_updates st ++ [(t_xml_receipt_id r, w_status w)] ++ new) as Hu'
      by (by rewrite Hu, <- app_assoc).
    destruct (item_row_finished r w Hrow)
      as [(Hs & Hc & _)|[(Hs & [Hc|Hc])|(Hs & Hc & _)]];
      rewrite Hs in Hu' |- *; rewrite Hc in Hok, Herr; simpl;
      repeat case_decide; try done;
      (split; [done|]); (split; [lia|]); (split; [lia|]); (split; [lia|]);
      (apply Forall_cons; split; [simpl; tauto|done]).
Qed.

Lemma run_targets_returns targets st :
  (forall t, t ∈ targets ->
     extract_row W d zip_pw_enabled item_master_map t <> ZipFileRaises) ->
  is_Some (run_targets W d sha256_text zip_pw_enabled item_master_map run_id targets st).
Proof.
  revert st. induction targets as [|r rest IH]; intros st Hno; simpl; [done|].
  pose proof (Hno r (list_elem_of_here _ _)) as Hr.
  destruct (extract_row W d zip_pw_enabled item_master_map r) as [w|]; [|done].
  apply IH. intros t Hin. apply Hno. by right.
Qed.

Lemma item_row_raises r :
  extract_row W d zip_pw_enabled item_master_map r = ZipFileRaises ->
  exists zsha zrow, DbMedi.zip_receipts d !! zsha = Some zrow /\
                    open_zip W (DbMedi.zip_path zrow) = None.
Proof.
  unfold extract_row, failed. intros H.
  repeat (case_match; try done); simplify_eq; eauto.
Qed.





End run.

(** X19: the run accounts for every target.  When every archive the
    receipts name can be opened, the loop comes to its end.  Whenever it
    does, it has made one status update per target, in the order of the
    targets and under the target's receipt id, each with [OK], [ERROR] or
    [SKIP]; [processed] counts the targets, [ok] the updates with [OK],
    [err] and [zero_hit] together those with [ERROR], and what is missing
    to [processed] are the [SKIP]s.  The exit code is 0 exactly when no
    target ended [ERROR], and 2 otherwise. *)
Theorem item_run_accounts_for_every_target
    (W : world) (d : DbMedi.db) (sha256_text : string -> string) (zip_pw_enabled : bool)
    (item_master_map : gmap string master_hint) (run_id : Z)
    (targets : list target) (table : gmap (string * string * nat) xml_item_value) :
  let run :=
    run_targets W d sha256_text zip_pw_enabled item_master_map run_id targets (start table) in
  ((forall zsha zrow, DbMedi.zip_receipts d !! zsha = Some zrow ->
      is_Some (open_zip W (DbMedi.zip_path zrow))) -> is_Some run) /\
  forall st, run = Some st ->
    status_updates st = update_of W d zip_pw_enabled item_master_map <$> targets /\
    (forall u, u ∈ status_updates st -> u.2 = "OK" \/ u.2 = "ERROR" \/ u.2 = "SKIP") /\
    processed st = length targets /\
    ok st = tally "OK" (status_updates st) /\
    (err st + zero_hit st)%nat = tally "ERROR" (status_updates st) /\
    processed st =
      (ok st + err st + zero_hit st + tally "SKIP" (status_updates st))%nat /\
    (exit_code st = 0 <-> forall u, u ∈ status_updates st -> u.2 <> "ERROR") /\
    (exit_code st <> 0 -> exit_code st = 2).
Proof.
  intros run. split.
  - intros Hopen. apply run_targets_returns. intros t _ Hraise.
    apply item_row_raises in Hraise as (zsha & zrow & Hz & Hnone).
    destruct (Hopen zsha zrow Hz) as [zf Hzf]. congruence.
  - intros st Hrun. apply run_targets_accounts in Hrun as (Hu & Hp & Hok & Herr & Hall).
    simpl in Hu, Hp, Hok, Herr. rewrite Hu.
    set (new := update_of W d zip_pw_enabled item_master_map <$> targets) in *.
    assert (length new = length targets) as Hlen by (unfold new; by rewrite length_fmap).
    pose proof (tally_three new Hall) as H3.
    split; [done|]. split; [by apply Forall_forall|].
    split; [done|]. split; [done|]. split; [done|]. split; [lia|].
    split.
    + rewrite <- tally_zero. unfold exit_code.
      destruct (Nat.eqb_spec (err st) 0) as [He|He];
        destruct (Nat.eqb_spec (zero_hit st) 0) as [Hz|Hz]; simpl; split; intros; lia.
    + unfold exit_code. by destruct (_ && _).
Qed.



End ItemRunProofs.

(** ** Stage G: the phase over the pending receipts *)

Module XmlExtractPhaseProofs.
Import PyStr Sql SqlFacts Xml XmlExtract ZipMember XmlExtractPhase.

Lemma cda_index_step_log tree : step (cda_index_step tree).2 = "CDA_INDEX".
Proof.
  unfold cda_index_step. destruct (_extract_document_id tree) as [doc_id cda_result].
  by repeat case_bool_decide.
Qed.

Lemma xsd_step_log o : step (xsd_step o).2 = "XSD_VALIDATE".
Proof.
  unfold xsd_step. destruct o as [|xsd_ok used_xsd xsd_msg]; [done|].
  destruct (String.prefix _ _); [done|]. by destruct xsd_ok.
Qed.

(** The steps after the parse: four log rows, and the update that goes
    with the result of the ledger step. *)
Lemma extract_parsed_shape run_id tree later :
  let res := extract_parsed run_id tree later in
  step <$> res.1 = ["CDA_INDEX"; "XSD_VALIDATE"; "EXTRACT_ITEMS"; "LEDGER"] /\
  match ledger_error later with
  | None =>
      last res.1 = Some (log "LEDGER" "OK" None) /\
      u_status res.2 = "OK" /\ u_error_code res.2 = None /\ u_error_message res.2 = None /\
      u_extracted_run_id res.2 = Some run_id /\ u_extracted_at_now res.2 = true
  | Some e =>
      last res.1 = Some (log "LEDGER" "ERROR" (Some (_shorten e 1200))) /\
      u_status res.2 = "ERROR" /\ u_error_code res.2 = Some "LEDGER_UPSERT" /\
      u_error_message res.2 = Some (_shorten e 1200) /\
      u_extracted_run_id res.2 = None /\ u_extracted_at_now res.2 = false
  end.
Proof.
  unfold extract_parsed.
  pose proof (cda_index_step_log tree) as Hc. pose proof (xsd_step_log (xsd later)) as Hx.
  destruct (cda_index_step tree) as [doc_id cda_log].
  destruct (xsd_step (xsd later)) as [[xsd_valid xsd_note] xsd_log].
  simpl in Hc, Hx. destruct (ledger_error later) as [e|]; simpl; rewrite Hc, Hx; done.
Qed.

Lemma open_error_code_known e : open_error_code e ∈ error_codes.
Proof.
  unfold open_error_code, error_codes. destruct (contains _ _).
  - do 2 right. left.
  - do 3 right. left.
Qed.

(** What a finished row has written. *)
Lemma extract_row_finished W d run_id r log_sha logs u c :
  extract_row W d run_id r = Finished log_sha logs u c ->
  well_formed_update run_id u /\
  (c = true <-> u_status u = "OK") /\
  (step <$> head logs) = Some "WELLFORMED" /\
  (u_status u = "OK" ->
     step <$> logs = all_steps /\
     head logs = Some (log "WELLFORMED" "OK" None) /\
     last logs = Some (log "LEDGER" "OK" None)) /\
  (u_status u = "ERROR" ->
     exists l, last logs = Some l /\ result l = "ERROR" /\
               (step l = "WELLFORMED" \/ step l = "LEDGER")).
Proof.
  assert (forall code msg, code ∈ error_codes ->
            well_formed_update run_id (error_update code msg None)) as Herr.
  { intros code msg Hcode. right. simpl. repeat split; eauto. }
  unfold extract_row. intros H.
  repeat (case_match; try done); simplify_eq.
  all: try (split; [apply Herr; (apply open_error_code_known || (unfold error_codes; set_solver))|];
            split; [done|]; split; [done|]; split; [done|];
            intros _; eexists; split; [reflexivity|]; split; [done|by left]).
  match goal with
  | Hp : extract_parsed ?run ?tree ?later = (?logs', ?u') |- _ =>
      pose proof (extract_parsed_shape run tree later) as Hshape; rewrite Hp in Hshape;
      simpl in Hshape; destruct Hshape as [Hsteps Hled]
  end.
  destruct (ledger_error _) as [le|] eqn:Hle.
  - destruct Hled as (Hlast & Hs & Hc & Hm & Hr & Ha).
    split.
    { right. rewrite Hs, Hc, Hm, Hr, Ha. repeat split; eauto.
      eexists. split; [done|]. unfold error_codes. set_solver. }
    split; [by rewrite Hs|].
    split; [done|]. split; [by rewrite Hs|]. intros _.
    exists (log "LEDGER" "ERROR" (Some (_shorten le 1200))).
    split; [|split; [done|by right]].
    destruct l as [|l0 l']; [done|]. by rewrite last_cons, Hlast.
  - destruct Hled as (Hlast & Hs & Hc & Hm & Hr & Ha).
    split; [left; by rewrite Hs, Hc, Hm, Hr, Ha|].
    split; [by rewrite Hs|].
    split; [done|]. split; [|by rewrite Hs]. intros _.
    split; [unfold all_steps; simpl; by rewrite <- Hsteps|]. split; [done|].
    destruct l as [|l0 l']; [done|]. by rewrite last_cons, Hlast.
Qed.

Lemma extract_row_escapes W d run_id r :
  extract_row W d run_id r = Escapes ->
  exists zrow, DbMedi.zip_receipts d !! DbMedi.xr_zip_sha256 r = Some zrow /\
    (open_zip W (DbMedi.zip_path zrow) = None \/
     exists zf pws msg, open_zip W (DbMedi.zip_path zrow) = Some zf /\
       _open_member_bytes zf (DbMedi._norm_inner_path (DbMedi.zip_inner_path r)) pws
         = RaisesException msg).
Proof.
  unfold extract_row. intros H.
  repeat (case_match; try done); simplify_eq; eexists; (split; [done|]); eauto 10.
Qed.

Lemma ok_updates_app l1 l2 : ok_updates (l1 ++ l2) = (ok_updates l1 + ok_updates l2)%nat.
Proof. unfold ok_updates. by rewrite filter_app, length_app. Qed.

Lemma run_rows_accounts W d run_id rows st st' :
  run_rows W d run_id rows st = Some st' ->
  exists new,
    index_updates st' = index_updates st ++ new /\
    Some <$> new = update_of W d run_id <$> rows /\
    Forall (fun u => well_formed_update run_id u.2) new /\
    processed st' = (processed st + length rows)%nat /\
    ok st' = (ok st + ok_updates new)%nat /\
    (ok st' + err st' = ok st + err st + length rows)%nat.
Proof.
  revert st. induction rows as [|r rest IH]; intros st Hrun; simpl in Hrun.
  - injection Hrun as <-. exists []. rewrite app_nil_r. unfold ok_updates. simpl.
    repeat split; try lia. apply Forall_nil_2.
  - destruct (extract_row W d run_id r) as [log_sha logs u c|] eqn:Hrow; [|done].
    apply IH in Hrun as (new & Hu & Hnew & Hall & Hp & Hok & Hsum).
    simpl in Hu, Hp, Hok, Hsum.
    destruct (extract_row_finished _ _ _ _ _ _ _ _ Hrow) as (Hwf & Hc & _).
    exists ((DbMedi.xml_sha256 r, u) :: new). split; [by rewrite Hu, <- app_assoc|].
    split; [rewrite !fmap_cons, Hnew; unfold update_of at 2; by rewrite Hrow|].
    split; [by apply Forall_cons|].
    change ((DbMedi.xml_sha256 r, u) :: new) with ([(DbMedi.xml_sha256 r, u)] ++ new).
    rewrite ok_updates_app. unfold ok_updates at 1. simpl length at 1.
    destruct c.
    + rewrite filter_cons_True by (by apply Hc). simpl. lia.
    + rewrite filter_cons_False by (simpl; intros Hs; apply Hc in Hs; done). simpl. lia.
Qed.

Lemma run_rows_returns W d run_id rows st :
  (forall r, r ∈ rows -> extract_row W d run_id r <> Escapes) ->
  is_Some (run_rows W d run_id rows st).
Proof.
  revert st. induction rows as [|r rest IH]; intros st Hno; simpl; [done|].
  pose proof (Hno r (list_elem_of_here _ _)) as Hr.
  destruct (extract_row W d run_id r); [|done].
  apply IH. intros t Hin. apply Hno. by right.
Qed.

Lemma elem_of_pending W d status lim r :
  r ∈ db_select_pending_xmls W d status lim ->
  DbMedi.status r = status /\ exists k, DbMedi.xml_receipts d !! k = Some r.
Proof.
  unfold db_select_pending_xmls. intros Hin%limit_elem%order_by_elem.
  apply list_elem_of_filter in Hin as [Hs Hin]. split; [done|].
  apply list_elem_of_fmap in Hin as ([k r'] & -> & Hin). exists k.
  by apply elem_of_map_to_list in Hin.
Qed.

(** X21: the phase accounts for every receipt it selects.  The
    receipts selected are rows of the table with the target status.  The
    loop comes to its end unless a parent archive cannot be opened or its
    plain read raises an exception that is no [RuntimeError].  Whenever it
    does, there is one update per selected receipt, in order and under the
    receipt's hash, each either [OK] (no error, run stamped) or [ERROR]
    (one of eight codes, a message, no stamp); [processed] counts the
    receipts, [ok] the [OK] updates and [err] the rest.  A finished
    receipt has a [WELLFORMED] row as its first log row; it ends [OK] only
    with the five steps logged in order, from [WELLFORMED OK] to
    [LEDGER OK], and [ERROR] only with an [ERROR] row of the step
    [WELLFORMED] or [LEDGER] logged last. *)
Theorem extract_phase_accounts_for_every_receipt
    (W : world) (d : DbMedi.db) (run_id : Z) (target_status : string) (lim : Z) :
  let rows := db_select_pending_xmls W d target_status lim in
  let res := xml_extract_phase W d run_id target_status lim in
  (forall r, r ∈ rows ->
     DbMedi.status r = target_status /\ exists k, DbMedi.xml_receipts d !! k = Some r) /\
  ((forall r zrow, r ∈ rows ->
      DbMedi.zip_receipts d !! DbMedi.xr_zip_sha256 r = Some zrow ->
      exists zf, open_zip W (DbMedi.zip_path zrow) = Some zf /\
        forall pws msg,
          _open_member_bytes zf (DbMedi._norm_inner_path (DbMedi.zip_inner_path r)) pws
            <> RaisesException msg) ->
   is_Some res) /\
  (forall st, res = Some st ->
     Some <$> index_updates st = update_of W d run_id <$> rows /\
     (index_updates st).*1 = DbMedi.xml_sha256 <$> rows /\
     Forall (fun u => well_formed_update run_id u.2) (index_updates st) /\
     processed st = length rows /\
     ok st = ok_updates (index_updates st) /\
     processed st = (ok st + err st)%nat) /\
  (forall r log_sha logs u c, extract_row W d run_id r = Finished log_sha logs u c ->
     (step <$> head logs) = Some "WELLFORMED" /\
     (u_status u = "OK" ->
        step <$> logs = all_steps /\
        head logs = Some (log "WELLFORMED" "OK" None) /\
        last logs = Some (log "LEDGER" "OK" None)) /\
     (u_status u = "ERROR" ->
        exists l, last logs = Some l /\ result l = "ERROR" /\
                  (step l = "WELLFORMED" \/ step l = "LEDGER"))).
Proof.
  intros rows res. split; [|split; [|split]].
  - intros r Hr. by apply elem_of_pending in Hr.
  - intros Hopen. apply run_rows_returns. intros r Hr Hesc.
    apply extract_row_escapes in Hesc as (zrow & Hz & Hcase).
    destruct (Hopen r zrow Hr Hz) as (zf & Hzf & Hread).
    destruct Hcase as [Hnone|(zf' & pws & msg & Hzf' & Hexc)]; [congruence|].
    rewrite Hzf in Hzf'. injection Hzf' as <-. by destruct (Hread pws msg).
  - intros st Hrun. apply run_rows_accounts in Hrun
      as (new & Hu & Hnew & Hall & Hp & Hok & Hsum). simpl in Hu, Hp, Hok, Hsum.
    rewrite Hu. clear Hu.
    split; [done|]. split; [|split; [done|]; split; [done|]; lia].
    fold rows in Hnew. clear -Hnew. revert new Hnew.
    induction rows as [|r rest IH]; intros [|u new] Hnew; try done.
    rewrite !fmap_cons in Hnew. injection Hnew as Hu Hnew.
    rewrite !fmap_cons. rewrite (IH new Hnew). f_equal.
    unfold update_of in Hu. destruct (extract_row W d run_id r); [|done].
    by injection Hu as ->.
  - intros r log_sha logs u c Hrow.
    by destruct (extract_row_finished _ _ _ _ _ _ _ _ Hrow) as (_ & _ & ? & ? & ?).
Qed.

End XmlExtractPhaseProofs.

(** ** Stage G: what the phase leaves in the receipts *)

Module XmlIndexProofs.
Import PyStr Sql SqlFacts XmlExtract XmlExtractPhase XmlExtractPhaseProofs DbMedi XmlIndex.

Lemma apply_updates_pass C clock updates (t : gmap string indexed) :
  apply_updates C clock updates t = pass C clock updates <$> t.
Proof.
  unfold apply_updates. revert t. induction updates as [|su updates IH]; intros t; simpl.
  - by rewrite map_fmap_id.
  - rewrite IH. unfold db_update_xml_index_fields. rewrite <- map_fmap_compose.
    apply map_fmap_ext. intros k x _. done.
Qed.

Lemma pass_unnamed C clock updates x :
  unnamed_columns (receipt (pass C clock updates x)) = unnamed_columns (receipt x).
Proof.
  revert x. induction updates as [|su updates IH]; intros x; simpl; [done|].
  rewrite IH. by case_bool_decide.
Qed.

Lemma pass_sha C clock updates x :
  xml_sha256 (receipt (pass C clock updates x)) = xml_sha256 (receipt x).
Proof.
  pose proof (pass_unnamed C clock updates x) as H. unfold unnamed_columns in H.
  by injection H.
Qed.

Lemma pass_untouched C clock updates x :
  xml_sha256 (receipt x) ∉ updates.*1 -> pass C clock updates x = x.
Proof.
  revert x. induction updates as [|su updates IH]; intros x Hnot; simpl; [done|].
  rewrite fmap_cons in Hnot. apply not_elem_of_cons in Hnot as [Hne Hnot].
  rewrite bool_decide_eq_false_2 by done. by apply IH.
Qed.

Lemma pass_once C clock updates x u :
  NoDup updates.*1 -> (xml_sha256 (receipt x), u) ∈ updates ->
  receipt (pass C clock updates x) = set_index_fields C u (receipt x).
Proof.
  revert x. induction updates as [|su updates IH]; intros x Hnd Hin; simpl.
  - by apply elem_of_nil in Hin.
  - rewrite fmap_cons in Hnd. apply NoDup_cons in Hnd as [Hnin Hnd].
    apply elem_of_cons in Hin as [Heq|Hin].
    + subst su. simpl in *. rewrite bool_decide_eq_true_2 by done.
      by rewrite pass_untouched.
    + rewrite bool_decide_eq_false_2; [by apply IH|].
      intros Heq. apply Hnin. rewrite <- Heq.
      apply list_elem_of_fmap. by exists (xml_sha256 (receipt x), u).
Qed.

Lemma pending_in_table W d (t : gmap string indexed) status lim r :
  keyed t -> xml_receipts d = receipt <$> t ->
  r ∈ db_select_pending_xmls W d status lim ->
  DbMedi.status r = status /\
  exists x, t !! xml_sha256 r = Some x /\ receipt x = r.
Proof.
  intros Hk Ht [Hs [k Hin]]%elem_of_pending. split; [done|].
  rewrite Ht, lookup_fmap in Hin.
  destruct (t !! k) as [x|] eqn:Hx; [|done]. injection Hin as <-.
  exists x. split; [|done]. by rewrite (Hk k x Hx).
Qed.

Lemma pending_hashes_NoDup W d (t : gmap string indexed) status lim :
  keyed t -> xml_receipts d = receipt <$> t ->
  NoDup (xml_sha256 <$> db_select_pending_xmls W d status lim).
Proof.
  intros Hk Ht. unfold db_select_pending_xmls, limit.
  eapply sublist_NoDup; [|apply fmap_sublist, sublist_take].
  rewrite order_by_perm.
  eapply sublist_NoDup; [|apply fmap_sublist, sublist_filter].
  rewrite <- list_fmap_compose.
  apply NoDup_fmap_2_strong; [|apply NoDup_map_to_list].
  intros [k1 r1] [k2 r2] H1%elem_of_map_to_list H2%elem_of_map_to_list Heq. simpl in Heq.
  rewrite Ht, lookup_fmap in H1, H2.
  destruct (t !! k1) as [x1|] eqn:Hx1; [|done]. destruct (t !! k2) as [x2|] eqn:Hx2; [|done].
  injection H1 as <-. injection H2 as <-.
  rewrite (Hk k1 x1 Hx1), (Hk k2 x2 Hx2) in Heq. subst k2. congruence.
Qed.

Lemma well_formed_status run_id u :
  well_formed_update run_id u -> u_status u = "OK" \/ u_status u = "ERROR".
Proof. intros [(H & _)|(H & _)]; [by left|by right]. Qed.

(** X22: what a phase leaves in [medi_xml_receipts].  On a table in
    which every receipt sits under its own hash: the phase adds and
    removes no row and changes no column other than the six it names; a
    receipt that was not selected is left exactly as it was; a selected
    receipt takes the result of its own update, so it ends with the status
    [OK] or [ERROR]; and when the target status is neither of the two, no
    receipt the phase has worked on is selected by a later phase, whatever
    its limit. *)
Theorem extract_phase_takes_receipts_out_of_queue
    (W : world) (C : columns) (clock : string -> timestamp) (d : db)
    (t : gmap string indexed) (run_id : Z) (target_status : string) (lim : Z)
    (st : phase_state) :
  keyed t ->
  xml_receipts d = receipt <$> t ->
  xml_extract_phase W d run_id target_status lim = Some st ->
  let rows := db_select_pending_xmls W d target_status lim in
  let t' := apply_updates C clock (index_updates st) t in
  keyed t' /\
  (forall k x, t !! k = Some x ->
     exists x', t' !! k = Some x' /\
       unnamed_columns (receipt x') = unnamed_columns (receipt x) /\
       (receipt x ∉ rows -> x' = x)) /\
  (forall k, t !! k = None -> t' !! k = None) /\
  (forall r, r ∈ rows ->
     exists x' u, t' !! xml_sha256 r = Some x' /\
       update_of W d run_id r = Some (xml_sha256 r, u) /\
       receipt x' = set_index_fields C u r /\
       (status (receipt x') = "OK" \/ status (receipt x') = "ERROR")) /\
  (target_status <> "OK" -> target_status <> "ERROR" ->
   forall lim' r',
     r' ∈ db_select_pending_xmls W (with_receipts t' d) target_status lim' ->
     xml_sha256 r' ∉ xml_sha256 <$> rows).
Proof.
  intros Hk Ht Hrun rows t'.
  apply run_rows_accounts in Hrun as (new & Hu & Hnew & Hall & _).
  simpl in Hu. fold rows in Hnew.
  assert (new.*1 = xml_sha256 <$> rows) as Hfst.
  { clear -Hnew. revert new Hnew.
    induction rows as [|r rest IH]; intros [|u new] Hnew; try done.
    rewrite !fmap_cons in Hnew. injection Hnew as Hu Hnew.
    rewrite !fmap_cons. rewrite (IH new Hnew). f_equal.
    unfold update_of in Hu. destruct (extract_row W d run_id r); [|done].
    by injection Hu as ->. }
  assert (forall r, r ∈ rows -> exists u, (xml_sha256 r, u) ∈ new /\
            update_of W d run_id r = Some (xml_sha256 r, u)) as Hown.
  { clear -Hnew. revert new Hnew.
    induction rows as [|r rest IH]; intros [|u new] Hnew r' Hr'; try done.
    - by apply elem_of_nil in Hr'.
    - rewrite !fmap_cons in Hnew. injection Hnew as Hu Hnew.
      apply elem_of_cons in Hr' as [->|Hr'].
      + assert (u.1 = xml_sha256 r) as Hsha.
        { unfold update_of in Hu. destruct (extract_row W d run_id r); [|done].
          by injection Hu as ->. }
        exists u.2. rewrite <- Hsha, <- surjective_pairing. split; [left|done].
      + destruct (IH new Hnew r' Hr') as (u' & Hin & Hup). exists u'. split; [by right|done]. }
  assert (NoDup new.*1) as Hnd by (rewrite Hfst; by eapply pending_hashes_NoDup).
  assert (t' = pass C clock new <$> t) as Ht'
    by (unfold t'; by rewrite Hu, apply_updates_pass).
  assert (forall x, receipt x ∉ rows -> t !! xml_sha256 (receipt x) = Some x ->
            xml_sha256 (receipt x) ∉ new.*1) as Hout.
  { intros x Hnot Hx Hin. rewrite Hfst in Hin.
    apply list_elem_of_fmap in Hin as (r & Hsha & Hr).
    destruct (pending_in_table W d t target_status lim r Hk Ht Hr) as (_ & x0 & Hx0 & Hrx).
    rewrite <- Hsha, Hx in Hx0. injection Hx0 as <-. by subst r. }
  split; [|split; [|split; [|split]]].
  - intros k x'. rewrite Ht', lookup_fmap.
    destruct (t !! k) as [x|] eqn:Hx; [|done]. intros [= <-].
    rewrite pass_sha. by apply Hk.
  - intros k x Hx. exists (pass C clock new x).
    split; [by rewrite Ht', lookup_fmap, Hx|]. split; [apply pass_unnamed|].
    intros Hnot. apply pass_untouched. apply Hout; [done|].
    by rewrite (Hk k x Hx).
  - intros k Hx. by rewrite Ht', lookup_fmap, Hx.
  - intros r Hr.
    destruct (pending_in_table W d t target_status lim r Hk Ht Hr) as (_ & x & Hx & <-).
    destruct (Hown _ Hr) as (u & Hin & Hup).
    exists (pass C clock new x), u.
    split; [by rewrite Ht', lookup_fmap, Hx|]. split; [done|].
    assert (receipt (pass C clock new x) = set_index_fields C u (receipt x)) as Hrec
      by by apply pass_once.
    split; [done|]. rewrite Hrec. simpl.
    rewrite Forall_forall in Hall. apply (well_formed_status run_id), (Hall _ Hin).
  - intros Hnok Hnerr lim' r' Hsel Hin.
    apply elem_of_pending in Hsel as [Hs [k Hr']].
    unfold with_receipts in Hr'. simpl in Hr'. rewrite Ht', !lookup_fmap in Hr'.
    destruct (t !! k) as [x|] eqn:Hx; [|done]. injection Hr' as <-.
    rewrite pass_sha in Hin. rewrite Hfst in Hnd.
    apply list_elem_of_fmap in Hin as (r & Hsha & Hr).
    destruct (Hown _ Hr) as (u & Hinu & _). rewrite <- Hsha in Hinu.
    rewrite <- Hfst in Hnd.
    rewrite (pass_once C clock new x u Hnd Hinu) in Hs. simpl in Hs.
    rewrite Forall_forall in Hall.
    destruct (well_formed_status run_id u (Hall _ Hinu)); congruence.
Qed.

Lemma extract_phase_takes_receipts_out_of_queue_witness :
  exists st, RunExamples.x1_phase = Some st /\
    exists x' u,
      apply_updates RunExamples.x1_columns (fun _ => 300) (index_updates st)
                    RunExamples.x1_table !! "x1" = Some x' /\
      update_of RunExamples.x1_phase_world RunExamples.x1_db 7 RunExamples.x1_receipt
        = Some ("x1", u) /\
      receipt x' = set_index_fields RunExamples.x1_columns u RunExamples.x1_receipt /\
      (status (receipt x') = "OK" \/ status (receipt x') = "ERROR").
Proof.
  destruct RunExamples.x1_phase as [st|] eqn:Hrun; [|by vm_compute in Hrun].
  exists st. split; [done|].
  refine (proj1 (proj2 (proj2 (proj2
            (extract_phase_takes_receipts_out_of_queue RunExamples.x1_phase_world
               RunExamples.x1_columns (fun _ => 300) RunExamples.x1_db RunExamples.x1_table
               7 "PENDING" 500 st _ _ Hrun)))) RunExamples.x1_receipt _).
  - intros k x Hx. unfold RunExamples.x1_table in Hx.
    by apply lookup_singleton_Some in Hx as [<- <-].
  - unfold RunExamples.x1_db, RunExamples.x1_table. simpl. by rewrite map_fmap_singleton.
  - vm_compute. left.
Defined.

End XmlIndexProofs.

(** ** The ledger of shared files: ids stay keys through the stages *)

Module LedgerKeysProofs.
Import PyStr SharedScan SharedFiles SharedFilesFacts SharedStagesProofs.
Import ReceiptKeys ReceiptKeysProofs LedgerKeys.
Import Examples.

Lemma ledger_keyed_fmap (f : shared_file -> shared_file) (t : gmap string shared_file) next :
  (forall x, shared_file_id (f x) = shared_file_id x /\ path_hash (f x) = path_hash x) ->
  ledger_keyed (t, next) -> ledger_keyed (f <$> t, next).
Proof.
  intros Hf ([Hkey Hinj] & Hnext & Hpos). simpl in *.
  assert (forall h y, (f <$> t) !! h = Some y -> exists x, t !! h = Some x /\ y = f x) as Hinv.
  { intros h y. rewrite lookup_fmap. destruct (t !! h) as [x|]; [|done].
    intros [= <-]. by exists x. }
  split; [split|split; [done|]]; simpl.
  - intros h y (x & Hx & ->)%Hinv. destruct (Hf x) as [-> ->]. by apply Hkey.
  - intros h1 h2 y1 y2 (x1 & Hx1 & ->)%Hinv (x2 & Hx2 & ->)%Hinv.
    destruct (Hf x1) as [-> _]. destruct (Hf x2) as [-> _]. by apply Hinj.
  - intros h y (x & Hx & ->)%Hinv. destruct (Hf x) as [-> _]. by eapply Hpos.
Qed.

Lemma scan_file_keyed sha1_text allow ts depth t f :
  ledger_keyed t -> ledger_keyed (scan_file sha1_text allow ts depth t f).
Proof.
  intros (Hk & Hnext & Hpos). unfold scan_file.
  destruct (bool_decide (allow <> ∅) && bool_decide (norm_ext (f_suffix f) ∉ allow));
    [done|].
  destruct t as [t next]. simpl in *. unfold db_upsert_shared_file. simpl.
  set (h := sha1_text (f_path f)).
  destruct (t !! h) as [old|] eqn:Hold; simpl.
  - split; [|split; [done|]].
    + pose proof (keyed_by_insert path_hash shared_file_id t next h
                    {| shared_file_id := shared_file_id old; path_hash := path_hash old;
                       path := f_path f;
                       src_folder_raw := r_src_folder_raw (scan_row ts depth f);
                       dst_folder_norm := None;
                       facility_hint := r_facility_hint (scan_row ts depth f);
                       file_name := r_file_name (scan_row ts depth f);
                       ext := r_ext (scan_row ts depth f);
                       file_size := r_file_size (scan_row ts depth f);
                       mtime := r_mtime (scan_row ts depth f);
                       sha256 := coalesce None (sha256 old);
                       auto_judgement := "UNKNOWN";
                       manual_judgement := coalesce (manual_judgement old) None;
                       stage_status := "NEW"; note := None;
                       first_seen_at := first_seen_at old; last_seen_at := ts;
                       zip_has_xml := zip_has_xml old; zip_xml_count := zip_xml_count old;
                       zip_xml_checked_at := zip_xml_checked_at old |} Hk) as Hins.
      rewrite Hold in Hins. simpl in Hins. apply Hins; [|done].
      destruct Hk as [Hkey _]. by destruct (Hkey h old Hold).
    + intros h' r. simpl. destruct (decide (h' = h)) as [->|Hne].
      * rewrite lookup_insert_eq. intros [= <-]. simpl. by eapply Hpos.
      * rewrite lookup_insert_ne by done. apply Hpos.
  - split; [|split; [simpl; lia|]].
    + pose proof (keyed_by_insert path_hash shared_file_id t next h
                    {| shared_file_id := next; path_hash := h;
                       path := f_path f;
                       src_folder_raw := r_src_folder_raw (scan_row ts depth f);
                       dst_folder_norm := None;
                       facility_hint := r_facility_hint (scan_row ts depth f);
                       file_name := r_file_name (scan_row ts depth f);
                       ext := r_ext (scan_row ts depth f);
                       file_size := r_file_size (scan_row ts depth f);
                       mtime := r_mtime (scan_row ts depth f);
                       sha256 := None;
                       auto_judgement := "UNKNOWN";
                       manual_judgement := None;
                       stage_status := "NEW"; note := None;
                       first_seen_at := ts; last_seen_at := ts;
                       zip_has_xml := None; zip_xml_count := None;
                       zip_xml_checked_at := None |} Hk) as Hins.
      rewrite Hold in Hins. simpl in Hins. by apply Hins.
    + intros h' r. simpl. destruct (decide (h' = h)) as [->|Hne].
      * rewrite lookup_insert_eq. by intros [= <-].
      * rewrite lookup_insert_ne by done. apply Hpos.
Qed.

Lemma foldl_scan_file_keyed sha1_text allow ts depth files t :
  ledger_keyed t -> ledger_keyed (foldl (scan_file sha1_text allow ts depth) t files).
Proof.
  revert t. induction files as [|f files IH]; intros t Hk; [done|].
  simpl. by apply IH, scan_file_keyed.
Qed.

(** X23: ids stay keys of the ledger.  When every row of the ledger
    sits under its own path hash with a positive id below the counter and
    no two rows share an id, the same holds after a scan, whatever it
    finds, after a hashing run and after a judging run.  On such a ledger
    no two rows share an id, which is what the updates by id of the later
    stages rely on. *)
Theorem ledger_stages_keep_ids_as_keys (t : gmap string shared_file * Z) :
  ledger_keyed t ->
  SharedJudge.ids_distinct t.1 /\
  (forall sha1_text allow ts depth scan_limit files,
     ledger_keyed (scan sha1_text allow ts depth scan_limit files t)) /\
  (forall disk limit only_stage,
     ledger_keyed (SharedHash.main disk limit only_stage t.1, t.2)) /\
  (forall disk now limit only_stage probe_always,
     ledger_keyed (SharedJudge.main disk now limit only_stage probe_always t.1, t.2)).
Proof.
  intros Hk. split; [|split; [|split]].
  - destruct Hk as ([_ Hinj] & _). intros h1 h2 r1 r2. apply Hinj.
  - intros. unfold scan. by apply foldl_scan_file_keyed.
  - intros. rewrite hash_main_passes. destruct t as [t next].
    apply ledger_keyed_fmap; [|done]. intros x.
    pose proof (passes_keeps scan_columns (SharedHash.hashed_row disk)
                  (SharedHash.select_targets t limit only_stage) x) as Hcols.
    unfold scan_columns in Hcols.
    assert (forall r0 x0, (shared_file_id (SharedHash.hashed_row disk r0 x0),
                           path_hash (SharedHash.hashed_row disk r0 x0),
                           path (SharedHash.hashed_row disk r0 x0),
                           file_name (SharedHash.hashed_row disk r0 x0),
                           ext (SharedHash.hashed_row disk r0 x0),
                           first_seen_at (SharedHash.hashed_row disk r0 x0),
                           manual_judgement (SharedHash.hashed_row disk r0 x0)) =
                          (shared_file_id x0, path_hash x0, path x0, file_name x0, ext x0,
                           first_seen_at x0, manual_judgement x0)) as Hrow.
    { intros r0 x0. unfold SharedHash.hashed_row.
      destruct (shared_file_id r0 <=? 0); [done|]. by destruct (disk (path r0)). }
    specialize (Hcols Hrow). by injection Hcols.
  - intros. rewrite judge_main_passes. destruct t as [t next].
    apply ledger_keyed_fmap; [|done]. intros x.
    pose proof (passes_keeps scan_columns (SharedJudge.judged disk now probe_always)
                  (db_select_new_zip_files_for_judge t limit only_stage) x) as Hcols.
    unfold scan_columns in Hcols.
    assert (forall r0 x0, scan_columns (SharedJudge.judged disk now probe_always r0 x0)
                          = scan_columns x0) as Hrow by (intros; apply judged_keeps).
    unfold scan_columns in Hrow. specialize (Hcols Hrow). by injection Hcols.
Qed.

(** The theorem at the ledger that holds the example row, rescanned. *)
Lemma ledger_stages_keep_ids_as_keys_witness :
  ledger_keyed (scan (fun _ => "h1") ∅ "2026-02-01 09:00:00.000000" 2 0 [c9_file]
                     ({["h1" := c9_old]}, 6)).
Proof.
  apply (ledger_stages_keep_ids_as_keys ({["h1" := c9_old]}, 6)).
  split; [split|split; [done|]]; simpl.
  - intros s r [<- <-]%lookup_singleton_Some. simpl. split; [done|lia].
  - by intros s1 s2 r1 r2 [<- <-]%lookup_singleton_Some [<- <-]%lookup_singleton_Some _.
  - intros h r [<- <-]%lookup_singleton_Some. simpl. lia.
Defined.

End LedgerKeysProofs.

(** ** Stages F and G together: what an import leaves for the phase *)

Module ImportExtractProofs.
Import PyStr Sql SqlFacts ZipExtract ZipImport DbMedi ZipImportPhase ZipImportSpec.
Import ZipImportRunProofs XmlExtractPhase.
Import Examples.







End ImportExtractProofs.
